(** * agent-management: URL normalisation, skill identifiers, the skill
  registry and the sync orchestrator

  A shallow embedding of the Go packages [internal/git], [internal/config],
  [internal/skills] and [internal/commands] (sync.go), with the properties
  the specification states about them; then of the version check of
  [internal/git], of [internal/project] and of the link and update
  commands of [internal/commands], with further properties of the code.

  Go strings are byte sequences; they are modelled by [string], whose
  characters are the 256 values of [ascii].  Maps ([map[string]storedSkill],
  directory listings keyed by entry name) are [gmap]s. *)

From Stdlib Require Import ZArith Ascii String Lia.
From stdpp Require Import base tactics option list gmap strings sorting.

Local Open Scope Z_scope.

(** ** The parts of Go's [strings] package the code uses *)
Module GoStrings.

(** [len(s)] *)
Definition len (s : string) : nat := String.length s.

(** [s[:n]] *)
Fixpoint slice_to (s : string) (n : nat) {struct n} : string :=
  match n, s with
  | S n', String c s' => String c (slice_to s' n')
  | _, _ => ""
  end.

(** [s[n:]] *)
Fixpoint slice_from (s : string) (n : nat) {struct n} : string :=
  match n, s with
  | S n', String _ s' => slice_from s' n'
  | _, _ => s
  end.

(** [strings.HasPrefix(s, prefix)] *)
Fixpoint HasPrefix (s prefix : string) {struct prefix} : bool :=
  match prefix, s with
  | "", _ => true
  | String p prefix', String c s' => Ascii.eqb c p && HasPrefix s' prefix'
  | String _ _, "" => false
  end.

(** [strings.HasSuffix(s, suffix)]:
    [len(s) >= len(suffix) && s[len(s)-len(suffix):] == suffix] *)
Definition HasSuffix (s suffix : string) : bool :=
  (len suffix <=? len s)%nat &&
  String.eqb (slice_from s (len s - len suffix)) suffix.

(** [strings.TrimSuffix(s, suffix)] *)
Definition TrimSuffix (s suffix : string) : string :=
  if HasSuffix s suffix then slice_to s (len s - len suffix) else s.

(** Position of the first occurrence of [substr] in [s], counted from [i]. *)
Fixpoint index_from (i : nat) (s substr : string) : option nat :=
  if HasPrefix s substr then Some i
  else match s with
       | "" => None
       | String _ s' => index_from (S i) s' substr
       end.

(** [strings.Index(s, substr)]: the index of the first occurrence, or -1. *)
Definition Index (s substr : string) : Z :=
  match index_from 0 s substr with
  | Some i => Z.of_nat i
  | None => -1
  end.

(** [strings.Contains(s, substr)] *)
Definition Contains (s substr : string) : bool :=
  negb (Index s substr =? -1).

(** Position of the last occurrence of [substr] in [s], counted from [i]. *)
Fixpoint last_index_from (i : nat) (s substr : string) : option nat :=
  match s with
  | "" => if HasPrefix s substr then Some i else None
  | String _ s' =>
      match last_index_from (S i) s' substr with
      | Some j => Some j
      | None => if HasPrefix s substr then Some i else None
      end
  end.

(** [strings.LastIndex(s, substr)]: the index of the last occurrence, or -1. *)
Definition LastIndex (s substr : string) : Z :=
  match last_index_from 0 s substr with
  | Some i => Z.of_nat i
  | None => -1
  end.

(** Is the byte [c] one of the bytes of [cutset]? *)
Fixpoint in_cutset (c : ascii) (cutset : string) : bool :=
  match cutset with
  | "" => false
  | String d cutset' => Ascii.eqb c d || in_cutset c cutset'
  end.

(** [strings.TrimRight(s, cutset)] for an ASCII cutset: every trailing
    byte that occurs in [cutset] is removed. *)
Fixpoint TrimRight (s cutset : string) : string :=
  match s with
  | "" => ""
  | String c s' =>
      match TrimRight s' cutset with
      | "" => if in_cutset c cutset then "" else String c ""
      | t => String c t
      end
  end.

(** [strings.SplitN(s, sep, 2)] for a non-empty separator: the text before
    the first [sep] and the text after it, or [s] alone without [sep]. *)
Definition SplitN2 (s sep : string) : list string :=
  let m := Index s sep in
  if m <? 0 then [s]
  else [slice_to s (Z.to_nat m); slice_from s (Z.to_nat m + len sep)].

(** The loop of [strings.Replace(s, old, new, -1)] for a non-empty [old]:
    occurrences are found from left to right and do not overlap.  [skip]
    counts the bytes of the occurrence just replaced that are still to be
    passed over. *)
Fixpoint replace_loop (skip : nat) (s old new : string) : string :=
  match s with
  | "" => ""
  | String c s' =>
      match skip with
      | S k => replace_loop k s' old new
      | O =>
          if HasPrefix s old
          then new +:+ replace_loop (len old - 1) s' old new
          else String c (replace_loop 0 s' old new)
      end
  end.

(** [strings.ReplaceAll(s, old, new)], [old] non-empty. *)
Definition ReplaceAll (s old new : string) : string :=
  replace_loop 0 s old new.

End GoStrings.

(** ** The fragment of Go's [regexp] the code uses

  Both expressions of [NormalizeURL] have the shape [^ body $], where the
  body is built from literal text, greedy repetitions [cls+] of a character
  class and capturing groups.  The matcher is the backtracking one of the
  leftmost-first semantics: a repetition first takes as much as it can and
  gives characters back one at a time.  The classes [[^/]] and [.] exclude
  an ASCII character only, so matching bytes and matching UTF-8 runes
  agree. *)
Module Regexp.
Import GoStrings.

Inductive regex : Type :=
| Lit (text : string)
| ClassPlus (cls : ascii → bool)
| Seq (r1 r2 : regex)
| Group (i : nat) (r : regex).

(** [[^/]] *)
Definition not_slash (c : ascii) : bool := negb (Ascii.eqb c "/").
(** [.] (any character but a newline) *)
Definition dot (c : ascii) : bool := negb (Ascii.eqb c "010").

(** The text between two positions of the subject, both given as the
    suffix that starts there. *)
Definition consumed (from to : string) : string :=
  slice_to from (len from - len to).

Fixpoint strip (text s : string) {struct text} : option string :=
  match text, s with
  | "", _ => Some s
  | String p text', String c s' =>
      if Ascii.eqb c p then strip text' s' else None
  | String _ _, "" => None
  end.

(** [cls*], greedy, then the continuation [k]. *)
Fixpoint star {A} (cls : ascii → bool) (s : string)
    (k : string → option A) : option A :=
  match s with
  | String c s' =>
      if cls c then
        match star cls s' k with
        | Some r => Some r
        | None => k s
        end
      else k s
  | "" => k ""
  end.

(** [cls+] is [cls cls*]. *)
Definition plus {A} (cls : ascii → bool) (s : string)
    (k : string → option A) : option A :=
  match s with
  | String c s' => if cls c then star cls s' k else None
  | "" => None
  end.

Fixpoint exec (r : regex) (s : string) (caps : list string)
    (k : string → list string → option (list string))
    : option (list string) :=
  match r with
  | Lit text =>
      match strip text s with
      | Some s' => k s' caps
      | None => None
      end
  | ClassPlus cls => plus cls s (λ s', k s' caps)
  | Seq r1 r2 => exec r1 s caps (λ s1 caps1, exec r2 s1 caps1 k)
  | Group i r =>
      exec r s caps (λ s' caps', k s' (<[i := consumed s s']> caps'))
  end.

(** A compiled expression [^ body $] with [groups] capturing groups. *)
Record Regexp := MustCompile { body : regex; groups : nat }.

(** [re.FindStringSubmatch(s)]: [None] is Go's [nil]; otherwise element 0
    is the whole match and element [i] the text of group [i]. *)
Definition FindStringSubmatch (re : Regexp) (s : string)
    : option (list string) :=
  exec (body re) s (replicate (S (groups re)) "")
    (λ rest caps, match rest with
                  | "" => Some (<[O := s]> caps)
                  | _ => None
                  end).

End Regexp.

(** ** Package [git]: [NormalizeURL] *)
Module Git.
Import GoStrings Regexp.

Record URLInfo := mkURLInfo {
  URL : string;     (* normalized .git URL *)
  Branch : string;  (* branch name (if specified in URL) *)
  Path : string     (* subdirectory path (if specified in URL) *)
}.

(** [^(https://github\.com/[^/]+/[^/]+)/tree/([^/]+)/(.+)$] *)
Definition treePathRe : Regexp :=
  MustCompile
    (Seq (Group 1 (Seq (Lit "https://github.com/")
                  (Seq (ClassPlus not_slash)
                  (Seq (Lit "/") (ClassPlus not_slash)))))
    (Seq (Lit "/tree/")
    (Seq (Group 2 (ClassPlus not_slash))
    (Seq (Lit "/") (Group 3 (ClassPlus dot))))))
    3.

(** [^(https://github\.com/[^/]+/[^/]+)/tree/([^/]+)$] *)
Definition treeBranchRe : Regexp :=
  MustCompile
    (Seq (Group 1 (Seq (Lit "https://github.com/")
                  (Seq (ClassPlus not_slash)
                  (Seq (Lit "/") (ClassPlus not_slash)))))
    (Seq (Lit "/tree/") (Group 2 (ClassPlus not_slash))))
    2.

(** [if idx := strings.Index(url, sep); idx != -1 { url = url[:idx] }] *)
Definition cut_at (url sep : string) : string :=
  let idx := Index url sep in
  if negb (idx =? -1) then slice_to url (Z.to_nat idx) else url.

Definition NormalizeURL (inputURL : string) : URLInfo :=
  let url := TrimRight inputURL "/" in
  (* Strip query parameters and fragments *)
  let url := cut_at url "?" in
  let url := cut_at url "#" in
  (* Strip .git suffix *)
  let url := TrimSuffix url ".git" in
  (* Match tree/branch/path format (with subdirectory) *)
  match FindStringSubmatch treePathRe url with
  | Some matches =>
      let pathValue := TrimRight (nth 3 matches "") "/" in
      {| URL := nth 1 matches "" +:+ ".git";
         Branch := nth 2 matches "";
         Path := pathValue |}
  | None =>
      (* Match tree/branch format (root, no subdirectory) *)
      match FindStringSubmatch treeBranchRe url with
      | Some matches =>
          {| URL := nth 1 matches "" +:+ ".git";
             Branch := nth 2 matches "";
             Path := "" |}
      | None =>
          (* Plain repo URL *)
          {| URL := url +:+ ".git"; Branch := ""; Path := "" |}
      end
  end.

End Git.

(** ** Package [config]: skill identifiers *)
Module Config.
Import GoStrings.

(** [GetSafeName] converts a skill ID to a filesystem-safe directory name,
    e.g. "github:user/repo/path" -> "github__user__repo__path". *)
Definition GetSafeName (id : string) : string :=
  let parts := SplitN2 id ":" in
  if (length parts <? 2)%nat then ReplaceAll id "/" "__"
  else
    let safeRest := ReplaceAll (nth 1 parts "") "/" "__" in
    nth 0 parts "" +:+ "__" +:+ safeRest.

(** [ParseSafeName] converts a filesystem-safe directory name back to a
    skill ID, e.g. "github__user__repo__path" -> "github:user/repo/path". *)
Definition ParseSafeName (safeName : string) : string :=
  let parts := SplitN2 safeName "__" in
  if (length parts <? 2)%nat then safeName
  else
    let rest := ReplaceAll (nth 1 parts "") "__" "/" in
    nth 0 parts "" +:+ ":" +:+ rest.

(** [GetLinkName] returns a clean name for symlinks in project
    directories. *)
Definition GetLinkName (id : string) : string :=
  let parts := SplitN2 id ":" in
  let name := if (length parts =? 2)%nat then nth 1 parts "" else id in
  (* Use the last path segment *)
  let idx := LastIndex name "/" in
  if 0 <=? idx then slice_from name (Z.to_nat (idx + 1)) else name.

End Config.

(** ** Package [skills]: the registry file [skills.json] *)
Module Skills.

(** [Skill] represents a registered skill with its metadata. *)
Record Skill := mkSkill {
  ID : string;
  CommitID : string;
  Type_ : string;
  Path : string
}.

(** [storedSkill] is the JSON storage format (without ID, since ID is the
    map key).  The [omitempty] fields are stored as the empty string when
    they are left out. *)
Record storedSkill := mkStored {
  stored_CommitID : string;
  stored_Type : string;
  stored_Path : string
}.

(** The file [skills.json].  [content] is the map the file decodes to,
    [None] when the file is missing or does not parse; [writes] counts the
    calls of [os.WriteFile] on it.  What [save] writes is what [load] reads
    back: identifiers and fields are taken to be valid UTF-8, which
    [encoding/json] stores unchanged, and [os.WriteFile] to succeed. *)
Record RegistryFile := mkFile {
  content : option (gmap string storedSkill);
  writes : nat
}.

Definition load (r : RegistryFile) : gmap string storedSkill :=
  match content r with
  | Some skills => skills
  | None => ∅
  end.

Definition save (skills : gmap string storedSkill) (r : RegistryFile)
    : RegistryFile :=
  {| content := Some skills; writes := S (writes r) |}.

(** [AddSkill] registers a new skill. *)
Definition AddSkill (id skillType commitID skillPath : string)
    (r : RegistryFile) : RegistryFile :=
  let skills := load r in
  let s := {| stored_CommitID := ""; stored_Type := skillType;
              stored_Path := "" |} in
  let s := if negb (String.eqb commitID "")
           then {| stored_CommitID := commitID;
                   stored_Type := stored_Type s;
                   stored_Path := stored_Path s |}
           else s in
  let s := if negb (String.eqb skillPath "")
           then {| stored_CommitID := stored_CommitID s;
                   stored_Type := stored_Type s;
                   stored_Path := skillPath |}
           else s in
  save (<[id := s]> skills) r.

(** [RemoveSkill] removes a skill from the registry. *)
Definition RemoveSkill (id : string) (r : RegistryFile) : RegistryFile :=
  let skills := load r in
  save (delete id skills) r.

Definition toSkill (id : string) (stored : storedSkill) : Skill :=
  {| ID := id;
     CommitID := stored_CommitID stored;
     Type_ := stored_Type stored;
     Path := stored_Path stored |}.

(** [GetSkill] returns a skill by ID, or nil ([None]) if not found. *)
Definition GetSkill (id : string) (r : RegistryFile) : option Skill :=
  let skills := load r in
  match skills !! id with
  | None => None
  | Some stored => Some (toSkill id stored)
  end.

(** [UpdateSkillVersion] updates the commit ID for a skill. *)
Definition UpdateSkillVersion (id newCommitID : string) (r : RegistryFile)
    : RegistryFile :=
  let skills := load r in
  match skills !! id with
  | Some s =>
      let s := {| stored_CommitID := newCommitID;
                  stored_Type := stored_Type s;
                  stored_Path := stored_Path s |} in
      save (<[id := s]> skills) r
  | None => r
  end.

(** The order [sort.Slice] sorts by: [result[i].ID < result[j].ID] on Go
    strings is the bytewise lexicographic order. *)
Definition by_ID (a b : Skill) : Prop := String.le (ID a) (ID b).

Global Instance by_ID_dec : RelDecision by_ID.
Proof. intros a b. unfold by_ID. apply _. Defined.

(** The slice built by [for id, stored := range skills], for one order
    [entries] in which Go walks the map. *)
Definition collect (entries : list (string * storedSkill)) : list Skill :=
  (λ e, toSkill e.1 e.2) <$> entries.

(** [GetAllSkills] returns all registered skills, sorted by ID.  Go walks
    a map in an unspecified order; the walk is taken to be
    [map_to_list], and [GetAllSkills_any_order] shows that the sorted
    result does not depend on it. *)
Definition GetAllSkills (r : RegistryFile) : list Skill :=
  let skills := load r in
  merge_sort by_ID (collect (map_to_list skills)).

End Skills.

(** ** Package [commands]: the sync orchestrator (sync.go)

  The file system is modelled by what the code reads and writes of it:
  - the registry clone, as the listing [os.ReadDir] gives for the scanned
    directory;
  - the repository directory [~/.agent-management/repo], as a map from
    entry name to the tree stored there ([skills.json] is kept apart, in
    the [RegistryFile]); the path [GetRepoPath(id)] is the entry named
    [GetSafeName(id)];
  - the skill directory of each detected project, as a map from entry name
    to entry; the path [filepath.Join(SkillDir, linkName)] is the entry
    named [linkName].
  The calls of [git], the prompt and what a symbolic link points to are
  inputs ([Env]).  File-system calls fail only where the state they see
  makes them fail (a missing entry, [os.Remove] of a directory that is not
  empty, a link that does not resolve). *)
Module Commands.
Import GoStrings Config Skills.

#[local] Unset Elimination Schemes.
Inductive node : Type :=
| File (data : string)
| Dir (entries : list (string * node))
| Symlink (target : string).
#[local] Set Elimination Schemes.

(** What following a symbolic link finds. *)
Inductive target : Type :=
| Dangling
| ToFile (data : string)
| ToDir.

(** [project.Info] holds detected project information. *)
Record Info := mkInfo {
  Type_ : string;
  Root : string;
  SkillDir : string
}.

Record Env := mkEnv {
  gitVersionOK : bool;            (* gitMgr.CheckGitVersion() == nil *)
  promptURL : option string;      (* strings.TrimSpace of the URL typed in
                                     the form; None: the form failed *)
  setRegistryOK : bool;           (* cm.SetRegistry(url) == nil *)
  cloneOK : bool;                 (* gitMgr.CloneFullQuiet(...) == nil *)
  pullOK : bool;                  (* gitMgr.PullQuiet(...) == nil *)
  readDir : string → option (list (string * node));
                                  (* os.ReadDir of the clone's directory at
                                     a sub-path, after clone or pull *)
  pathCommit : string → string;   (* GetLocalPathCommitID(registryDir, p),
                                     the error dropped *)
  resolve : string → target;
  detectedProjects : list Info    (* DetectAll() of the detector of the
                                     working directory *)
}.

Record World := mkWorld {
  configRegistry : string;        (* cm.GetRegistry() *)
  cloned : bool;                  (* registry/.git exists *)
  registry : RegistryFile;
  repo : gmap string node;
  skillDirs : gmap string (gmap string node)
}.

Definition set_registry (f : RegistryFile → RegistryFile) (w : World)
    : World :=
  {| configRegistry := configRegistry w; cloned := cloned w;
     registry := f (registry w); repo := repo w;
     skillDirs := skillDirs w |}.

Definition set_repo (f : gmap string node → gmap string node) (w : World)
    : World :=
  {| configRegistry := configRegistry w; cloned := cloned w;
     registry := registry w; repo := f (repo w);
     skillDirs := skillDirs w |}.

Definition set_skillDirs
    (f : gmap string (gmap string node) → gmap string (gmap string node))
    (w : World) : World :=
  {| configRegistry := configRegistry w; cloned := cloned w;
     registry := registry w; repo := repo w;
     skillDirs := f (skillDirs w) |}.

(** [cm.GetRepoPath(id)], as the name of the entry of the repository
    directory. *)
Definition GetRepoPath (id : string) : string := GetSafeName id.

(** [os.RemoveAll(cm.GetRepoPath(id))] *)
Definition RemoveAll (path : string) (w : World) : World :=
  set_repo (delete path) w.

(** The entry called [name] of a listing. *)
Fixpoint lookup_entry (name : string) (entries : list (string * node))
    : option node :=
  match entries with
  | [] => None
  | (n, x) :: rest =>
      if String.eqb n name then Some x else lookup_entry name rest
  end.

(** [_, err := os.Stat(path); err == nil] for the entry found at [path]:
    [os.Stat] follows a symbolic link. *)
Definition stat_ok (rs : string → target) (x : option node) : bool :=
  match x with
  | None => false
  | Some (Symlink t) =>
      match rs t with Dangling => false | _ => true end
  | Some _ => true
  end.

(** [scanForSkills] walks the registry directory and returns paths of
    directories containing SKILL.md.  Only scans one level deep (direct
    children of the root).  [listing] is the result of [os.ReadDir(root)];
    the path [filepath.Join(root, entry.Name())] is given by the entry. *)
Fixpoint scan_entries (rs : string → target)
    (entries : list (string * node)) : list (string * node) :=
  match entries with
  | [] => []
  | (name, x) :: rest =>
      match x with
      | Dir sub =>
          if HasPrefix name "." then scan_entries rs rest
          else if stat_ok rs (lookup_entry "SKILL.md" sub)
               then (name, x) :: scan_entries rs rest
               else scan_entries rs rest
      | _ => scan_entries rs rest          (* !entry.IsDir() *)
      end
  end.

Definition scanForSkills (rs : string → target)
    (listing : option (list (string * node))) : list (string * node) :=
  match listing with
  | None => []
  | Some entries => scan_entries rs entries
  end.

(** [copyDir(src, dst)] into a fresh [dst]: the entries created in [dst],
    and whether the copy ran to its end.  [copyFile] opens its source
    through a symbolic link. *)
Fixpoint copyDir (rs : string → target) (src : node)
    : list (string * node) * bool :=
  match src with
  | Dir entries =>
      (fix copy_entries (es : list (string * node))
         : list (string * node) * bool :=
         match es with
         | [] => ([], true)
         | (name, x) :: es' =>
             match x with
             | Dir _ =>
                 let '(sub, ok) := copyDir rs x in
                 if ok then
                   let '(rest, ok') := copy_entries es' in
                   ((name, Dir sub) :: rest, ok')
                 else ([(name, Dir sub)], false)
             | File data =>
                 let '(rest, ok') := copy_entries es' in
                 ((name, File data) :: rest, ok')
             | Symlink t =>
                 match rs t with
                 | ToFile data =>
                     let '(rest, ok') := copy_entries es' in
                     ((name, File data) :: rest, ok')
                 | ToDir => ([(name, File "")], false)
                 | Dangling => ([], false)
                 end
             end
         end) entries
  | _ => ([], false)
  end.

(** [os.Remove] removes a file, a link or an empty directory. *)
Definition removable (x : node) : bool :=
  match x with
  | Dir (_ :: _) => false
  | _ => true
  end.

Definition removeSkillLinkIfPresent (skillID : string) (projectInfo : Info)
    (w : World) : bool * World :=
  let linkName := GetLinkName skillID in
  match skillDirs w !! SkillDir projectInfo with
  | None => (false, w)                          (* os.Lstat fails *)
  | Some d =>
      match d !! linkName with
      | None => (false, w)                      (* os.Lstat fails *)
      | Some x =>
          if removable x
          then (true,
                set_skillDirs
                  (<[SkillDir projectInfo := delete linkName d]>) w)
          else (false, w)                       (* os.Remove fails *)
      end
  end.

(** [for _, p := range detectedProjects { if removeSkillLinkIfPresent(cm,
    id, p) { count++ } }] *)
Fixpoint removeLinks (skillID : string) (ps : list Info) (count : nat)
    (w : World) : nat * World :=
  match ps with
  | [] => (count, w)
  | p :: ps' =>
      let '(gone, w) := removeSkillLinkIfPresent skillID p w in
      removeLinks skillID ps' (if gone then S count else count) w
  end.

(** The loop of [removeSkillsWithLinkName] over the slice
    [registry.GetAllSkills()] returned before the loop starts. *)
Fixpoint removeSkillsWithLinkName_loop (allSkills : list Skill)
    (linkName keepID : string) (ps : list Info)
    (removedSources removedLinks : nat) (w : World)
    : nat * nat * World :=
  match allSkills with
  | [] => (removedSources, removedLinks, w)
  | skill :: rest =>
      if String.eqb (ID skill) keepID then
        removeSkillsWithLinkName_loop rest linkName keepID ps
          removedSources removedLinks w
      else if negb (String.eqb (GetLinkName (ID skill)) linkName) then
        removeSkillsWithLinkName_loop rest linkName keepID ps
          removedSources removedLinks w
      else
        let w := RemoveAll (GetRepoPath (ID skill)) w in
        let '(removedLinks, w) :=
          removeLinks (ID skill) ps removedLinks w in
        let w := set_registry (RemoveSkill (ID skill)) w in
        removeSkillsWithLinkName_loop rest linkName keepID ps
          (S removedSources) removedLinks w
  end.

Definition removeSkillsWithLinkName (linkName keepID : string)
    (detected : list Info) (w : World) : nat * nat * World :=
  removeSkillsWithLinkName_loop (GetAllSkills (registry w))
    linkName keepID detected 0%nat 0%nat w.

(** The counters [SyncSkills] prints. *)
Record Report := mkReport {
  added : nat;
  updated : nat;
  unchanged : nat;
  replaced : nat;
  replacedLinks : nat;
  removed : nat;
  linkCleanup : nat
}.

Definition no_report : Report := mkReport 0 0 0 0 0 0 0.

(** [filepath.ToSlash(filepath.Rel(registryDir, skillDir))] for
    [skillDir = filepath.Join(scanRoot, name)]. *)
Definition relPath (subPath name : string) : string :=
  if String.eqb subPath "" then name else subPath +:+ "/" +:+ name.

(** The loop [for _, skillDir := range foundSkills] that syncs each skill
    into the repo. *)
Fixpoint sync_loop (e : Env) (subPath : string)
    (foundSkills : list (string * node)) (rp : Report) (w : World)
    : Report * World :=
  match foundSkills with
  | [] => (rp, w)
  | (skillName, skillDir) :: rest =>
      let id := "registry:" +:+ skillName in
      let destPath := GetRepoPath id in
      let '(removedSources, removedLinks, w) :=
        removeSkillsWithLinkName skillName id (detectedProjects e) w in
      let rp :=
        if (0 <? removedSources)%nat
        then mkReport (added rp) (updated rp) (unchanged rp)
               (replaced rp + removedSources)
               (replacedLinks rp + removedLinks)
               (removed rp) (linkCleanup rp)
        else rp in
      let existing := GetSkill id (registry w) in
      (* Copy skill directory to repo *)
      let w := RemoveAll destPath w in
      let '(copied, ok) := copyDir (resolve e) skillDir in
      let w := set_repo (<[destPath := Dir copied]>) w in
      if negb ok then sync_loop e subPath rest rp w     (* continue *)
      else
        let commitID := pathCommit e (relPath subPath skillName) in
        let w := set_registry (AddSkill id "registry" commitID "") w in
        let rp :=
          match existing with
          | None =>
              mkReport (S (added rp)) (updated rp) (unchanged rp)
                (replaced rp) (replacedLinks rp) (removed rp)
                (linkCleanup rp)
          | Some ex =>
              if negb (String.eqb (CommitID ex) commitID)
              then mkReport (added rp) (S (updated rp)) (unchanged rp)
                     (replaced rp) (replacedLinks rp) (removed rp)
                     (linkCleanup rp)
              else mkReport (added rp) (updated rp) (S (unchanged rp))
                     (replaced rp) (replacedLinks rp) (removed rp)
                     (linkCleanup rp)
          end in
        sync_loop e subPath rest rp w
  end.

(** [foundSet["registry:"+filepath.Base(skillDir)] = true] *)
Fixpoint foundSet_of (foundSkills : list (string * node))
    (foundSet : gmap string bool) : gmap string bool :=
  match foundSkills with
  | [] => foundSet
  | (skillName, _) :: rest =>
      foundSet_of rest (<["registry:" +:+ skillName := true]> foundSet)
  end.

(** The loop that removes skills that are no longer in the registry. *)
Fixpoint prune_loop (e : Env) (foundSet : gmap string bool)
    (allSkills : list Skill) (rp : Report) (w : World) : Report * World :=
  match allSkills with
  | [] => (rp, w)
  | skill :: rest =>
      if String.eqb (Skills.Type_ skill) "registry"
         && negb (default false (foundSet !! ID skill))
      then
        let w := RemoveAll (GetRepoPath (ID skill)) w in
        let '(cleanup, w) :=
          removeLinks (ID skill) (detectedProjects e) (linkCleanup rp) w in
        let w := set_registry (RemoveSkill (ID skill)) w in
        prune_loop e foundSet rest
          (mkReport (added rp) (updated rp) (unchanged rp) (replaced rp)
             (replacedLinks rp) (S (removed rp)) cleanup) w
      else prune_loop e foundSet rest rp w
  end.

(** [SyncSkills] syncs all skills from the configured registry repo.  The
    result is the counters printed and the state left behind; a run that
    returns early prints no counter. *)
Definition SyncSkills (interactive : bool) (e : Env) (w : World)
    : Report * World :=
  if negb (gitVersionOK e) then (no_report, w)
  else
    (* registryURL, and the state once a URL typed in has been saved *)
    let configured : option (string * World) :=
      if String.eqb (configRegistry w) "" then
        if negb interactive then None
        else
          match promptURL e with
          | None => None
          | Some inputURL =>
              if String.eqb inputURL "" then None
              else if negb (setRegistryOK e) then None
              else Some (inputURL,
                         {| configRegistry := inputURL; cloned := cloned w;
                            registry := registry w; repo := repo w;
                            skillDirs := skillDirs w |})
          end
      else Some (configRegistry w, w) in
    match configured with
    | None => (no_report, w)
    | Some (registryURL, w) =>
        let info := Git.NormalizeURL registryURL in
        (* Clone or pull *)
        let fetched : option World :=
          if negb (cloned w) then
            if cloneOK e
            then Some {| configRegistry := configRegistry w; cloned := true;
                         registry := registry w; repo := repo w;
                         skillDirs := skillDirs w |}
            else None
          else if pullOK e then Some w else None in
        match fetched with
        | None => (no_report, w)
        | Some w =>
            let foundSkills :=
              scanForSkills (resolve e) (readDir e (Git.Path info)) in
            if (length foundSkills =? 0)%nat then (no_report, w)
            else
              let '(rp, w) :=
                sync_loop e (Git.Path info) foundSkills no_report w in
              let allSkills := GetAllSkills (registry w) in
              let foundSet := foundSet_of foundSkills ∅ in
              prune_loop e foundSet allSkills rp w
        end
    end.

End Commands.

(** * The vocabulary of the properties *)

(** ** Strings and URLs *)
Section StringVocabulary.
Import GoStrings Regexp Git.

(** Occurrences of one byte. *)
Fixpoint count_char (c : ascii) (s : string) : nat :=
  match s with
  | "" => 0
  | String d s' => (if Ascii.eqb d c then 1 else 0) + count_char c s'
  end.

(** Every byte of [s] is in the class [cls]. *)
Fixpoint all_chars (cls : ascii → bool) (s : string) : bool :=
  match s with
  | "" => true
  | String c s' => cls c && all_chars cls s'
  end.

(** [https://github.com/<owner>/<repo>] *)
Definition repo_url (owner repo : string) : string :=
  "https://github.com/" +:+ owner +:+ "/" +:+ repo.

(** The first group of both expressions:
    [(https://github\.com/[^/]+/[^/]+)]. *)
Definition repo_group : regex :=
  Group 1 (Seq (Lit "https://github.com/")
          (Seq (ClassPlus not_slash)
          (Seq (Lit "/") (ClassPlus not_slash)))).

(** The matching part of [NormalizeURL], after the trimming. *)
Definition parse_trimmed (url : string) : URLInfo :=
  match FindStringSubmatch treePathRe url with
  | Some matches =>
      {| URL := nth 1 matches "" +:+ ".git";
         Branch := nth 2 matches "";
         Path := TrimRight (nth 3 matches "") "/" |}
  | None =>
      match FindStringSubmatch treeBranchRe url with
      | Some matches =>
          {| URL := nth 1 matches "" +:+ ".git";
             Branch := nth 2 matches "";
             Path := "" |}
      | None => {| URL := url +:+ ".git"; Branch := ""; Path := "" |}
      end
  end.

(** The trimming part of [NormalizeURL]: trailing slashes, query string,
    fragment and [.git] suffix are taken off. *)
Definition trimmed (inputURL : string) : string :=
  TrimSuffix (cut_at (cut_at (TrimRight inputURL "/") "?") "#") ".git".

(** The last byte of a string. *)
Fixpoint last_char (s : string) : option ascii :=
  match s with
  | "" => None
  | String c "" => Some c
  | String _ s' => last_char s'
  end.

End StringVocabulary.

(** ** States of the sync orchestrator *)
Section RemovalVocabulary.
Import GoStrings Config Skills Commands.

(** Deleting the keys [ks], first to last. *)
Fixpoint delete_list {A} (ks : list string) (m : gmap string A)
    : gmap string A :=
  match ks with
  | [] => m
  | k :: ks' => delete_list ks' (delete k m)
  end.

(** A skill directory only loses entries. *)
Definition shrinks (sd' sd : gmap string (gmap string node)) : Prop :=
  ∀ path d', sd' !! path = Some d' → ∃ d, sd !! path = Some d ∧ d' ⊆ d.

(** Nothing that [os.Remove] can remove is left at [dir/name]. *)
Definition link_gone (dir name : string)
    (sd : gmap string (gmap string node)) : Prop :=
  ∀ d x, sd !! dir = Some d → d !! name = Some x → removable x = false.

(** The identifiers [removeSkillsWithLinkName] removes from the slice. *)
Fixpoint dup_ids (linkName keepID : string) (l : list Skill)
    : list string :=
  match l with
  | [] => []
  | skill :: rest =>
      if String.eqb (ID skill) keepID then dup_ids linkName keepID rest
      else if negb (String.eqb (GetLinkName (ID skill)) linkName)
           then dup_ids linkName keepID rest
           else ID skill :: dup_ids linkName keepID rest
  end.

(** The identifiers the pruning loop removes from the slice. *)
Fixpoint prune_ids (foundSet : gmap string bool) (l : list Skill)
    : list string :=
  match l with
  | [] => []
  | skill :: rest =>
      if String.eqb (Skills.Type_ skill) "registry"
         && negb (default false (foundSet !! ID skill))
      then ID skill :: prune_ids foundSet rest
      else prune_ids foundSet rest
  end.

(** The name of a directory entry holds no slash. *)
Definition valid_name (n : string) : Prop := Contains n "/" = false.

(** The found skills have names of directory entries. *)
Definition valid_names (found : list (string * node)) : Prop :=
  ∀ n x, (n, x) ∈ found → valid_name n.

End RemovalVocabulary.

Section LoopVocabulary.
Import GoStrings Config Skills Commands.

Variable e : Env.
Variable subPath : string.

(** The identifier, the registry record, and the copy [SyncSkills] makes
    for the found skill [(n, x)]. *)
Definition regid (n : string) : string := "registry:" +:+ n.

(** [registry.AddSkill(id, "registry", commitID, "")] for the commit of the
    skill's path in the clone. *)
Definition stored_of (n : string) : storedSkill :=
  mkStored (pathCommit e (relPath subPath n)) "registry" "".

(** Did [copyDir] run to its end, and what it left at the destination. *)
Definition copy_ok (x : node) : bool := (copyDir (resolve e) x).2.

Definition copy_of (x : node) : node := Dir (copyDir (resolve e) x).1.

(** One pass of the loop [for _, skillDir := range foundSkills]. *)
Definition sync_step (n : string) (x : node) (rp : Report) (w : World)
    : Report * World :=
  sync_loop e subPath [(n, x)] rp w.

(** No other registered identifier has the safe name of [registry:n]. *)
Definition no_clash (n : string) (m : gmap string storedSkill) : Prop :=
  ∀ id, is_Some (m !! id) →
    GetSafeName id = GetSafeName (regid n) → id = regid n.

(** [id] is the identifier of a found skill: [foundSet[id]] is true. *)
Definition is_found (found : list (string * node)) (id : string) : Prop :=
  ∃ n x, (n, x) ∈ found ∧ id = regid n.

(** A state the sync of [found] leaves alone. *)
Definition stable (found : list (string * node)) (w : World) : Prop :=
  (∀ n x id, (n, x) ∈ found → is_Some (load (registry w) !! id) →
     GetLinkName id = n → id = regid n) ∧
  (∀ n x, (n, x) ∈ found → copy_ok x = true →
     load (registry w) !! regid n = Some (stored_of n)) ∧
  (∀ id stored, load (registry w) !! id = Some stored →
     stored_Type stored = "registry" → is_found found id).

(** The directory of every found skill holds the copy of the skill. *)
Definition copies_in_place (found : list (string * node)) (w : World)
    : Prop :=
  ∀ n x, (n, x) ∈ found →
    repo w !! GetRepoPath (regid n) = Some (copy_of x).

(** The part of [SyncSkills] that follows the scan: the copy loop, then
    the pruning loop. *)
Definition sync_found (found : list (string * node)) (w : World)
    : Report * World :=
  let '(rp, w) := sync_loop e subPath found no_report w in
  prune_loop e (foundSet_of found ∅) (GetAllSkills (registry w)) rp w.

End LoopVocabulary.

Section RunVocabulary.
Import GoStrings Config Skills Commands.

Variable e : Env.

(** The skills found in the clone for the registry URL [url]. *)
Definition found_at (url : string) : list (string * node) :=
  scanForSkills (resolve e) (readDir e (Git.Path (Git.NormalizeURL url))).

(** [SyncSkills] from the scan on. *)
Definition sync_scanned (url : string) (w : World) : Report * World :=
  if (length (found_at url) =? 0)%nat then (no_report, w)
  else sync_found e (Git.Path (Git.NormalizeURL url)) (found_at url) w.

(** [SyncSkills] from the clone or pull on. *)
Definition sync_fetched (url : string) (w : World) : Report * World :=
  if negb (cloned w) then
    if cloneOK e
    then sync_scanned url
           {| configRegistry := configRegistry w; cloned := true;
              registry := registry w; repo := repo w;
              skillDirs := skillDirs w |}
    else (no_report, w)
  else if pullOK e then sync_scanned url w else (no_report, w).

End RunVocabulary.

Section ClaimVocabulary.
Import GoStrings Config Skills Commands.

(** The registry file, the skill directories and the links of two
    states are the same. *)
Definition same_files (w w' : World) : Prop :=
  registry w' = registry w ∧ repo w' = repo w ∧
  skillDirs w' = skillDirs w.

(** Every listing of the clone is a directory listing: the names are
    distinct and hold no slash. *)
Definition valid_upstream (e : Env) : Prop :=
  ∀ p entries, readDir e p = Some entries →
    NoDup entries.*1 ∧ ∀ n x, (n, x) ∈ entries → Contains n "/" = false.

(** The identifiers of the data model: [github:<locator>],
    [local:<locator>], and [registry:<name>] for a bare name. *)
Definition well_formed_id (id : string) : Prop :=
  (∃ locator, id = "github:" +:+ locator)
  ∨ (∃ locator, id = "local:" +:+ locator)
  ∨ (∃ name, id = "registry:" +:+ name ∧ Contains name "/" = false).

(** Every registered identifier is one of the data model. *)
Definition well_formed_registry (w : World) : Prop :=
  ∀ id, is_Some (GetSkill id (registry w)) → well_formed_id id.

(** The test [scanForSkills] makes on an entry of the root. *)
Definition is_skill_dir (rs : string → target) (n : string) (x : node)
    : bool :=
  match x with
  | Dir sub =>
      negb (HasPrefix n ".") && stat_ok rs (lookup_entry "SKILL.md" sub)
  | _ => false
  end.

(** A setting taken from the tests of the repository: the clone holds a
    hidden directory, two skills and a directory whose [SKILL.md] is
    nested; the registry holds a GitHub, a local and a registry record of
    the same link name; one project links that name. *)
Definition example_root : list (string * node) :=
  [(".hidden-skill", Dir [("SKILL.md", File "hidden")]);
   ("create-migration", Dir [("SKILL.md", File "migration")]);
   ("skill-a", Dir [("SKILL.md", File "a")]);
   ("skill-b", Dir [("nested", Dir [("SKILL.md", File "nested")])])].

(** The project of the setting, detected for one tool. *)
Definition example_project : Info :=
  mkInfo "cursor" "/work" "/work/.cursor/skills".

(** [git] and the clone of the setting. *)
Definition example_env : Env :=
  {| gitVersionOK := true; promptURL := None; setRegistryOK := true;
     cloneOK := true; pullOK := true;
     readDir := λ p, if String.eqb p "" then Some example_root else None;
     pathCommit := λ p, "commit-of-" +:+ p;
     resolve := λ _, Dangling;
     detectedProjects := [example_project] |}.

(** The registry, the repository directory and the links of the
    setting. *)
Definition example_world : World :=
  {| configRegistry := "https://github.com/org/skills";
     cloned := false;
     registry :=
       AddSkill "registry:create-migration" "registry" "def456" ""
         (AddSkill "local:create-migration" "local" "" ""
            (AddSkill "github:org/repo/skills/create-migration" "github"
               "abc123" "skills/create-migration" (mkFile None 0)));
     repo :=
       <["github__org__repo__skills__create-migration" := Dir []]>
         (<["local__create-migration" := Dir []]>
            (<["registry__create-migration" := Dir []]> ∅));
     skillDirs :=
       {["/work/.cursor/skills" :=
           {["create-migration" :=
               Symlink "github__org__repo__skills__create-migration"]}]}
  |}.

(** A setting outside the data model: the registry holds [registry:a/b],
    whose locator is no bare name, and the clone holds the skill [a__b]; the
    safe name of both identifiers is [registry__a__b]. *)
Definition clash_env : Env :=
  {| gitVersionOK := true; promptURL := None; setRegistryOK := true;
     cloneOK := true; pullOK := true;
     readDir := λ p, if String.eqb p ""
                     then Some [("a__b", Dir [("SKILL.md", File "ab")])]
                     else None;
     pathCommit := λ p, "commit-of-" +:+ p;
     resolve := λ _, Dangling;
     detectedProjects := [] |}.

(** The state of that setting. *)
Definition clash_world : World :=
  {| configRegistry := "https://github.com/org/skills";
     cloned := true;
     registry := AddSkill "registry:a/b" "registry" "abc123" ""
                   (mkFile None 0);
     repo := ∅;
     skillDirs := ∅ |}.

End ClaimVocabulary.

(** * Further parts of the program *)

(** ** Package [git]: [CheckGitVersion] *)
Module GitVersion.
Import GoStrings Regexp.

(** [\d] *)
Definition digit (c : ascii) : bool :=
  (48 <=? nat_of_ascii c)%nat && (nat_of_ascii c <=? 57)%nat.

(** [git version (\d+)\.(\d+)] *)
Definition versionRe : regex :=
  Seq (Lit "git version ")
  (Seq (Group 1 (ClassPlus digit))
  (Seq (Lit ".") (Group 2 (ClassPlus digit)))).

(** [re.FindStringSubmatch(s)] for an expression without anchors: the
    leftmost match.  The match is tried at the start of [s], then one byte
    further, and so on; element 0 is the text matched. *)
Fixpoint find_from (r : regex) (groups : nat) (s : string)
    : option (list string) :=
  match exec r s (replicate (S groups) "")
          (λ rest caps, Some (<[O := consumed s rest]> caps)) with
  | Some m => Some m
  | None =>
      match s with
      | "" => None
      | String _ s' => find_from r groups s'
      end
  end.

(** The number a string of decimal digits writes. *)
Fixpoint decimal (acc : Z) (s : string) : Z :=
  match s with
  | "" => acc
  | String c s' => decimal (10 * acc + (Z.of_nat (nat_of_ascii c) - 48)) s'
  end.

(** The largest [int] (64 bits). *)
Definition maxInt : Z := 2 ^ 63 - 1.

(** [n, _ := strconv.Atoi(s)] for a string of decimal digits, as the
    groups of the expression are: a number that does not fit is returned
    as the largest [int], with an error that the caller drops. *)
Definition Atoi (s : string) : Z := Z.min (decimal 0 s) maxInt.

(** What [CheckGitVersion] returns: [nil], or one of its three errors. *)
Inductive version_error : Type :=
| NotInstalled                     (* git is not installed or not in PATH *)
| Unparsable (out : string)        (* could not parse git version from *)
| TooOld (major minor : Z).        (* git version must be >= 2.25 *)

(** [CheckGitVersion] ensures git >= 2.25 is installed.  [out] is the
    output of [git --version], [None] when the command fails. *)
Definition CheckGitVersion (out : option string) : option version_error :=
  match out with
  | None => Some NotInstalled
  | Some out =>
      match find_from versionRe 2 out with
      | None => Some (Unparsable out)
      | Some matches =>
          let major := Atoi (nth 1 matches "") in
          let minor := Atoi (nth 2 matches "") in
          if (major <? 2) || ((major =? 2) && (minor <? 25))
          then Some (TooOld major minor)
          else None
      end
  end.

End GitVersion.

(** ** Package [project]: detection of the AI tools of a directory

  [filepath.Join], [filepath.Dir] and the test [os.Stat(parentDir)] are
  inputs of the detector. *)
Module Project.
Import Commands.

(** [config.AIToolConfig] defines an AI tool type and its possible skill
    directory paths. *)
Record AIToolConfig := mkTool {
  Type_ : string;
  SkillDirs : list string
}.

(** [DefaultAITools] is the built-in list of supported AI tool
    configurations. *)
Definition DefaultAITools : list AIToolConfig :=
  [mkTool "antigravity"
     [".gemini/antigravity/global_skills/skills"; ".agent/skills"];
   mkTool "github" [".copilot/skills"; ".github/skills"];
   mkTool "cursor" [".cursor/skills"];
   mkTool "claude" [".claude/skills"];
   mkTool "codex" [".codex/skills"; ".agents/skills"]].

(** [cm.GetAITools()] returns user-configured AI tools, or nil if not
    configured.  [cfgAITools] is the field [aiTools] of the configuration
    file, [None] when the file cannot be read or does not parse. *)
Definition GetAITools (cfgAITools : option (list AIToolConfig))
    : option (list AIToolConfig) :=
  match cfgAITools with
  | None => None
  | Some tools => if (0 <? length tools)%nat then Some tools else None
  end.

Record Detector := mkDetector {
  cwd : string;
  aiTools : list AIToolConfig
}.

(** [NewDetector(cwd)]; [getwd] is the result of [os.Getwd()]. *)
Definition NewDetector (getwd : string)
    (cfgAITools : option (list AIToolConfig)) (cwd : string) : Detector :=
  let cwd := if String.eqb cwd "" then getwd else cwd in
  let aiTools :=
    match GetAITools cfgAITools with
    | Some cfgTools => cfgTools
    | None => DefaultAITools
    end in
  {| cwd := cwd; aiTools := aiTools |}.

Section Detect.
Variable filepath_Join : string → string → string.
Variable filepath_Dir : string → string.
Variable stat : string → bool.       (* _, err := os.Stat(p); err == nil *)

(** The inner loop of [DetectAll] over the skill directories of one
    tool: the first one whose parent directory exists. *)
Fixpoint detect_tool (d : Detector) (toolType : string)
    (skillDirs : list string) : option Info :=
  match skillDirs with
  | [] => None
  | skillDir :: rest =>
      let fullSkillDir := filepath_Join (cwd d) skillDir in
      let parentDir := filepath_Dir fullSkillDir in
      if stat parentDir
      then Some {| Commands.Type_ := toolType; Root := cwd d;
                   SkillDir := fullSkillDir |}
      else detect_tool d toolType rest
  end.

(** The loop of [DetectAll] over the tools. *)
Fixpoint detect_tools (d : Detector) (tools : list AIToolConfig)
    : list Info :=
  match tools with
  | [] => []
  | tool :: rest =>
      match detect_tool d (Type_ tool) (SkillDirs tool) with
      | Some p => p :: detect_tools d rest
      | None => detect_tools d rest
      end
  end.

(** [DetectAll] returns all detected AI project types in the directory. *)
Definition DetectAll (d : Detector) : list Info :=
  detect_tools d (aiTools d).

(** [Detect] returns the first detected AI project type. *)
Definition Detect (d : Detector) : Info :=
  match DetectAll d with
  | p :: _ => p
  | [] => {| Commands.Type_ := "unknown"; Root := cwd d; SkillDir := "" |}
  end.

End Detect.

End Project.

(** ** Package [commands]: linking skills into a project (link.go)

  The skill directory of a project is the map of [World]; the path
  [filepath.Join(SkillDir, linkName)] is the entry named [linkName], for a
  link name that names an entry (not empty, not [.] or [..]).
  [os.Symlink] into an existing directory succeeds where no entry has the
  name; the branch for Windows, which runs [mklink /J], is left out. *)
Module Link.
Import GoStrings Config Skills Commands.

(** [os.MkdirAll(dir, 0755)] *)
Definition MkdirAll (dir : string) (w : World) : World :=
  match skillDirs w !! dir with
  | Some _ => w
  | None => set_skillDirs (<[dir := ∅]>) w
  end.

(** [_, err := os.Lstat(filepath.Join(dir, name)); err == nil] *)
Definition lstat (dir name : string) (w : World) : bool :=
  match skillDirs w !! dir with
  | None => false
  | Some d => bool_decide (is_Some (d !! name))
  end.

(** [os.Remove(filepath.Join(dir, name))], the error dropped. *)
Definition Remove (dir name : string) (w : World) : World :=
  match skillDirs w !! dir with
  | None => w
  | Some d =>
      match d !! name with
      | None => w
      | Some x =>
          if removable x
          then set_skillDirs (<[dir := delete name d]>) w
          else w
      end
  end.

(** The order of [os.ReadDir]: by file name. *)
Definition by_name (a b : string * node) : Prop := String.le a.1 b.1.

Global Instance by_name_dec : RelDecision by_name.
Proof. intros a b. unfold by_name. apply _. Defined.

(** [os.ReadDir(dir)], [None] when the directory does not exist. *)
Definition ReadDir (dir : string) (w : World)
    : option (list (string * node)) :=
  match skillDirs w !! dir with
  | None => None
  | Some d => Some (merge_sort by_name (map_to_list d))
  end.

Section Link.
Variable filepath_Join : string → string → string.

(** [linkSkillToProject] creates a symlink from the global repo to the
    project. *)
Definition linkSkillToProject (skillID : string) (projectInfo : Info)
    (w : World) : World :=
  match GetSkill skillID (registry w) with
  | None => w
  | Some skill =>
      let w := MkdirAll (SkillDir projectInfo) w in
      let linkName := GetLinkName (ID skill) in
      let repoPath := GetRepoPath (ID skill) in
      let targetPath :=
        if negb (String.eqb (Path skill) "")
        then filepath_Join repoPath (Path skill)
        else repoPath in
      if lstat (SkillDir projectInfo) linkName w then w  (* already linked *)
      else
        set_skillDirs
          (λ sd, match sd !! SkillDir projectInfo with
                 | Some d =>
                     <[SkillDir projectInfo :=
                         <[linkName := Symlink targetPath]> d]> sd
                 | None => sd
                 end) w
  end.

(** [unlinkSkillFromProject] removes a symlink. *)
Definition unlinkSkillFromProject (skillID : string) (projectInfo : Info)
    (w : World) : World :=
  let linkName := GetLinkName skillID in
  if negb (lstat (SkillDir projectInfo) linkName w) then w
  else Remove (SkillDir projectInfo) linkName w.

(** The loop of [getLinkedSkills]. *)
Fixpoint getLinkedSkills_loop (allSkills : list Skill) (skillDir : string)
    (w : World) (linked : gmap string bool) : gmap string bool :=
  match allSkills with
  | [] => linked
  | skill :: rest =>
      let linkName := GetLinkName (ID skill) in
      if lstat skillDir linkName w
      then getLinkedSkills_loop rest skillDir w (<[ID skill := true]> linked)
      else getLinkedSkills_loop rest skillDir w linked
  end.

Definition getLinkedSkills (allSkills : list Skill) (skillDir : string)
    (w : World) : gmap string bool :=
  getLinkedSkills_loop allSkills skillDir w ∅.

(** The loop of [findBrokenLinks] over the entries read.  [rs] gives what
    [os.Stat] finds at the target of a link. *)
Fixpoint broken_entries (rs : string → target)
    (entries : list (string * node)) : list string :=
  match entries with
  | [] => []
  | (name, x) :: rest =>
      match x with
      | Symlink t =>
          match rs t with
          | Dangling => name :: broken_entries rs rest
          | _ => broken_entries rs rest
          end
      | _ => broken_entries rs rest
      end
  end.

Definition findBrokenLinks (rs : string → target) (skillDir : string)
    (w : World) : list string :=
  match ReadDir skillDir w with
  | None => []
  | Some entries => broken_entries rs entries
  end.

(** The loop of [findOtherSkills] over the entries read. *)
Fixpoint other_entries (rs : string → target)
    (entries : list (string * node)) : list string :=
  match entries with
  | [] => []
  | (name, x) :: rest =>
      match x with
      | Dir sub =>
          if stat_ok rs (lookup_entry "SKILL.md" sub)
          then name :: other_entries rs rest
          else other_entries rs rest
      | _ => other_entries rs rest
      end
  end.

Definition findOtherSkills (rs : string → target) (skillDir : string)
    (w : World) : list string :=
  match ReadDir skillDir w with
  | None => []
  | Some entries => other_entries rs entries
  end.

(** In [LinkToProject]: [for _, link := range brokenLinks {
    os.Remove(filepath.Join(selectedProject.SkillDir, link)) }] *)
Fixpoint removeBrokenLinks (brokenLinks : list string) (skillDir : string)
    (w : World) : World :=
  match brokenLinks with
  | [] => w
  | link :: rest => removeBrokenLinks rest skillDir (Remove skillDir link w)
  end.

(** In [LinkToProject]: [for _, id := range selected {
    selectedSet[id] = true }] *)
Fixpoint selectedSet_of (selected : list string)
    (selectedSet : gmap string bool) : gmap string bool :=
  match selected with
  | [] => selectedSet
  | id :: rest => selectedSet_of rest (<[id := true]> selectedSet)
  end.

(** In [LinkToProject]: the loop that links and unlinks the skills until
    the links are the selection; the result is the number of changes and
    the state. *)
Fixpoint applySelection (allSkills : list Skill)
    (linkedSkills selectedSet : gmap string bool) (p : Info)
    (changes : nat) (w : World) : nat * World :=
  match allSkills with
  | [] => (changes, w)
  | skill :: rest =>
      let isLinked := default false (linkedSkills !! ID skill) in
      let shouldBeLinked := default false (selectedSet !! ID skill) in
      if negb isLinked && shouldBeLinked then
        applySelection rest linkedSkills selectedSet p (S changes)
          (linkSkillToProject (ID skill) p w)
      else if isLinked && negb shouldBeLinked then
        applySelection rest linkedSkills selectedSet p (S changes)
          (unlinkSkillFromProject (ID skill) p w)
      else applySelection rest linkedSkills selectedSet p changes w
  end.

End Link.

End Link.

(** ** Package [commands]: identifiers of GitHub skills (add.go, manage.go) *)
Module Manage.
Import GoStrings Config Skills.

(** In [addSingleGitHubSkill]: [id := "github:" + userRepo;
    if gitInfo.Path != "" { id += "/" + gitInfo.Path }] *)
Definition githubID (userRepo path : string) : string :=
  let id := "github:" +:+ userRepo in
  if negb (String.eqb path "") then id +:+ "/" +:+ path else id.

(** What the first lines of [checkForUpdate] yield. *)
Inductive repo_lookup : Type :=
| NoRepo                      (* len(parts) < 2: return nil *)
| OutOfRange                  (* the slice expression panics *)
| UserRepo (userRepo : string).

(** In [checkForUpdate]: the repository [user/repo] of a skill, taken
    from its identifier and its path.  [repoPath[:n]] panics for a
    negative [n]. *)
Definition userRepoOf (skill : Skill) : repo_lookup :=
  let parts := SplitN2 (ID skill) ":" in
  if (length parts <? 2)%nat then NoRepo
  else
    let repoPath := nth 1 parts "" in
    if negb (String.eqb (Path skill) "") && HasSuffix repoPath (Path skill)
    then
      let n := Z.of_nat (len repoPath) - Z.of_nat (len (Path skill)) - 1 in
      if n <? 0 then OutOfRange
      else UserRepo (slice_to repoPath (Z.to_nat n))
    else UserRepo repoPath.

End Manage.

(** ** Trees *)
Section TreeVocabulary.
Import Commands.

(** No symbolic link anywhere in a tree. *)
Fixpoint no_symlink (x : node) : bool :=
  match x with
  | File _ => true
  | Symlink _ => false
  | Dir entries =>
      (fix all (es : list (string * node)) : bool :=
         match es with
         | [] => true
         | (_, y) :: es' => no_symlink y && all es'
         end) entries
  end.

(** Every symbolic link of a tree leads to a file. *)
Fixpoint links_to_files (rs : string → target) (x : node) : bool :=
  match x with
  | File _ => true
  | Symlink t => match rs t with ToFile _ => true | _ => false end
  | Dir entries =>
      (fix all (es : list (string * node)) : bool :=
         match es with
         | [] => true
         | (_, y) :: es' => links_to_files rs y && all es'
         end) entries
  end.

(** The number of nodes of a tree. *)
Fixpoint node_size (x : node) : nat :=
  match x with
  | Dir entries =>
      S ((fix sum (es : list (string * node)) : nat :=
            match es with
            | [] => 0%nat
            | (_, y) :: es' => (node_size y + sum es')%nat
            end) entries)
  | _ => 1%nat
  end.

End TreeVocabulary.

(** ** Links *)
Section LinkVocabulary.
Import GoStrings Config Skills Commands.

(** A link name that names an entry of the skill directory:
    [filepath.Join(dir, name)] is then the path of the entry [name] of
    [dir], not [dir] itself or its parent. *)
Definition proper_name (name : string) : Prop :=
  name ≠ "" ∧ name ≠ "." ∧ name ≠ "..".

(** The link name of every registered skill names an entry. *)
Definition proper_links (w : World) : Prop :=
  ∀ id, is_Some (GetSkill id (registry w)) → proper_name (GetLinkName id).

(** The entry of a skill directory, if the directory and the entry
    exist. *)
Definition entry (dir name : string) (w : World) : option node :=
  match skillDirs w !! dir with
  | None => None
  | Some d => d !! name
  end.

(** A project with two registered skills, one of them linked. *)
Definition linked_world : World :=
  {| configRegistry := "";
     cloned := false;
     registry :=
       AddSkill "local:figma-mcp" "local" "" ""
         (AddSkill "github:user/repo/my-skill" "github" "abc123" ""
            (mkFile None 0));
     repo :=
       <["local__figma-mcp" := Dir [("SKILL.md", File "figma")]]>
         (<["github__user__repo__my-skill" :=
              Dir [("SKILL.md", File "mine")]]> ∅);
     skillDirs :=
       {["/work/.cursor/skills" :=
           {["my-skill" := Symlink "github__user__repo__my-skill"]}]}
  |}.

End LinkVocabulary.

(** ** Reports and link directories of a sync *)
Section ReportVocabulary.
Import GoStrings Config Skills Commands.

(** Between two states of the skill directories, entries were only taken
    out, and only out of the directories [dirs]: no directory appeared or
    disappeared, no entry was added or changed, the other directories
    have the entries they had, and an entry that [os.Remove] cannot
    remove (a directory that is not empty) is still there. *)
Definition only_unlinks (dirs : list string)
    (sd' sd : gmap string (gmap string node)) : Prop :=
  (∀ dir, is_Some (sd' !! dir) ↔ is_Some (sd !! dir)) ∧
  (∀ dir d d', sd !! dir = Some d → sd' !! dir = Some d' → d' ⊆ d) ∧
  (∀ dir, dir ∉ dirs → sd' !! dir = sd !! dir) ∧
  (∀ dir d name x, sd !! dir = Some d → d !! name = Some x →
     removable x = false →
     ∃ d', sd' !! dir = Some d' ∧ d' !! name = Some x).

(** What a sync does with a found skill. *)
Inductive change : Type := Added | Updated | Unchanged | Failed.

Global Instance change_eq_dec : EqDecision change.
Proof. solve_decision. Defined.

(** The setting of the tests with one more record: the skill
    [registry:retired], which the clone no longer holds. *)
Definition stale_world : World :=
  set_repo (<["registry__retired" := Dir [("SKILL.md", File "old")]]>)
    (set_registry (AddSkill "registry:retired" "registry" "0a1b2c" "")
       example_world).

Variable e : Env.
Variable subPath : string.
Variable r : RegistryFile.

(** The change for the found skill [(n, x)], from the registry [r] the
    sync starts with: the copy fails, or the skill is new, or its commit
    differs from the one recorded, or it is the same. *)
Definition change_of (nx : string * node) : change :=
  if copy_ok e nx.2 then
    match GetSkill (regid nx.1) r with
    | None => Added
    | Some ex =>
        if negb (String.eqb (CommitID ex)
                   (pathCommit e (relPath subPath nx.1)))
        then Updated else Unchanged
    end
  else Failed.

(** The number of found skills with the change [c]. *)
Definition count_changes (c : change) (found : list (string * node))
    : nat :=
  length (filter (λ nx, change_of nx = c) found).

End ReportVocabulary.

(** * Properties *)

(** ** Strings *)
Section StringFacts.
Import GoStrings.
Local Arguments String.append : simpl nomatch.

Lemma app_nil_r (s : string) : s +:+ "" = s.
Proof. induction s as [|c s IH]; simpl; [done|by rewrite IH]. Qed.

Lemma app_assoc (a b c : string) : (a +:+ b) +:+ c = a +:+ b +:+ c.
Proof. induction a as [|x a IH]; simpl; [done|by rewrite IH]. Qed.

Lemma len_app (a b : string) : len (a +:+ b) = (len a + len b)%nat.
Proof. induction a as [|x a IH]; simpl; [done|]. unfold len in *. simpl. lia. Qed.

Lemma slice_to_app (a b : string) : slice_to (a +:+ b) (len a) = a.
Proof. induction a as [|x a IH]; simpl; [by destruct b|]. by rewrite IH. Qed.

Lemma slice_from_app (a b : string) : slice_from (a +:+ b) (len a) = b.
Proof. induction a as [|x a IH]; simpl; [by destruct b|done]. Qed.

Lemma slice_from_app_plus (a b : string) (n : nat) :
  slice_from (a +:+ b) (len a + n) = slice_from b n.
Proof. induction a as [|x a IH]; simpl; [done|apply IH]. Qed.

Lemma slice_to_from (s : string) (n : nat) :
  slice_to s n +:+ slice_from s n = s.
Proof.
  revert n. induction s as [|c s IH]; intros [|n]; simpl; try done.
  by rewrite IH.
Qed.

Lemma HasPrefix_app (a b : string) : HasPrefix (a +:+ b) a = true.
Proof.
  induction a as [|x a IH]; simpl; [done|].
  by rewrite Ascii.eqb_refl, IH.
Qed.

Lemma HasPrefix_inv (s p : string) :
  HasPrefix s p = true → ∃ t, s = p +:+ t.
Proof.
  revert s. induction p as [|x p IH]; intros s H; simpl in *.
  - by exists s.
  - destruct s as [|c s]; [done|].
    apply andb_true_iff in H as [Hc Hp].
    apply Ascii.eqb_eq in Hc as ->.
    destruct (IH _ Hp) as [t ->]. by exists t.
Qed.

Lemma TrimSuffix_app (a suffix : string) :
  TrimSuffix (a +:+ suffix) suffix = a.
Proof.
  unfold TrimSuffix, HasSuffix. rewrite len_app.
  replace (len a + len suffix - len suffix)%nat with (len a) by lia.
  rewrite slice_from_app, String.eqb_refl, slice_to_app.
  by destruct (Nat.leb_spec (len suffix) (len a + len suffix)); [|lia].
Qed.

Lemma TrimRight_app_keep (a b cutset : string) :
  b ≠ "" → TrimRight b cutset = b →
  TrimRight (a +:+ b) cutset = a +:+ b.
Proof.
  intros Hb Ht. induction a as [|x a IH]; simpl; [done|].
  rewrite IH. destruct (a +:+ b) eqn:E; [|done].
  destruct a; simpl in E; [by subst|done].
Qed.

Lemma count_char_app c a b :
  count_char c (a +:+ b) = (count_char c a + count_char c b)%nat.
Proof. induction a as [|x a IH]; simpl; [done|]. rewrite IH. lia. Qed.

Lemma count_char_slice_to c s n :
  count_char c s = 0%nat → count_char c (slice_to s n) = 0%nat.
Proof.
  revert n. induction s as [|d s IH]; intros [|n] H; simpl in *; try done.
  destruct (Ascii.eqb d c); [done|]. by apply IH.
Qed.

Lemma index_from_char_None i c s :
  index_from i s (String c "") = None ↔ count_char c s = 0%nat.
Proof.
  revert i. induction s as [|d s IH]; intros i; simpl; [done|].
  rewrite andb_true_r. destruct (Ascii.eqb d c); simpl; [done|apply IH].
Qed.

Lemma index_from_char_Some i j c s :
  index_from i s (String c "") = Some j →
  (i ≤ j)%nat ∧ count_char c (slice_to s (j - i)) = 0%nat.
Proof.
  revert i. induction s as [|d s IH]; intros i; simpl; [done|].
  rewrite andb_true_r. destruct (Ascii.eqb d c) eqn:E; simpl.
  - intros [= <-]. by rewrite Nat.sub_diag.
  - intros H. destruct (IH _ H) as [Hle Hc]. split; [lia|].
    replace (j - i)%nat with (S (j - S i)) by lia. simpl. by rewrite E.
Qed.

Lemma Index_char_free c s :
  count_char c s = 0%nat → Index s (String c "") = -1.
Proof.
  intros H. unfold Index.
  by apply (index_from_char_None 0) in H as ->.
Qed.

End StringFacts.

(** ** The regular expressions of [NormalizeURL] *)
Section RegexpFacts.
Import GoStrings Regexp Git.
Local Arguments String.append : simpl nomatch.

Lemma not_slash_count w :
  all_chars not_slash w = true → count_char "/" w = 0%nat.
Proof.
  induction w as [|c w IH]; simpl; [done|].
  intros [Hc Hw]%andb_true_iff. unfold not_slash in Hc.
  apply negb_true_iff in Hc as ->. by apply IH.
Qed.

Lemma strip_Some text s s' : strip text s = Some s' → s = text +:+ s'.
Proof.
  revert s. induction text as [|p text IH]; intros s; simpl.
  - by intros [= ->].
  - destruct s as [|c s]; [done|].
    destruct (Ascii.eqb c p) eqn:E; [|done].
    apply Ascii.eqb_eq in E as ->. by intros ->%IH.
Qed.

Lemma star_Some {A} cls s (k : string → option A) r :
  star cls s k = Some r →
  ∃ w s', s = w +:+ s' ∧ all_chars cls w = true ∧ k s' = Some r.
Proof.
  induction s as [|c s IH]; simpl.
  - intros H. by exists "", "".
  - destruct (cls c) eqn:Hc.
    + destruct (star cls s k) as [r'|] eqn:E.
      * intros [= ->]. destruct (IH eq_refl) as (w & s' & -> & Hw & Hk).
        exists (String c w), s'. simpl. by rewrite Hc, Hw.
      * intros H. by exists "", (String c s).
    + intros H. by exists "", (String c s).
Qed.

Lemma plus_Some {A} cls s (k : string → option A) r :
  plus cls s k = Some r →
  ∃ w s', s = w +:+ s' ∧ w ≠ "" ∧ all_chars cls w = true ∧ k s' = Some r.
Proof.
  destruct s as [|c s]; simpl; [done|].
  destruct (cls c) eqn:Hc; [|done].
  intros (w & s' & -> & Hw & Hk)%star_Some.
  exists (String c w), s'. simpl. by rewrite Hc, Hw.
Qed.

Lemma consumed_app a b : consumed (a +:+ b) b = a.
Proof.
  unfold consumed. rewrite len_app.
  replace (len a + len b - len b)%nat with (len a) by lia.
  apply slice_to_app.
Qed.

Lemma exec_Seq r1 r2 s caps k :
  exec (Seq r1 r2) s caps k
  = exec r1 s caps (λ s1 caps1, exec r2 s1 caps1 k).
Proof. reflexivity. Qed.

Lemma repo_group_Some s caps k m :
  exec repo_group s caps k = Some m →
  ∃ o r s', o ≠ "" ∧ r ≠ "" ∧
    all_chars not_slash o = true ∧ all_chars not_slash r = true ∧
    s = repo_url o r +:+ s' ∧
    k s' (<[1%nat := repo_url o r]> caps) = Some m.
Proof.
  unfold repo_group. cbn [exec]. intros H.
  destruct (strip "https://github.com/" s) as [s0|] eqn:E0; [|done].
  apply strip_Some in E0.
  apply plus_Some in H as (o & s1 & -> & Ho & Hos & H).
  destruct (strip "/" s1) as [s2|] eqn:E1; [|done].
  apply strip_Some in E1 as ->.
  apply plus_Some in H as (r & s3 & -> & Hr & Hrs & H).
  exists o, r, s3. repeat split; try done.
  - subst s. unfold repo_url. by rewrite !app_assoc.
  - assert (s = repo_url o r +:+ s3) as Hs.
    { subst s. unfold repo_url. by rewrite !app_assoc. }
    by rewrite Hs, consumed_app in H.
Qed.

Lemma treePathRe_Some s m :
  FindStringSubmatch treePathRe s = Some m →
  ∃ o r b p, o ≠ "" ∧ r ≠ "" ∧
    all_chars not_slash o = true ∧ all_chars not_slash r = true ∧
    all_chars not_slash b = true ∧
    s = repo_url o r +:+ "/tree/" +:+ b +:+ "/" +:+ p ∧
    m = [s; repo_url o r; b; p].
Proof.
  unfold FindStringSubmatch, treePathRe. cbn [body groups].
  fold repo_group. rewrite exec_Seq. intros H.
  apply repo_group_Some in H as (o & r & s1 & Ho & Hr & Hos & Hrs & Hs & H).
  cbn [exec] in H.
  destruct (strip "/tree/" s1) as [s2|] eqn:E2; [|done].
  apply strip_Some in E2 as ->.
  apply plus_Some in H as (b & s3 & -> & Hb & Hbs & H).
  destruct (strip "/" s3) as [s4|] eqn:E3; [|done].
  apply strip_Some in E3 as ->.
  apply plus_Some in H as (p & s5 & E5 & Hp & Hps & H).
  destruct s5; [|done]. rewrite app_nil_r in E5. subst s4.
  exists o, r, b, p. repeat split; try done.
  injection H as <-. rewrite !consumed_app.
  replace (consumed p "") with p.
  - done.
  - by rewrite <- (app_nil_r p) at 2; rewrite consumed_app.
Qed.

Lemma treeBranchRe_Some s m :
  FindStringSubmatch treeBranchRe s = Some m →
  ∃ o r b, o ≠ "" ∧ r ≠ "" ∧
    all_chars not_slash o = true ∧ all_chars not_slash r = true ∧
    all_chars not_slash b = true ∧
    s = repo_url o r +:+ "/tree/" +:+ b ∧
    m = [s; repo_url o r; b].
Proof.
  unfold FindStringSubmatch, treeBranchRe. cbn [body groups].
  fold repo_group. rewrite exec_Seq. intros H.
  apply repo_group_Some in H as (o & r & s1 & Ho & Hr & Hos & Hrs & Hs & H).
  cbn [exec] in H.
  destruct (strip "/tree/" s1) as [s2|] eqn:E2; [|done].
  apply strip_Some in E2 as ->.
  apply plus_Some in H as (b & s3 & E3 & Hb & Hbs & H).
  destruct s3; [|done]. rewrite app_nil_r in E3. subst s2.
  exists o, r, b. repeat split; try done.
  injection H as <-.
  replace (consumed b "") with b.
  - done.
  - by rewrite <- (app_nil_r b) at 2; rewrite consumed_app.
Qed.

Lemma repo_url_slashes o r :
  all_chars not_slash o = true → all_chars not_slash r = true →
  count_char "/" (repo_url o r) = 4%nat.
Proof.
  intros Ho Hr. unfold repo_url. rewrite !count_char_app.
  by rewrite (not_slash_count o), (not_slash_count r).
Qed.

(** A bare repository URL matches neither expression. *)
Lemma repo_url_no_tree o r :
  all_chars not_slash o = true → all_chars not_slash r = true →
  FindStringSubmatch treePathRe (repo_url o r) = None ∧
  FindStringSubmatch treeBranchRe (repo_url o r) = None.
Proof.
  intros Ho Hr. pose proof (repo_url_slashes o r Ho Hr) as Hn. split.
  - destruct (FindStringSubmatch _ _) as [m|] eqn:E; [|done].
    apply treePathRe_Some in E as (o' & r' & b & p & _ & _ & Ho' & Hr' & _ & E & _).
    rewrite E, !count_char_app, (repo_url_slashes o' r') in Hn by done.
    simpl in Hn. lia.
  - destruct (FindStringSubmatch _ _) as [m|] eqn:E; [|done].
    apply treeBranchRe_Some in E as (o' & r' & b & _ & _ & Ho' & Hr' & _ & E & _).
    rewrite E, !count_char_app, (repo_url_slashes o' r') in Hn by done.
    simpl in Hn. lia.
Qed.

(** The other direction: a repetition takes the whole run of its class
    when what follows the run is accepted. *)
Lemma strip_app text s : strip text (text +:+ s) = Some s.
Proof.
  induction text as [|p text IH]; simpl; [done|].
  by rewrite Ascii.eqb_refl.
Qed.

Lemma star_all {A} cls w s' (k : string → option A) r :
  all_chars cls w = true →
  (∀ c t, s' = String c t → cls c = false) →
  k s' = Some r → star cls (w +:+ s') k = Some r.
Proof.
  intros Hw Hs Hk. induction w as [|c w IH]; simpl in *.
  - destruct s' as [|c t]; simpl; [done|]. by rewrite (Hs c t eq_refl).
  - apply andb_true_iff in Hw as [-> Hw]. by rewrite IH.
Qed.

Lemma plus_all {A} cls w s' (k : string → option A) r :
  w ≠ "" → all_chars cls w = true →
  (∀ c t, s' = String c t → cls c = false) →
  k s' = Some r → plus cls (w +:+ s') k = Some r.
Proof.
  intros Hne Hw Hs Hk. destruct w as [|c w]; [done|]. simpl in *.
  apply andb_true_iff in Hw as [-> Hw]. by apply star_all.
Qed.

Lemma consumed_all s : consumed s "" = s.
Proof. by rewrite <- (app_nil_r s) at 1; rewrite consumed_app. Qed.

(** [<repo>/tree/<branch>] matches the second expression, and the groups
    are the repository URL and the branch as it is written. *)
Lemma treeBranchRe_match o r b :
  o ≠ "" → r ≠ "" → b ≠ "" →
  all_chars not_slash o = true → all_chars not_slash r = true →
  all_chars not_slash b = true →
  let s := repo_url o r +:+ "/tree/" +:+ b in
  FindStringSubmatch treePathRe s = None ∧
  FindStringSubmatch treeBranchRe s = Some [s; repo_url o r; b].
Proof.
  intros Ho Hr Hb Hos Hrs Hbs s. split.
  - destruct (FindStringSubmatch _ _) as [m|] eqn:E; [|done].
    apply treePathRe_Some in E
      as (o' & r' & b' & p & _ & _ & Ho' & Hr' & Hb' & E & _).
    apply (f_equal (count_char "/")) in E. subst s.
    rewrite !count_char_app, !repo_url_slashes in E by done.
    rewrite (not_slash_count b) in E by done. simpl in E. lia.
  - unfold FindStringSubmatch, treeBranchRe. cbn [body groups exec].
    assert (s = "https://github.com/" +:+ o +:+ "/" +:+ r +:+ "/tree/" +:+ b)
      as Hs by (subst s; unfold repo_url; by rewrite !app_assoc).
    rewrite Hs at 1. rewrite strip_app.
    apply plus_all; [done..| |].
    { intros c t [= <- _]. done. }
    change ("/" +:+ r +:+ "/tree/" +:+ b)
      with ("/" +:+ (r +:+ "/tree/" +:+ b)).
    rewrite strip_app. apply plus_all; [done..| |].
    { intros c t [= <- _]. done. }
    rewrite strip_app.
    rewrite <- (app_nil_r b) at 1. apply plus_all; [done..| |].
    { intros c t [=]. }
    rewrite consumed_all. fold s. unfold s at 2. by rewrite consumed_app.
Qed.

End RegexpFacts.

(** ** [NormalizeURL] *)
Section NormalizeURLFacts.
Import GoStrings Regexp Git.
Local Arguments String.append : simpl nomatch.

Lemma NormalizeURL_unfold s : NormalizeURL s = parse_trimmed (trimmed s).
Proof. reflexivity. Qed.

Lemma cut_at_free c s : count_char c (cut_at s (String c "")) = 0%nat.
Proof.
  unfold cut_at, Index.
  destruct (index_from 0 s (String c "")) as [j|] eqn:E.
  - apply index_from_char_Some in E as [_ E].
    rewrite Nat.sub_0_r in E.
    replace (Z.of_nat j =? -1) with false by (symmetry; apply Z.eqb_neq; lia).
    simpl. by rewrite Nat2Z.id.
  - simpl. by apply index_from_char_None in E.
Qed.

Lemma cut_at_keeps_free d s sep :
  count_char d s = 0%nat → count_char d (cut_at s sep) = 0%nat.
Proof.
  intros H. unfold cut_at. destruct (negb _); [|done].
  by apply count_char_slice_to.
Qed.

Lemma cut_at_id c s :
  count_char c s = 0%nat → cut_at s (String c "") = s.
Proof. intros H. unfold cut_at. by rewrite Index_char_free. Qed.

Lemma TrimSuffix_keeps_free d s suffix :
  count_char d s = 0%nat → count_char d (TrimSuffix s suffix) = 0%nat.
Proof.
  intros H. unfold TrimSuffix. destruct (HasSuffix _ _); [|done].
  by apply count_char_slice_to.
Qed.

(** What is left after the trimming holds no [?] and no [#]. *)
Lemma trimmed_free s :
  count_char "?" (trimmed s) = 0%nat ∧ count_char "#" (trimmed s) = 0%nat.
Proof.
  unfold trimmed. split; apply TrimSuffix_keeps_free.
  - apply cut_at_keeps_free, cut_at_free.
  - apply cut_at_free.
Qed.

(** Trimming gives back [v] from [v.git]. *)
Lemma trimmed_git v :
  count_char "?" v = 0%nat → count_char "#" v = 0%nat →
  trimmed (v +:+ ".git") = v.
Proof.
  intros Hq Hh. unfold trimmed.
  rewrite TrimRight_app_keep by done.
  rewrite !cut_at_id.
  - apply TrimSuffix_app.
  - rewrite count_char_app, Hq. done.
  - rewrite cut_at_id; rewrite count_char_app; [by rewrite Hh|by rewrite Hq].
Qed.

Lemma parse_trimmed_repo_url o r :
  all_chars not_slash o = true → all_chars not_slash r = true →
  parse_trimmed (repo_url o r)
  = {| URL := repo_url o r +:+ ".git"; Branch := ""; Path := "" |}.
Proof.
  intros Ho Hr. unfold parse_trimmed.
  by destruct (repo_url_no_tree o r Ho Hr) as [-> ->].
Qed.

(** The URL [NormalizeURL] returns is [v.git] for a [v] that the second
    pass trims back to and parses as a plain repository URL. *)
Lemma NormalizeURL_URL_shape s :
  ∃ v, URL (NormalizeURL s) = v +:+ ".git" ∧
       count_char "?" v = 0%nat ∧ count_char "#" v = 0%nat ∧
       parse_trimmed v = {| URL := v +:+ ".git"; Branch := ""; Path := "" |}.
Proof.
  rewrite NormalizeURL_unfold.
  destruct (trimmed_free s) as [Hq Hh]. revert Hq Hh.
  generalize (trimmed s) as u. intros u Hq Hh. unfold parse_trimmed at 1.
  destruct (FindStringSubmatch treePathRe u) as [m|] eqn:E1.
  { apply treePathRe_Some in E1 as (o & r & b & p & _ & _ & Ho & Hr & _ & Hu & ->).
    exists (repo_url o r). cbn [URL nth].
    rewrite Hu, !count_char_app in Hq, Hh.
    split; [done|]. split; [lia|]. split; [lia|].
    by apply parse_trimmed_repo_url. }
  destruct (FindStringSubmatch treeBranchRe u) as [m|] eqn:E2.
  { apply treeBranchRe_Some in E2 as (o & r & b & _ & _ & Ho & Hr & _ & Hu & ->).
    exists (repo_url o r). cbn [URL nth].
    rewrite Hu, !count_char_app in Hq, Hh.
    split; [done|]. split; [lia|]. split; [lia|].
    by apply parse_trimmed_repo_url. }
  exists u. simpl. repeat split; try done.
  unfold parse_trimmed. by rewrite E1, E2.
Qed.

Lemma TrimRight_not_slash b :
  all_chars not_slash b = true → TrimRight b "/" = b.
Proof.
  induction b as [|c b IH]; [done|]. simpl.
  intros [Hc Hb]%andb_true_iff. rewrite IH by done.
  destruct b; [|done]. unfold not_slash in Hc.
  apply negb_true_iff in Hc. by rewrite Hc.
Qed.

(** The branch of a tree URL is returned as it is written, whatever it
    is: no step of [NormalizeURL] decodes it. *)
Lemma NormalizeURL_branch_verbatim o r b :
  o ≠ "" → r ≠ "" → b ≠ "" →
  all_chars not_slash o = true → all_chars not_slash r = true →
  all_chars not_slash b = true →
  let s := repo_url o r +:+ "/tree/" +:+ b in
  count_char "?" s = 0%nat → count_char "#" s = 0%nat →
  HasSuffix s ".git" = false →
  NormalizeURL s
  = {| URL := repo_url o r +:+ ".git"; Branch := b; Path := "" |}.
Proof.
  intros Ho Hr Hb Hos Hrs Hbs s Hq Hh Hg.
  rewrite NormalizeURL_unfold.
  assert (trimmed s = s) as ->.
  { unfold trimmed. subst s. rewrite <- !app_assoc.
    rewrite TrimRight_app_keep by (by try apply TrimRight_not_slash).
    rewrite !app_assoc, !cut_at_id by (by rewrite ?cut_at_id).
    unfold TrimSuffix. by rewrite Hg. }
  unfold parse_trimmed. subst s.
  by destruct (treeBranchRe_match o r b) as [-> ->].
Qed.

(** C1 (as the code behaves): for the tree URL whose branch is written
    [feature%2Fmy-work], [NormalizeURL] returns the repository URL and an
    empty path, and returns the branch as it is written: the text
    [%2F] is not decoded to a slash. *)
Theorem NormalizeURL_encoded_branch_kept :
  NormalizeURL "https://github.com/user/repo/tree/feature%2Fmy-work"
  = {| URL := "https://github.com/user/repo.git";
       Branch := "feature%2Fmy-work";
       Path := "" |}
  ∧ Branch (NormalizeURL
              "https://github.com/user/repo/tree/feature%2Fmy-work")
    ≠ "feature/my-work".
Proof. split; [reflexivity|discriminate]. Qed.

(** C5: for the tree URL with a sub-path, a query string and a fragment,
    [NormalizeURL] drops the query string and the fragment and returns the
    repository URL, the branch [main] and the path [skills/tooling]. *)
Theorem NormalizeURL_tree_path_query_fragment :
  NormalizeURL
    "https://github.com/user/repo/tree/main/skills/tooling?tab=readme#section"
  = {| URL := "https://github.com/user/repo.git";
       Branch := "main";
       Path := "skills/tooling" |}.
Proof. reflexivity. Qed.

(** C6: URL normalisation is idempotent.  For every input [s], normalising
    the URL that [NormalizeURL s] returned gives that URL again, with no
    branch and no path; so on a URL that is already normalised the whole
    result of [NormalizeURL] is a fixed point. *)
Theorem NormalizeURL_idempotent (s : string) :
  let u := URL (NormalizeURL s) in
  URL (NormalizeURL u) = u
  ∧ NormalizeURL u = {| URL := u; Branch := ""; Path := "" |}
  ∧ NormalizeURL (URL (NormalizeURL u)) = NormalizeURL u.
Proof.
  intros u.
  assert (NormalizeURL u = {| URL := u; Branch := ""; Path := "" |}) as H.
  { subst u. destruct (NormalizeURL_URL_shape s) as (v & -> & Hq & Hh & Hv).
    by rewrite NormalizeURL_unfold, trimmed_git. }
  rewrite !H. simpl. by rewrite H.
Qed.

End NormalizeURLFacts.

(** ** Skill identifiers: [GetSafeName], [ParseSafeName], [GetLinkName] *)
Section ConfigFacts.
Import GoStrings Config.
Local Arguments String.append : simpl nomatch.

Lemma index_from_shift i s sub :
  index_from i s sub = (λ k, (i + k)%nat) <$> index_from 0 s sub.
Proof.
  revert i. induction s as [|c s IH]; intros i; simpl.
  - destruct (HasPrefix "" sub); simpl; [f_equal; lia|done].
  - destruct (HasPrefix (String c s) sub); simpl; [f_equal; lia|].
    rewrite (IH (S i)), (IH 1%nat).
    destruct (index_from 0 s sub); simpl; [f_equal; lia|done].
Qed.

Lemma index_from_None_any i j s sub :
  index_from i s sub = None → index_from j s sub = None.
Proof.
  rewrite (index_from_shift i), (index_from_shift j).
  by destruct (index_from 0 s sub).
Qed.

Lemma Contains_false s sub :
  Contains s sub = false ↔ index_from 0 s sub = None.
Proof.
  unfold Contains, Index. destruct (index_from 0 s sub) as [j|]; simpl.
  - replace (Z.of_nat j =? -1) with false by (symmetry; apply Z.eqb_neq; lia).
    done.
  - done.
Qed.

Lemma Contains_char_false s c :
  Contains s (String c "") = false ↔ count_char c s = 0%nat.
Proof. rewrite Contains_false. apply index_from_char_None. Qed.

Lemma index_from_cons_None i c s sub :
  index_from i (String c s) sub = None →
  HasPrefix (String c s) sub = false ∧ index_from 0 s sub = None.
Proof.
  simpl. destruct (HasPrefix (String c s) sub); [done|].
  intros H. split; [done|]. by apply (index_from_None_any (S i)).
Qed.

Lemma HasSuffix_char s c :
  HasSuffix s (String c "")
  = match last_char s with Some d => Ascii.eqb d c | None => false end.
Proof.
  induction s as [|d s IH]; [done|].
  destruct s as [|e s].
  - unfold HasSuffix. simpl. by destruct (Ascii.eqb d c).
  - change (last_char (String d (String e s)))
      with (last_char (String e s)).
    rewrite <- IH. unfold HasSuffix, len. simpl.
    by rewrite !Nat.sub_0_r.
Qed.

Lemma index_char_app i c a t :
  count_char c a = 0%nat →
  index_from i (a +:+ String c t) (String c "") = Some (i + len a)%nat.
Proof.
  revert i. induction a as [|d a IH]; intros i; simpl.
  - intros _. rewrite Ascii.eqb_refl. simpl. f_equal. unfold len. simpl. lia.
  - destruct (Ascii.eqb d c); simpl; [done|]. intros H.
    rewrite IH by done. f_equal. unfold len. simpl. lia.
Qed.

Lemma SplitN2_char a c t :
  count_char c a = 0%nat →
  SplitN2 (a +:+ String c t) (String c "") = [a; t].
Proof.
  intros H. unfold SplitN2, Index. rewrite index_char_app by done.
  cbv zeta. rewrite Nat.add_0_l.
  destruct (Z.ltb_spec (Z.of_nat (len a)) 0); [lia|].
  rewrite Nat2Z.id, slice_to_app, slice_from_app_plus. reflexivity.
Qed.

Lemma index_dunder_app i a t :
  index_from 0 a "__" = None → last_char a ≠ Some "_"%char →
  index_from i (a +:+ "__" +:+ t) "__" = Some (i + len a)%nat.
Proof.
  revert i. induction a as [|c a IH]; intros i Hn Hl.
  - simpl. f_equal. unfold len. simpl. lia.
  - apply index_from_cons_None in Hn as [Hp Hn].
    change (String c a +:+ "__" +:+ t) with (String c (a +:+ "__" +:+ t)).
    assert (HasPrefix (String c (a +:+ "__" +:+ t)) "__" = false) as Hp'.
    { destruct a as [|d a]; simpl in *.
      - destruct (Ascii.eqb_spec c "_"); [by subst|done].
      - done. }
    cbn [index_from]. rewrite Hp'.
    rewrite IH; [f_equal; unfold len; simpl; lia|done|].
    destruct a; [done|]. exact Hl.
Qed.

Lemma SplitN2_dunder a t :
  Contains a "__" = false → HasSuffix a "_" = false →
  SplitN2 (a +:+ "__" +:+ t) "__" = [a; t].
Proof.
  intros Hc%Contains_false Hs. rewrite HasSuffix_char in Hs.
  unfold SplitN2, Index. rewrite index_dunder_app; [|done|].
  - cbv zeta. rewrite Nat.add_0_l.
    destruct (Z.ltb_spec (Z.of_nat (len a)) 0); [lia|].
    rewrite Nat2Z.id, slice_to_app, <- app_assoc.
    replace (len a + len "__")%nat with (len (a +:+ "__"))
      by apply len_app.
    by rewrite slice_from_app.
  - intros E. rewrite E in Hs. done.
Qed.

(** Encoding the slashes of a locator and decoding them again. *)
Lemma ReplaceAll_slash_cons c s :
  ReplaceAll (String c s) "/" "__"
  = if Ascii.eqb c "/" then "__" +:+ ReplaceAll s "/" "__"
    else String c (ReplaceAll s "/" "__").
Proof. unfold ReplaceAll. simpl. by rewrite andb_true_r. Qed.

Lemma ReplaceAll_roundtrip s :
  Contains s "__" = false → Contains s "_/" = false →
  ReplaceAll (ReplaceAll s "/" "__") "__" "/" = s.
Proof.
  rewrite !Contains_false.
  induction s as [|c s IH]; intros H1 H2; [done|].
  apply index_from_cons_None in H1 as [P1 H1].
  apply index_from_cons_None in H2 as [P2 H2].
  specialize (IH H1 H2). rewrite ReplaceAll_slash_cons.
  destruct (Ascii.eqb_spec c "/") as [->|Hc].
  - unfold ReplaceAll in *. simpl. by rewrite IH.
  - unfold ReplaceAll in IH |- *. cbn [replace_loop].
    assert (HasPrefix (String c (replace_loop 0 s "/" "__")) "__" = false)
      as ->; [|by rewrite IH].
    destruct (Ascii.eqb_spec c "_") as [->|Hu]; [|by simpl; destruct (Ascii.eqb_spec c "_")].
    destruct s as [|d s]; [done|].
    fold (ReplaceAll (String d s) "/" "__"). rewrite ReplaceAll_slash_cons.
    simpl in P1, P2. rewrite andb_true_r in P1, P2.
    destruct (Ascii.eqb d "/"); [done|]. simpl. by rewrite P1.
Qed.

Lemma GetSafeName_split source locator :
  Contains source ":" = false →
  GetSafeName (source +:+ ":" +:+ locator)
  = source +:+ "__" +:+ ReplaceAll locator "/" "__".
Proof.
  intros H%Contains_char_false. unfold GetSafeName.
  change (":" +:+ locator) with (String ":" locator).
  by rewrite SplitN2_char.
Qed.

Lemma last_index_free i c s :
  count_char c s = 0%nat → last_index_from i s (String c "") = None.
Proof.
  revert i. induction s as [|d s IH]; intros i; simpl; [done|].
  rewrite andb_true_r. destruct (Ascii.eqb d c); simpl; [done|].
  intros H. by rewrite IH.
Qed.

Lemma last_index_app i c a t :
  count_char c t = 0%nat →
  last_index_from i (a +:+ String c t) (String c "") = Some (i + len a)%nat.
Proof.
  intros Ht. revert i. induction a as [|d a IH]; intros i; simpl.
  - rewrite last_index_free by done. rewrite Ascii.eqb_refl. simpl.
    f_equal. unfold len. simpl. lia.
  - rewrite IH. f_equal. unfold len. simpl. lia.
Qed.

(** The link name of [source:dir/segment] and of [source:segment]. *)
Lemma GetLinkName_segment source dir segment :
  Contains source ":" = false → Contains segment "/" = false →
  GetLinkName (source +:+ ":" +:+ dir +:+ "/" +:+ segment) = segment
  ∧ GetLinkName (source +:+ ":" +:+ segment) = segment.
Proof.
  intros Hs%Contains_char_false Hg%Contains_char_false.
  unfold GetLinkName. split.
  - change (":" +:+ dir +:+ "/" +:+ segment)
      with (String ":" (dir +:+ "/" +:+ segment)).
    rewrite SplitN2_char by done. simpl.
    unfold LastIndex. change ("/" +:+ segment) with (String "/" segment).
    rewrite last_index_app by done. simpl.
    destruct (Z.leb_spec 0 (Z.of_nat (len dir))); [|lia].
    replace (Z.to_nat (Z.of_nat (len dir) + 1)) with (len dir + len "/")%nat
      by (unfold len; simpl; lia).
    change (String "/" segment) with ("/" +:+ segment).
    rewrite <- app_assoc.
    replace (len dir + len "/")%nat with (len (dir +:+ "/"))
      by apply len_app.
    apply slice_from_app.
  - change (":" +:+ segment) with (String ":" segment).
    rewrite SplitN2_char by done. simpl.
    unfold LastIndex. by rewrite last_index_free.
Qed.

(** C4, the claim as it is stated, is false: [github:a_/b] has a source
    and a locator without [__], and a source without [:] and [/], but
    decoding its safe name gives [github:a/_b]. *)
Lemma safe_name_round_trip_counterexample :
  ¬ (∀ source locator : string,
       Contains source "__" = false → Contains locator "__" = false →
       Contains source ":" = false → Contains source "/" = false →
       ParseSafeName (GetSafeName (source +:+ ":" +:+ locator))
       = source +:+ ":" +:+ locator).
Proof.
  intros H. specialize (H "github" "a_/b" eq_refl eq_refl eq_refl eq_refl).
  vm_compute in H. discriminate H.
Qed.

(** The same happens to a source that ends in an underscore. *)
Example safe_name_source_underscore :
  GetSafeName "a_:b" = "a___b" ∧ ParseSafeName "a___b" = "a:_b".
Proof. split; reflexivity. Qed.

(** C4, amended: for every identifier [source:locator] where source and
    locator contain no [__], the source contains no [:] and no [/] and
    does not end in [_], and the locator contains no [_/], decoding the
    safe name gives the identifier back; [github:user/repo/path/to/skill]
    is encoded as [github__user__repo__path__to__skill], which decodes to
    the identifier exactly. *)
Theorem safe_name_round_trip (source locator : string) :
  Contains source "__" = false → Contains locator "__" = false →
  Contains source ":" = false → Contains source "/" = false →
  HasSuffix source "_" = false → Contains locator "_/" = false →
  ParseSafeName (GetSafeName (source +:+ ":" +:+ locator))
  = source +:+ ":" +:+ locator
  ∧ GetSafeName "github:user/repo/path/to/skill"
    = "github__user__repo__path__to__skill"
  ∧ ParseSafeName "github__user__repo__path__to__skill"
    = "github:user/repo/path/to/skill".
Proof.
  intros Hs Hl Hc _ Hu Hul. split; [|split; reflexivity].
  rewrite GetSafeName_split by done. unfold ParseSafeName.
  rewrite SplitN2_dunder by done. simpl.
  by rewrite ReplaceAll_roundtrip.
Qed.

Lemma safe_name_round_trip_witness :
  ParseSafeName (GetSafeName ("registry" +:+ ":" +:+ "team-skill"))
  = "registry" +:+ ":" +:+ "team-skill".
Proof.
  apply (safe_name_round_trip "registry" "team-skill"); reflexivity.
Defined.

(** C9: [GetLinkName] returns the last path segment of the locator and
    ignores the source prefix: for a source without [:] and a segment
    without [/], the link name of [source:dir/segment] and of
    [source:segment] is [segment]; [local:figma-mcp] gives [figma-mcp],
    [github:user/repo/my-skill] gives [my-skill] and [registry:team-skill]
    gives [team-skill]. *)
Theorem GetLinkName_last_segment (source dir segment : string) :
  Contains source ":" = false → Contains segment "/" = false →
  GetLinkName (source +:+ ":" +:+ dir +:+ "/" +:+ segment) = segment
  ∧ GetLinkName (source +:+ ":" +:+ segment) = segment
  ∧ GetLinkName "local:figma-mcp" = "figma-mcp"
  ∧ GetLinkName "github:user/repo/my-skill" = "my-skill"
  ∧ GetLinkName "registry:team-skill" = "team-skill".
Proof.
  intros Hs Hg.
  destruct (GetLinkName_segment source dir segment Hs Hg) as [H1 H2].
  repeat split; done.
Qed.

Lemma GetLinkName_last_segment_witness :
  GetLinkName ("github" +:+ ":" +:+ "user/repo" +:+ "/" +:+ "my-skill")
  = "my-skill".
Proof.
  apply (GetLinkName_last_segment "github" "user/repo" "my-skill");
    reflexivity.
Defined.

End ConfigFacts.

(** ** The skill registry *)
Section SkillsFacts.
Import Skills.

Lemma load_save skills r : load (save skills r) = skills.
Proof. reflexivity. Qed.

(** The record [AddSkill] stores. *)
Lemma AddSkill_save id skillType commitID skillPath r :
  AddSkill id skillType commitID skillPath r
  = save (<[id := mkStored commitID skillType skillPath]> (load r)) r.
Proof.
  unfold AddSkill.
  destruct (String.eqb_spec commitID ""), (String.eqb_spec skillPath "");
    by subst.
Qed.

Lemma GetSkill_Some id r sk :
  GetSkill id r = Some sk ↔
  ∃ stored, load r !! id = Some stored ∧ sk = toSkill id stored.
Proof.
  unfold GetSkill. destruct (load r !! id) as [stored|]; split.
  - intros [= <-]. by exists stored.
  - by intros (? & [= <-] & ->).
  - done.
  - by intros (? & ? & _).
Qed.

Lemma GetSkill_None id r : GetSkill id r = None ↔ load r !! id = None.
Proof. unfold GetSkill. by destruct (load r !! id). Qed.

Global Instance by_ID_trans : Transitive by_ID.
Proof. intros a b c. unfold by_ID. apply transitivity. Qed.

Global Instance by_ID_total : Total by_ID.
Proof. intros a b. unfold by_ID. apply total, _. Qed.

Lemma collect_IDs entries : ID <$> collect entries = entries.*1.
Proof. unfold collect. rewrite <- list_fmap_compose. done. Qed.

Lemma NoDup_fmap_eq {A B} (f : A → B) (l : list A) x y :
  NoDup (f <$> l) → x ∈ l → y ∈ l → f x = f y → x = y.
Proof.
  induction l as [|a l IH]; [by intros _ ?%elem_of_nil|].
  rewrite fmap_cons, NoDup_cons.
  intros [Ha Hl] [->|Hx]%elem_of_cons [->|Hy]%elem_of_cons E; auto.
  - destruct Ha. rewrite E. by apply list_elem_of_fmap_2.
  - destruct Ha. rewrite <- E. by apply list_elem_of_fmap_2.
Qed.

(** Two sorted slices of the same registry entries are equal: with
    distinct keys the result of the sort is determined. *)
Lemma sorted_by_ID_unique (l1 l2 : list Skill) :
  NoDup (ID <$> l1) → l1 ≡ₚ l2 →
  Sorted by_ID l1 → Sorted by_ID l2 → l1 = l2.
Proof.
  intros Hnd Hp H1 H2. apply (Sorted_unique_strong by_ID); try done.
  intros x1 x2 Hx1 Hx2 H12 H21.
  apply (NoDup_fmap_eq ID l1); [done..|by rewrite Hp|].
  unfold by_ID in *. by apply (anti_symm String.le).
Qed.

Lemma GetAllSkills_Permutation r :
  GetAllSkills r ≡ₚ collect (map_to_list (load r)).
Proof. apply merge_sort_Permutation. Qed.

Lemma GetAllSkills_Sorted r : Sorted by_ID (GetAllSkills r).
Proof. apply (Sorted_merge_sort by_ID). Qed.

Lemma GetAllSkills_NoDup r : NoDup (ID <$> GetAllSkills r).
Proof.
  rewrite GetAllSkills_Permutation, collect_IDs.
  apply NoDup_fst_map_to_list.
Qed.

Lemma elem_of_GetAllSkills r sk :
  sk ∈ GetAllSkills r ↔ GetSkill (ID sk) r = Some sk.
Proof.
  rewrite GetAllSkills_Permutation, GetSkill_Some. unfold collect.
  rewrite list_elem_of_fmap. split.
  - intros ([id stored] & -> & H%elem_of_map_to_list). by exists stored.
  - intros (stored & H & E). exists (ID sk, stored).
    split; [by rewrite E|by apply elem_of_map_to_list].
Qed.

(** Whatever the order in which Go walks the map, the sorted slice is the
    same. *)
Lemma GetAllSkills_any_order r entries :
  entries ≡ₚ map_to_list (load r) →
  merge_sort by_ID (collect entries) = GetAllSkills r.
Proof.
  intros Hp. apply sorted_by_ID_unique.
  - rewrite merge_sort_Permutation, collect_IDs, Hp.
    apply NoDup_fst_map_to_list.
  - rewrite merge_sort_Permutation, GetAllSkills_Permutation.
    unfold collect. by rewrite Hp.
  - apply (Sorted_merge_sort by_ID).
  - apply GetAllSkills_Sorted.
Qed.

(** The registry as a slice determines the sorted slice. *)
Lemma GetAllSkills_eq r (l : list Skill) :
  l ≡ₚ collect (map_to_list (load r)) → Sorted by_ID l →
  GetAllSkills r = l.
Proof.
  intros Hp Hs. apply sorted_by_ID_unique.
  - apply GetAllSkills_NoDup.
  - by rewrite GetAllSkills_Permutation.
  - apply GetAllSkills_Sorted.
  - done.
Qed.

(** C7: [UpdateSkillVersion(id, newCommitID)] on a registry that holds
    [id] changes the commit id of that entry only: its type and path, and
    every other entry, are as before.  When [id] is absent the registry
    file is left as it is: same content, and it is not written. *)
Theorem UpdateSkillVersion_frame (id newCommitID : string)
    (r : RegistryFile) :
  (∀ sk, GetSkill id r = Some sk →
     GetSkill id (UpdateSkillVersion id newCommitID r)
     = Some {| ID := id; CommitID := newCommitID;
               Type_ := Type_ sk; Path := Path sk |}
     ∧ ∀ id', id' ≠ id →
         GetSkill id' (UpdateSkillVersion id newCommitID r)
         = GetSkill id' r)
  ∧ (GetSkill id r = None →
     UpdateSkillVersion id newCommitID r = r
     ∧ writes (UpdateSkillVersion id newCommitID r) = writes r).
Proof.
  split.
  - intros sk (stored & Hs & ->)%GetSkill_Some.
    unfold UpdateSkillVersion. rewrite Hs. unfold GetSkill.
    rewrite load_save. split.
    + by rewrite lookup_insert_eq.
    + intros id' Hne. by rewrite lookup_insert_ne.
  - intros H%GetSkill_None. unfold UpdateSkillVersion. by rewrite H.
Qed.

Lemma UpdateSkillVersion_frame_witness :
  let r := AddSkill "local:local-skill" "local" "" ""
             (AddSkill "github:user/repo/a-skill" "github" "abc123"
                "skills/a-skill" (mkFile None 0)) in
  GetSkill "github:user/repo/a-skill"
    (UpdateSkillVersion "github:user/repo/a-skill" "def456" r)
  = Some (mkSkill "github:user/repo/a-skill" "def456" "github"
            "skills/a-skill")
  ∧ GetSkill "local:local-skill"
      (UpdateSkillVersion "github:user/repo/a-skill" "def456" r)
    = GetSkill "local:local-skill" r
  ∧ UpdateSkillVersion "registry:absent" "def456" r = r.
Proof.
  intros r.
  destruct (UpdateSkillVersion_frame "github:user/repo/a-skill" "def456" r)
    as [Hpresent _].
  destruct (Hpresent (mkSkill "github:user/repo/a-skill" "abc123" "github"
                        "skills/a-skill") eq_refl) as [Hid Hother].
  destruct (UpdateSkillVersion_frame "registry:absent" "def456" r)
    as [_ Habsent].
  split; [exact Hid|]. split.
  - apply Hother. discriminate.
  - apply Habsent. reflexivity.
Defined.



End SkillsFacts.

(** ** The sync orchestrator: the two removal loops *)
Section RemovalFacts.
Import GoStrings Config Skills Commands.

Lemma lookup_delete_list {A} (ks : list string) (m : gmap string A) k :
  delete_list ks m !! k = if decide (k ∈ ks) then None else m !! k.
Proof.
  revert m. induction ks as [|k' ks IH]; intros m; cbn [delete_list].
  - by case_decide; [apply elem_of_nil in H|].
  - rewrite IH. destruct (decide (k = k')) as [->|Hne].
    + rewrite lookup_delete_eq.
      destruct (decide (k' ∈ ks)), (decide (k' ∈ k' :: ks)) as [|Hn];
        try done; destruct Hn; by left.
    + rewrite lookup_delete_ne by done.
      destruct (decide (k ∈ ks)) as [Hi|Hi],
               (decide (k ∈ k' :: ks)) as [Hc|Hc]; try done.
      * destruct Hc. by right.
      * by apply elem_of_cons in Hc as [?|?].
Qed.

Lemma shrinks_refl sd : shrinks sd sd.
Proof. intros path d' H. by exists d'. Qed.

Lemma shrinks_trans sd1 sd2 sd3 :
  shrinks sd1 sd2 → shrinks sd2 sd3 → shrinks sd1 sd3.
Proof.
  intros H12 H23 path d1 H1.
  destruct (H12 _ _ H1) as (d2 & H2 & Hle12).
  destruct (H23 _ _ H2) as (d3 & H3 & Hle23).
  exists d3. split; [done|]. by transitivity d2.
Qed.

Lemma link_gone_shrinks dir name sd sd' :
  shrinks sd' sd → link_gone dir name sd → link_gone dir name sd'.
Proof.
  intros Hs Hg d' x Hd' Hx.
  destruct (Hs _ _ Hd') as (d & Hd & Hle).
  apply (Hg d x Hd). by eapply lookup_weaken.
Qed.

Lemma removeSkillLinkIfPresent_spec skillID p w :
  let w' := (removeSkillLinkIfPresent skillID p w).2 in
  configRegistry w' = configRegistry w ∧ cloned w' = cloned w ∧
  registry w' = registry w ∧ repo w' = repo w ∧
  shrinks (skillDirs w') (skillDirs w) ∧
  link_gone (SkillDir p) (GetLinkName skillID) (skillDirs w') ∧
  ((removeSkillLinkIfPresent skillID p w).1 = false → w' = w).
Proof.
  unfold removeSkillLinkIfPresent.
  destruct (skillDirs w !! SkillDir p) as [d|] eqn:Hd; simpl.
  - destruct (d !! GetLinkName skillID) as [x|] eqn:Hx; simpl.
    + destruct (removable x) eqn:Hr; simpl.
      * repeat split; try done.
        -- intros path d'. destruct (decide (path = SkillDir p)) as [->|Hne].
           ++ rewrite lookup_insert_eq. intros [= <-]. exists d.
              split; [done|]. apply delete_subseteq.
           ++ rewrite lookup_insert_ne by done. intros H. by exists d'.
        -- intros d' x'. rewrite lookup_insert_eq. intros [= <-].
           by rewrite lookup_delete_eq.
      * repeat split; try done; [apply shrinks_refl|].
        intros d' x'. rewrite Hd. intros [= <-]. rewrite Hx.
        by intros [= <-].
    + repeat split; try done; [apply shrinks_refl|].
      intros d' x'. rewrite Hd. intros [= <-]. by rewrite Hx.
  - repeat split; try done; [apply shrinks_refl|].
    intros d' x'. by rewrite Hd.
Qed.

Lemma removeLinks_spec skillID ps count w :
  let w' := (removeLinks skillID ps count w).2 in
  configRegistry w' = configRegistry w ∧ cloned w' = cloned w ∧
  registry w' = registry w ∧ repo w' = repo w ∧
  shrinks (skillDirs w') (skillDirs w) ∧
  ∀ p, p ∈ ps → link_gone (SkillDir p) (GetLinkName skillID) (skillDirs w').
Proof.
  revert count w. induction ps as [|p ps IH]; intros count w; simpl.
  - repeat split; try done; [apply shrinks_refl|].
    by intros p ?%elem_of_nil.
  - pose proof (removeSkillLinkIfPresent_spec skillID p w) as Hstep.
    destruct (removeSkillLinkIfPresent skillID p w) as [gone w1].
    simpl in Hstep. destruct Hstep as (Hc & Hcl & Hr & Hrp & Hs & Hg & _).
    specialize (IH (if gone then S count else count) w1).
    destruct (removeLinks skillID ps _ w1) as [count' w2]. simpl in *.
    destruct IH as (Hc' & Hcl' & Hr' & Hrp' & Hs' & Hg').
    repeat split; try congruence.
    + by eapply shrinks_trans.
    + intros q [->|Hq]%elem_of_cons; [|by apply Hg'].
      by eapply link_gone_shrinks.
Qed.

Lemma elem_of_dup_ids linkName keepID l id :
  id ∈ dup_ids linkName keepID l ↔
  id ≠ keepID ∧ GetLinkName id = linkName ∧ id ∈ ID <$> l.
Proof.
  induction l as [|sk l IH]; cbn [dup_ids].
  - rewrite fmap_nil, !elem_of_nil. tauto.
  - rewrite fmap_cons.
    destruct (String.eqb_spec (ID sk) keepID) as [Hk|Hk].
    { rewrite IH, elem_of_cons. intuition congruence. }
    destruct (String.eqb_spec (GetLinkName (ID sk)) linkName) as [Hl|Hl];
      cbn [negb].
    + rewrite !elem_of_cons, IH. intuition congruence.
    + rewrite IH, elem_of_cons. intuition congruence.
Qed.

Lemma removeSkillsWithLinkName_loop_spec l linkName keepID ps rs rl w :
  let '(rs', rl', w') :=
    removeSkillsWithLinkName_loop l linkName keepID ps rs rl w in
  rs' = (rs + length (dup_ids linkName keepID l))%nat ∧
  configRegistry w' = configRegistry w ∧ cloned w' = cloned w ∧
  load (registry w')
  = delete_list (dup_ids linkName keepID l) (load (registry w)) ∧
  repo w'
  = delete_list (GetRepoPath <$> dup_ids linkName keepID l) (repo w) ∧
  shrinks (skillDirs w') (skillDirs w) ∧
  (dup_ids linkName keepID l ≠ [] →
   ∀ p, p ∈ ps → link_gone (SkillDir p) linkName (skillDirs w')) ∧
  (dup_ids linkName keepID l = [] → rl' = rl ∧ w' = w).
Proof.
  revert rs rl w. induction l as [|sk l IH]; intros rs rl w; simpl.
  - repeat split; try done; try lia; apply shrinks_refl.
  - destruct (String.eqb_spec (ID sk) keepID) as [Hk|Hk]; [apply IH|].
    destruct (String.eqb_spec (GetLinkName (ID sk)) linkName) as [Hl|Hl];
      simpl; [|apply IH].
    pose proof (removeLinks_spec (ID sk) ps rl
                  (RemoveAll (GetRepoPath (ID sk)) w)) as Hlinks.
    destruct (removeLinks (ID sk) ps rl _) as [rl1 w1]. simpl in Hlinks.
    destruct Hlinks as (Hc & Hcl & Hr & Hrp & Hs & Hg).
    specialize (IH (S rs) rl1 (set_registry (RemoveSkill (ID sk)) w1)).
    destruct (removeSkillsWithLinkName_loop l _ _ _ _ _ _)
      as [[rs' rl'] w'].
    destruct IH as (-> & Hc' & Hcl' & Hr' & Hrp' & Hs' & _ & _).
    simpl in *. repeat split; try congruence.
    + lia.
    + by rewrite Hr', Hr.
    + by rewrite Hrp', Hrp.
    + by eapply shrinks_trans.
    + intros _ p Hp. eapply link_gone_shrinks; [done|].
      rewrite <- Hl. by apply Hg.
Qed.

Lemma GetAllSkills_IDs r id :
  id ∈ ID <$> GetAllSkills r ↔ is_Some (load r !! id).
Proof.
  rewrite list_elem_of_fmap. split.
  - intros (sk & -> & (stored & H & _)%elem_of_GetAllSkills%GetSkill_Some).
    by exists stored.
  - intros [stored H]. exists (toSkill id stored). split; [done|].
    apply elem_of_GetAllSkills. simpl. unfold GetSkill. by rewrite H.
Qed.

(** After [removeSkillsWithLinkName], a record is in the registry exactly
    when it was there before and is the kept one or has another link
    name. *)
Lemma removeSkillsWithLinkName_registry linkName keepID ps w id :
  load (registry (removeSkillsWithLinkName linkName keepID ps w).2) !! id
  = if decide (id ≠ keepID ∧ GetLinkName id = linkName)
    then None else load (registry w) !! id.
Proof.
  unfold removeSkillsWithLinkName.
  pose proof (removeSkillsWithLinkName_loop_spec
                (GetAllSkills (registry w)) linkName keepID ps 0 0 w) as H.
  destruct (removeSkillsWithLinkName_loop _ _ _ _ _ _ _) as [[rs rl] w'].
  destruct H as (_ & _ & _ & Hr & _). simpl.
  rewrite Hr, lookup_delete_list.
  destruct (decide (id ∈ dup_ids _ _ _)) as [Hin|Hin].
  - apply elem_of_dup_ids in Hin as (? & ? & _). by rewrite decide_True.
  - destruct (decide (id ≠ keepID ∧ _)) as [[? ?]|]; [|done].
    destruct (load (registry w) !! id) eqn:E; [|done].
    destruct Hin. apply elem_of_dup_ids.
    repeat split; try done. by apply GetAllSkills_IDs.
Qed.

Lemma prune_loop_spec e foundSet l rp w :
  let '(rp', w') := prune_loop e foundSet l rp w in
  added rp' = added rp ∧ updated rp' = updated rp ∧
  unchanged rp' = unchanged rp ∧ replaced rp' = replaced rp ∧
  replacedLinks rp' = replacedLinks rp ∧
  removed rp' = (removed rp + length (prune_ids foundSet l))%nat ∧
  configRegistry w' = configRegistry w ∧ cloned w' = cloned w ∧
  load (registry w') = delete_list (prune_ids foundSet l) (load (registry w)) ∧
  repo w' = delete_list (GetRepoPath <$> prune_ids foundSet l) (repo w) ∧
  shrinks (skillDirs w') (skillDirs w) ∧
  (prune_ids foundSet l = [] → rp' = rp ∧ w' = w).
Proof.
  revert rp w. induction l as [|sk l IH]; intros rp w; simpl.
  - repeat split; try done; try lia; apply shrinks_refl.
  - destruct (String.eqb (Skills.Type_ sk) "registry"
              && negb (default false (foundSet !! ID sk))); [|apply IH].
    pose proof (removeLinks_spec (ID sk) (detectedProjects e)
                  (linkCleanup rp) (RemoveAll (GetRepoPath (ID sk)) w))
      as Hlinks.
    destruct (removeLinks (ID sk) _ _ _) as [cleanup w1]. simpl in Hlinks.
    destruct Hlinks as (Hc & Hcl & Hr & Hrp & Hs & Hg).
    match goal with |- context [prune_loop e foundSet l ?rp1 ?w1] =>
      specialize (IH rp1 w1); destruct (prune_loop e foundSet l rp1 w1)
        as [rp' w'] end.
    destruct IH as (? & ? & ? & ? & ? & ? & Hc' & Hcl' & Hr' & Hrp' & Hs' & _).
    simpl in *. repeat split; try congruence.
    + lia.
    + by rewrite Hr', Hr.
    + by rewrite Hrp', Hrp.
    + by eapply shrinks_trans.
Qed.

End RemovalFacts.

(** ** The sync orchestrator: one pass of the copy loop *)
Section SyncStep.
Import GoStrings Config Skills Commands.
Local Arguments String.append : simpl nomatch.

Variable e : Env.
Variable subPath : string.

Local Abbreviation sync_step := (sync_step e subPath).
Local Abbreviation stored_of := (stored_of e subPath).
Local Abbreviation copy_ok := (copy_ok e).
Local Abbreviation copy_of := (copy_of e).

Lemma sync_loop_cons n x rest rp w :
  sync_loop e subPath ((n, x) :: rest) rp w
  = sync_loop e subPath rest (sync_step n x rp w).1 (sync_step n x rp w).2.
Proof.
  unfold sync_step. cbn [sync_loop].
  destruct (removeSkillsWithLinkName _ _ _ _) as [[rs rl] wd].
  destruct (copyDir (resolve e) x) as [copied ok].
  by destruct ok.
Qed.

Lemma sync_step_spec n x rp w :
  let dups := dup_ids n (regid n) (GetAllSkills (registry w)) in
  let rp' := (sync_step n x rp w).1 in
  let w' := (sync_step n x rp w).2 in
  configRegistry w' = configRegistry w ∧ cloned w' = cloned w ∧
  load (registry w')
  = (if copy_ok x
     then <[regid n := stored_of n]> (delete_list dups (load (registry w)))
     else delete_list dups (load (registry w))) ∧
  repo w'
  = <[GetRepoPath (regid n) := copy_of x]>
      (delete_list (GetRepoPath <$> dups) (repo w)) ∧
  shrinks (skillDirs w') (skillDirs w) ∧
  (dups ≠ [] →
   ∀ p, p ∈ detectedProjects e → link_gone (SkillDir p) n (skillDirs w')) ∧
  removed rp' = removed rp ∧ linkCleanup rp' = linkCleanup rp ∧
  (dups = [] →
   skillDirs w' = skillDirs w ∧
   replaced rp' = replaced rp ∧ replacedLinks rp' = replacedLinks rp ∧
   (copy_ok x = false ∨ load (registry w) !! regid n = Some (stored_of n) →
    content (registry w') = content (registry w) ∧
    added rp' = added rp ∧ updated rp' = updated rp)).
Proof.
  intros dups rp' w'. subst rp' w'. unfold sync_step, copy_ok, copy_of.
  cbn [sync_loop]. fold (regid n). unfold removeSkillsWithLinkName.
  pose proof (removeSkillsWithLinkName_loop_spec
                (GetAllSkills (registry w)) n (regid n)
                (detectedProjects e) 0 0 w) as Hd.
  fold dups in Hd.
  destruct (removeSkillsWithLinkName_loop _ _ _ _ _ _ _) as [[rs rl] wd].
  destruct Hd as (Hrs & Hc & Hcl & Hr & Hrp & Hs & Hg & Hnil).
  destruct (copyDir (resolve e) x) as [copied ok]. cbn [fst snd].
  assert (<[GetRepoPath (regid n) := Dir copied]>
            (delete (GetRepoPath (regid n)) (repo wd))
          = <[GetRepoPath (regid n) := Dir copied]>
              (delete_list (GetRepoPath <$> dups) (repo w))) as Hrepo.
  { by rewrite insert_delete_eq, Hrp. }
  match goal with
  | |- context [if (0 <? rs)%nat then ?a else rp] =>
      set (rp0 := if (0 <? rs)%nat then a else rp)
  end.
  assert (added rp0 = added rp ∧ updated rp0 = updated rp ∧
          removed rp0 = removed rp ∧ linkCleanup rp0 = linkCleanup rp ∧
          (dups = [] → rp0 = rp)) as (Ha0 & Hu0 & Hr0 & Hl0 & Hrp0).
  { subst rp0. destruct (0 <? rs)%nat eqn:E; [|done].
    repeat split; try done. intros Hn. rewrite Hn in Hrs. by subst rs. }
  clearbody rp0.
  destruct ok; cbn [negb fst snd];
    cbn [configRegistry cloned registry repo skillDirs
         set_registry set_repo RemoveAll];
    rewrite ?AddSkill_save.
  - split; [exact Hc|]. split; [exact Hcl|].
    split; [by rewrite load_save, Hr|]. split; [exact Hrepo|].
    split; [exact Hs|]. split; [exact Hg|].
    split; [by destruct (GetSkill _ _) as [ex|]; [destruct (negb _)|]|].
    split; [by destruct (GetSkill _ _) as [ex|]; [destruct (negb _)|]|].
    intros Hn. destruct (Hnil Hn) as [-> ->]. rewrite (Hrp0 Hn).
    split; [done|].
    split; [by destruct (GetSkill _ _) as [ex|]; [destruct (negb _)|]|].
    split; [by destruct (GetSkill _ _) as [ex|]; [destruct (negb _)|]|].
    intros [?|Hl]; [done|]. unfold GetSkill. rewrite Hl. cbn.
    rewrite String.eqb_refl. cbn. split; [|done].
    fold (stored_of n). rewrite insert_id by done.
    unfold load in Hl |- *. by destruct (content (registry w)).
  - split; [exact Hc|]. split; [exact Hcl|].
    split; [exact Hr|]. split; [exact Hrepo|].
    split; [exact Hs|]. split; [exact Hg|].
    split; [exact Hr0|]. split; [exact Hl0|].
    intros Hn. destruct (Hnil Hn) as [-> ->]. by rewrite (Hrp0 Hn).
Qed.

End SyncStep.

(** ** The sync orchestrator: the copy loop *)
Section SyncLoop.
Import GoStrings Config Skills Commands.
Local Arguments String.append : simpl nomatch.

Variable e : Env.
Variable subPath : string.

Local Abbreviation step := (sync_step e subPath).
Local Abbreviation loop := (sync_loop e subPath).
Local Abbreviation stored_of := (stored_of e subPath).
Local Abbreviation copy_ok := (copy_ok e).
Local Abbreviation copy_of := (copy_of e).

Lemma ReplaceAll_free s :
  count_char "/" s = 0%nat → ReplaceAll s "/" "__" = s.
Proof.
  induction s as [|c s IH]; [done|]. rewrite ReplaceAll_slash_cons.
  simpl. destruct (Ascii.eqb c "/"); [done|]. intros H. by rewrite IH.
Qed.

Lemma GetLinkName_regid n : valid_name n → GetLinkName (regid n) = n.
Proof.
  intros Hn. by destruct (GetLinkName_segment "registry" "" n eq_refl Hn).
Qed.

Lemma GetSafeName_regid n :
  valid_name n → GetSafeName (regid n) = "registry__" +:+ n.
Proof.
  intros Hn. unfold regid.
  change ("registry:" +:+ n) with ("registry" +:+ ":" +:+ n).
  rewrite GetSafeName_split by done.
  apply Contains_char_false in Hn. by rewrite ReplaceAll_free.
Qed.

Lemma regid_inj n n' : regid n = regid n' → n = n'.
Proof. unfold regid. by intros ?%(inj (String.append _)). Qed.

Lemma GetRepoPath_regid_inj n n' :
  valid_name n → valid_name n' →
  GetRepoPath (regid n) = GetRepoPath (regid n') → n = n'.
Proof.
  intros Hn Hn'. unfold GetRepoPath. rewrite !GetSafeName_regid by done.
  by intros ?%(inj (String.append _)).
Qed.

(** The registry after one pass. *)
Lemma step_lookup_regid n x rp w :
  load (registry (step n x rp w).2) !! regid n
  = if copy_ok x then Some (stored_of n) else load (registry w) !! regid n.
Proof.
  destruct (sync_step_spec e subPath n x rp w) as (_ & _ & -> & _).
  destruct (copy_ok x); [by rewrite lookup_insert_eq|].
  rewrite lookup_delete_list. case_decide as H; [|done].
  by apply elem_of_dup_ids in H as [? _].
Qed.

Lemma step_lookup_other n x rp w id :
  id ≠ regid n →
  load (registry (step n x rp w).2) !! id
  = if decide (GetLinkName id = n) then None else load (registry w) !! id.
Proof.
  intros Hne.
  destruct (sync_step_spec e subPath n x rp w) as (_ & _ & -> & _).
  assert (delete_list (dup_ids n (regid n) (GetAllSkills (registry w)))
            (load (registry w)) !! id
          = if decide (GetLinkName id = n) then None
            else load (registry w) !! id) as H.
  { rewrite lookup_delete_list.
    destruct (decide (id ∈ _)) as [Hin|Hin].
    - apply elem_of_dup_ids in Hin as (_ & Hl & _). by rewrite decide_True.
    - destruct (decide (GetLinkName id = n)) as [Hl|]; [|done].
      destruct (load (registry w) !! id) eqn:E; [|done].
      destruct Hin. apply elem_of_dup_ids.
      repeat split; try done. by apply GetAllSkills_IDs. }
  destruct (copy_ok x); [by rewrite lookup_insert_ne|done].
Qed.

Lemma step_lookup_origin n x rp w id v :
  load (registry (step n x rp w).2) !! id = Some v →
  load (registry w) !! id = Some v ∨ (id = regid n ∧ v = stored_of n).
Proof.
  destruct (decide (id = regid n)) as [->|Hne].
  - rewrite step_lookup_regid. destruct (copy_ok x); [|by left].
    intros [= <-]. by right.
  - rewrite step_lookup_other by done. case_decide; [done|by left].
Qed.

(** Every record of the registry after the loop was there before it or is
    the record of a found skill. *)
Lemma loop_lookup_origin found rp w id v :
  load (registry (loop found rp w).2) !! id = Some v →
  load (registry w) !! id = Some v
  ∨ ∃ n x, (n, x) ∈ found ∧ id = regid n ∧ v = stored_of n.
Proof.
  revert rp w. induction found as [|[n x] found IH]; intros rp w.
  - by left.
  - rewrite sync_loop_cons. intros [H|(n' & x' & Hin & -> & ->)]%IH.
    + apply step_lookup_origin in H as [H|[-> ->]]; [by left|].
      right. exists n, x. split; [left|done].
    + right. exists n', x'. split; [by right|done].
Qed.

(** After the loop, a found skill name is the link name of its registry
    record only. *)
Lemma loop_no_duplicates found rp w n x id :
  valid_names found → (n, x) ∈ found →
  is_Some (load (registry (loop found rp w).2) !! id) →
  GetLinkName id = n → id = regid n.
Proof.
  intros Hv Hin [v Hid] Hl. revert rp w Hv Hin Hid.
  induction found as [|[n0 x0] found IH]; intros rp w Hv Hin Hid.
  - by apply elem_of_nil in Hin.
  - rewrite sync_loop_cons in Hid.
    apply elem_of_cons in Hin as [[= <- <-]|Hin].
    + apply loop_lookup_origin in Hid as [Hid|(n' & x' & Hin' & -> & _)].
      * destruct (decide (id = regid n)) as [|Hne]; [done|].
        rewrite step_lookup_other, decide_True in Hid by done. done.
      * rewrite GetLinkName_regid in Hl by (eapply Hv; by right).
        by subst.
    + eapply IH; [|done..]. intros ???. eapply Hv. by right.
Qed.

(** The record of a found skill, once written, stays. *)
Lemma loop_record_kept found rp w n :
  valid_names found → valid_name n →
  load (registry w) !! regid n = Some (stored_of n) →
  load (registry (loop found rp w).2) !! regid n = Some (stored_of n).
Proof.
  intros Hv Hn. revert rp w.
  induction found as [|[n0 x0] found IH]; intros rp w Hw; [done|].
  rewrite sync_loop_cons. apply IH.
  { intros ???. eapply Hv. by right. }
  destruct (decide (regid n = regid n0)) as [E|Hne].
  - apply regid_inj in E as <-. rewrite step_lookup_regid.
    by destruct (copy_ok x0).
  - rewrite step_lookup_other, decide_False; [done| |done].
    rewrite GetLinkName_regid by done. by intros <-.
Qed.

Lemma loop_records found rp w n x :
  valid_names found → (n, x) ∈ found → copy_ok x = true →
  load (registry (loop found rp w).2) !! regid n = Some (stored_of n).
Proof.
  intros Hv Hin Hok. revert rp w Hv Hin.
  induction found as [|[n0 x0] found IH]; intros rp w Hv Hin.
  - by apply elem_of_nil in Hin.
  - rewrite sync_loop_cons.
    apply elem_of_cons in Hin as [[= <- <-]|Hin].
    + apply loop_record_kept.
      * intros ???. eapply Hv. by right.
      * eapply Hv. by left.
      * by rewrite step_lookup_regid, Hok.
    + apply IH; [|done]. intros ???. eapply Hv. by right.
Qed.

Lemma no_clash_step n n0 x0 rp w :
  valid_name n → valid_name n0 →
  no_clash n (load (registry w)) →
  no_clash n (load (registry (step n0 x0 rp w).2)).
Proof.
  intros Hn Hn0 Hc id [v Hid] Hs.
  apply step_lookup_origin in Hid as [Hid|[-> _]]; [by apply Hc|].
  f_equal. symmetry. by apply GetRepoPath_regid_inj.
Qed.

Lemma no_clash_loop n found rp w :
  valid_name n → valid_names found →
  no_clash n (load (registry w)) →
  no_clash n (load (registry (loop found rp w).2)).
Proof.
  intros Hn Hv Hc id [v Hid] Hs.
  apply loop_lookup_origin in Hid as [Hid|(n' & x' & Hin & -> & _)];
    [by apply Hc|].
  f_equal. symmetry. apply GetRepoPath_regid_inj; [done| |done].
  by eapply Hv.
Qed.

(** The repository directory after one pass. *)
Lemma step_repo_self n x rp w :
  repo (step n x rp w).2 !! GetRepoPath (regid n) = Some (copy_of x).
Proof.
  destruct (sync_step_spec e subPath n x rp w) as (_ & _ & _ & -> & _).
  apply lookup_insert_eq.
Qed.

Lemma step_repo_other n n0 x0 rp w :
  valid_name n → valid_name n0 → n ≠ n0 →
  no_clash n (load (registry w)) →
  repo (step n0 x0 rp w).2 !! GetRepoPath (regid n)
  = repo w !! GetRepoPath (regid n).
Proof.
  intros Hn Hn0 Hne Hc.
  destruct (sync_step_spec e subPath n0 x0 rp w) as (_ & _ & _ & -> & _).
  rewrite lookup_insert_ne
    by (intros E; by apply GetRepoPath_regid_inj in E).
  rewrite lookup_delete_list. case_decide as Hin; [|done].
  apply list_elem_of_fmap in Hin as (d & Hd & Hin).
  apply elem_of_dup_ids in Hin as (Hk & Hl & Hreg).
  apply GetAllSkills_IDs in Hreg.
  assert (d = regid n) as -> by (by apply Hc).
  rewrite GetLinkName_regid in Hl by done. done.
Qed.

Lemma loop_repo_kept found rp w n v :
  valid_name n → valid_names found → n ∉ found.*1 →
  no_clash n (load (registry w)) →
  repo w !! GetRepoPath (regid n) = Some v →
  repo (loop found rp w).2 !! GetRepoPath (regid n) = Some v.
Proof.
  intros Hn. revert rp w.
  induction found as [|[n0 x0] found IH]; intros rp w Hv Hnin Hc Hw;
    [done|].
  rewrite sync_loop_cons. rewrite fmap_cons, not_elem_of_cons in Hnin.
  destruct Hnin as [Hne Hnin].
  assert (valid_name n0) as Hn0 by (eapply Hv; by left).
  apply IH; [by intros ???; eapply Hv; right|done| |].
  - by apply no_clash_step.
  - by rewrite step_repo_other.
Qed.

(** After the loop, the directory of every found skill holds its copy. *)
Lemma loop_repo found rp w n x :
  valid_names found → NoDup found.*1 →
  (∀ n' x', (n', x') ∈ found → no_clash n' (load (registry w))) →
  (n, x) ∈ found →
  repo (loop found rp w).2 !! GetRepoPath (regid n) = Some (copy_of x).
Proof.
  revert rp w. induction found as [|[n0 x0] found IH];
    intros rp w Hv Hnd Hc Hin.
  - by apply elem_of_nil in Hin.
  - rewrite sync_loop_cons. rewrite fmap_cons, NoDup_cons in Hnd.
    destruct Hnd as [Hnin Hnd].
    assert (valid_name n0) as Hn0 by (eapply Hv; by left).
    assert (valid_names found) as Hv' by (by intros ???; eapply Hv; right).
    apply elem_of_cons in Hin as [[= <- <-]|Hin].
    + apply loop_repo_kept; try done.
      * apply no_clash_step; try done. eapply Hc. by left.
      * apply step_repo_self.
    + apply IH; try done. intros n' x' Hin'.
      apply no_clash_step; try done; [by eapply Hv'|].
      eapply Hc. by right.
Qed.

End SyncLoop.

(** ** The sync orchestrator: pruning, and a second run *)
Section SyncRuns.
Import GoStrings Config Skills Commands.
Local Arguments String.append : simpl nomatch.

Variable e : Env.
Variable subPath : string.

Local Abbreviation loop := (sync_loop e subPath).
Local Abbreviation stored_of := (stored_of e subPath).
Local Abbreviation copy_ok := (copy_ok e).
Local Abbreviation copy_of := (copy_of e).
Local Abbreviation stable := (stable e subPath).
Local Abbreviation copies_in_place := (copies_in_place e).
Local Abbreviation sync_found := (sync_found e subPath).

Lemma foundSet_of_lookup found fs id :
  default false (foundSet_of found fs !! id) = true ↔
  is_found found id ∨ default false (fs !! id) = true.
Proof.
  revert fs. induction found as [|[n x] found IH]; intros fs;
    cbn [foundSet_of].
  - split; [by right|]. intros [(? & ? & []%elem_of_nil & _)|]; done.
  - rewrite IH. fold (regid n). split.
    + intros [(n' & x' & Hin & ->)|H].
      * left. exists n', x'. split; [by right|done].
      * destruct (decide (regid n = id)) as [<-|Hne].
        -- left. exists n, x. split; [left|done].
        -- right. by rewrite lookup_insert_ne in H.
    + intros [(n' & x' & [[= -> ->]|Hin]%elem_of_cons & ->)|H].
      * right. by rewrite lookup_insert_eq.
      * left. by exists n', x'.
      * destruct (decide (regid n = id)) as [<-|Hne].
        -- right. by rewrite lookup_insert_eq.
        -- right. by rewrite lookup_insert_ne.
Qed.

Lemma elem_of_prune_ids fs l id :
  id ∈ prune_ids fs l ↔
  ∃ sk, sk ∈ l ∧ ID sk = id ∧ Skills.Type_ sk = "registry" ∧
        default false (fs !! id) = false.
Proof.
  induction l as [|sk l IH]; cbn [prune_ids].
  - split; [by intros ?%elem_of_nil|by intros (? & ?%elem_of_nil & _)].
  - destruct (String.eqb_spec (Skills.Type_ sk) "registry") as [Ht|Ht];
      [destruct (default false (fs !! ID sk)) eqn:Hf|]; cbn [andb negb].
    + rewrite IH. split.
      * intros (sk' & ? & ?). exists sk'. split; [by right|done].
      * intros (sk' & [->|?]%elem_of_cons & <- & ? & ?); [congruence|].
        by exists sk'.
    + rewrite elem_of_cons, IH. split.
      * intros [->|(sk' & ? & ?)]; [exists sk; by split; [left|]|].
        exists sk'. split; [by right|done].
      * intros (sk' & [->|?]%elem_of_cons & <- & ? & ?); [by left|].
        right. by exists sk'.
    + rewrite IH. split.
      * intros (sk' & ? & ?). exists sk'. split; [by right|done].
      * intros (sk' & [->|?]%elem_of_cons & <- & ? & ?); [congruence|].
        by exists sk'.
Qed.

Lemma foundSet_is_found found id :
  default false (foundSet_of found ∅ !! id) = true ↔ is_found found id.
Proof.
  rewrite foundSet_of_lookup, lookup_empty. cbn. intuition discriminate.
Qed.

(** The pruning loop run on the whole registry removes the records of
    type [registry] that are not found, and nothing else. *)
Lemma prune_lookup found rp w id :
  let w' := (prune_loop e (foundSet_of found ∅)
               (GetAllSkills (registry w)) rp w).2 in
  load (registry w') !! id
  = match load (registry w) !! id with
    | Some stored =>
        if String.eqb (stored_Type stored) "registry"
           && negb (default false (foundSet_of found ∅ !! id))
        then None else Some stored
    | None => None
    end.
Proof.
  intros w'. subst w'.
  pose proof (prune_loop_spec e (foundSet_of found ∅)
                (GetAllSkills (registry w)) rp w) as H.
  destruct (prune_loop _ _ _ _ _) as [rp' w'].
  destruct H as (_ & _ & _ & _ & _ & _ & _ & _ & Hr & _). cbn [snd].
  rewrite Hr, lookup_delete_list.
  destruct (decide (id ∈ _)) as [Hin|Hin].
  - apply elem_of_prune_ids in Hin as (sk & Hsk & <- & Ht & Hf).
    apply elem_of_GetAllSkills, GetSkill_Some in Hsk as (stored & Hs & Hsk).
    rewrite Hs, Hf. rewrite Hsk in Ht. cbn in Ht. by rewrite Ht.
  - destruct (load (registry w) !! id) as [stored|] eqn:E; [|done].
    destruct (_ && _) eqn:Hd; [|done].
    apply andb_true_iff in Hd as [Ht%String.eqb_eq Hf%negb_true_iff].
    destruct Hin. apply elem_of_prune_ids. exists (toSkill id stored).
    repeat split; try done.
    apply elem_of_GetAllSkills. cbn. unfold GetSkill. by rewrite E.
Qed.

Lemma load_content r r' : content r' = content r → load r' = load r.
Proof. unfold load. by intros ->. Qed.

(** On a stable state the copy loop changes no record and no link, counts
    nothing as new, updated or replaced, and puts every copy back where it
    was. *)
Lemma loop_stable found rp w :
  (∀ n x id, (n, x) ∈ found → is_Some (load (registry w) !! id) →
     GetLinkName id = n → id = regid n) →
  (∀ n x, (n, x) ∈ found → copy_ok x = true →
     load (registry w) !! regid n = Some (stored_of n)) →
  let rp' := (loop found rp w).1 in
  let w' := (loop found rp w).2 in
  added rp' = added rp ∧ updated rp' = updated rp ∧
  replaced rp' = replaced rp ∧ replacedLinks rp' = replacedLinks rp ∧
  removed rp' = removed rp ∧ linkCleanup rp' = linkCleanup rp ∧
  configRegistry w' = configRegistry w ∧ cloned w' = cloned w ∧
  content (registry w') = content (registry w) ∧
  skillDirs w' = skillDirs w ∧
  (copies_in_place found w → repo w' = repo w).
Proof.
  revert rp w. induction found as [|[n x] found IH]; intros rp w H1 H2.
  { by repeat split. }
  cbn zeta. rewrite sync_loop_cons.
  destruct (sync_step_spec e subPath n x rp w)
    as (Hc & Hcl & _ & Hrepo & _ & _ & Hrem & Hlc & Hnil).
  assert (dup_ids n (regid n) (GetAllSkills (registry w)) = []) as Hd.
  { destruct (dup_ids _ _ _) as [|d ds] eqn:E; [done|].
    assert (d ∈ dup_ids n (regid n) (GetAllSkills (registry w))) as Hin
      by (rewrite E; left).
    apply elem_of_dup_ids in Hin as (Hne & Hl & Hreg%GetAllSkills_IDs).
    destruct Hne. by eapply (H1 n x); [left|..]. }
  rewrite Hd in Hrepo. cbn [delete_list fmap list_fmap] in Hrepo.
  destruct (Hnil Hd) as (Hsd & Hrepl & Hrl & Hreg).
  destruct Hreg as (Hcont & Hadd & Hupd).
  { destruct (copy_ok x) eqn:Hok; [right|by left].
    eapply H2; [left|done]. }
  pose proof (load_content _ _ Hcont) as Hload.
  destruct (IH (sync_step e subPath n x rp w).1
               (sync_step e subPath n x rp w).2)
    as (? & ? & ? & ? & ? & ? & ? & ? & ? & ? & Hrp).
  { intros n' x' id Hin. rewrite Hload. apply (H1 n' x'). by right. }
  { intros n' x' Hin. rewrite Hload. apply (H2 n' x'). by right. }
  repeat split; try congruence.
  intros Hcp.
  assert (repo (sync_step e subPath n x rp w).2 = repo w) as Hsame.
  { rewrite Hrepo. apply insert_id, Hcp. left. }
  rewrite Hrp; [done|]. intros n' x' Hin. rewrite Hsame.
  apply Hcp. by right.
Qed.

Lemma sync_found_unfold found w :
  sync_found found w
  = prune_loop e (foundSet_of found ∅)
      (GetAllSkills (registry (loop found no_report w).2))
      (loop found no_report w).1 (loop found no_report w).2.
Proof. unfold sync_found. by destruct (loop found no_report w). Qed.

Lemma sync_found_fields found w :
  configRegistry (sync_found found w).2 = configRegistry w ∧
  cloned (sync_found found w).2 = cloned w.
Proof.
  rewrite sync_found_unfold.
  pose proof (prune_loop_spec e (foundSet_of found ∅)
    (GetAllSkills (registry (loop found no_report w).2))
    (loop found no_report w).1 (loop found no_report w).2) as H.
  destruct (prune_loop _ _ _ _ _) as [rp' w'].
  destruct H as (_ & _ & _ & _ & _ & _ & Hc & Hcl & _). cbn [snd].
  rewrite Hc, Hcl. clear. generalize no_report as rp. revert w.
  induction found as [|[n x] found IH]; intros w rp; [done|].
  rewrite sync_loop_cons.
  destruct (sync_step_spec e subPath n x rp w) as (Hc & Hcl & _).
  destruct (IH (sync_step e subPath n x rp w).2
               (sync_step e subPath n x rp w).1) as [-> ->]. done.
Qed.

(** Every record of the registry after a sync was there before it or is
    the record of a found skill. *)
Lemma sync_found_origin found w id v :
  load (registry (sync_found found w).2) !! id = Some v →
  load (registry w) !! id = Some v
  ∨ ∃ n x, (n, x) ∈ found ∧ id = regid n ∧ v = stored_of n.
Proof.
  rewrite sync_found_unfold, prune_lookup.
  destruct (load (registry (loop found no_report w).2) !! id)
    as [stored|] eqn:E; [|done].
  destruct (_ && _); [done|]. intros [= <-].
  by apply loop_lookup_origin in E.
Qed.

(** The state after a sync is stable. *)
Lemma sync_found_stable found w :
  valid_names found → stable found (sync_found found w).2.
Proof.
  intros Hv. rewrite sync_found_unfold.
  set (rp1 := (loop found no_report w).1).
  set (w1 := (loop found no_report w).2).
  split; [|split].
  - intros n x id Hin [v Hid] Hl. rewrite prune_lookup in Hid.
    destruct (load (registry w1) !! id) as [stored|] eqn:E; [|done].
    by eapply (loop_no_duplicates e subPath found no_report w).
  - intros n x Hin Hok. rewrite prune_lookup.
    fold w1. unfold w1.
    rewrite (loop_records e subPath found no_report w n x) by done.
    assert (default false (foundSet_of found ∅ !! regid n) = true) as ->
      by (apply foundSet_is_found; by exists n, x).
    by rewrite andb_false_r.
  - intros id stored Hid Ht. rewrite prune_lookup in Hid.
    destruct (load (registry w1) !! id) as [stored'|] eqn:E; [|done].
    destruct (_ && _) eqn:Hd; [done|]. injection Hid as ->.
    rewrite Ht in Hd. cbn in Hd. apply negb_false_iff in Hd.
    by apply foundSet_is_found.
Qed.

(** With distinct names and safe names that do not clash, every copy is
    in place after a sync. *)
Lemma sync_found_copies found w :
  valid_names found → NoDup found.*1 →
  (∀ n x, (n, x) ∈ found → no_clash n (load (registry w))) →
  copies_in_place found (sync_found found w).2.
Proof.
  intros Hv Hnd Hc n x Hin. rewrite sync_found_unfold.
  set (rp1 := (loop found no_report w).1).
  set (w1 := (loop found no_report w).2).
  pose proof (prune_loop_spec e (foundSet_of found ∅)
                (GetAllSkills (registry w1)) rp1 w1) as H.
  destruct (prune_loop _ _ _ _ _) as [rp' w'].
  destruct H as (_ & _ & _ & _ & _ & _ & _ & _ & _ & Hrp & _). cbn [snd].
  rewrite Hrp, lookup_delete_list. case_decide as Hp.
  - apply list_elem_of_fmap in Hp as (d & Hd & Hp).
    apply elem_of_prune_ids in Hp as (sk & Hsk & <- & Ht & Hf).
    assert (is_Some (load (registry w1) !! ID sk)) as Hreg.
    { apply GetAllSkills_IDs, list_elem_of_fmap. by exists sk. }
    assert (ID sk = regid n) as Hid.
    { eapply (no_clash_loop e subPath n found no_report w); try done.
      - by eapply Hv.
      - by eapply Hc. }
    assert (default false (foundSet_of found ∅ !! ID sk) = true) as Hf'.
    { apply foundSet_is_found. by exists n, x. }
    congruence.
  - by apply loop_repo.
Qed.

(** A second sync of the same found skills on the state the first left:
    nothing is new, updated, replaced or removed, and the registry and
    the links are as they were; so are the skill directories when every
    copy was in place. *)
Lemma sync_found_again found w :
  stable found w →
  let rp' := (sync_found found w).1 in
  let w' := (sync_found found w).2 in
  added rp' = 0%nat ∧ updated rp' = 0%nat ∧ replaced rp' = 0%nat ∧
  replacedLinks rp' = 0%nat ∧ removed rp' = 0%nat ∧
  linkCleanup rp' = 0%nat ∧
  configRegistry w' = configRegistry w ∧ cloned w' = cloned w ∧
  content (registry w') = content (registry w) ∧
  skillDirs w' = skillDirs w ∧
  (copies_in_place found w → repo w' = repo w).
Proof.
  intros (H1 & H2 & H3). cbn zeta. rewrite sync_found_unfold.
  destruct (loop_stable found no_report w H1 H2)
    as (Ha & Hu & Hr & Hrl & Hrm & Hlc & Hc & Hcl & Hcont & Hsd & Hrp).
  set (rp1 := (loop found no_report w).1) in *.
  set (w1 := (loop found no_report w).2) in *.
  pose proof (load_content _ _ Hcont) as Hload.
  pose proof (prune_loop_spec e (foundSet_of found ∅)
                (GetAllSkills (registry w1)) rp1 w1) as H.
  destruct (prune_loop _ _ _ _ _) as [rp' w'].
  destruct H as (_ & _ & _ & _ & _ & _ & _ & _ & _ & _ & _ & Hnil).
  destruct Hnil as [-> ->].
  { destruct (prune_ids _ _) as [|d ds] eqn:E; [done|].
    assert (d ∈ prune_ids (foundSet_of found ∅)
                  (GetAllSkills (registry w1))) as Hin by (rewrite E; left).
    apply elem_of_prune_ids in Hin as (sk & Hsk & <- & Ht & Hf).
    apply elem_of_GetAllSkills, GetSkill_Some in Hsk as (stored & Hs & Hsk).
    rewrite Hload in Hs. rewrite Hsk in Ht. cbn in Ht.
    assert (default false (foundSet_of found ∅ !! ID sk) = true) as Hf'.
    { apply foundSet_is_found. by apply (H3 _ stored). }
    congruence. }
  cbn [fst snd]. by repeat split.
Qed.

End SyncRuns.

(** ** The sync orchestrator: [SyncSkills] *)
Section SyncSkillsFacts.
Import GoStrings Config Skills Commands.
Local Arguments String.append : simpl nomatch.

Variable e : Env.

Local Abbreviation found_at := (found_at e).
Local Abbreviation sync_scanned := (sync_scanned e).
Local Abbreviation sync_fetched := (sync_fetched e).

Lemma SyncSkills_configured interactive w :
  gitVersionOK e = true → configRegistry w ≠ "" →
  SyncSkills interactive e w = sync_fetched (configRegistry w) w.
Proof.
  intros Hg Hc. unfold SyncSkills, sync_fetched. rewrite Hg. cbn [negb].
  destruct (String.eqb_spec (configRegistry w) ""); [done|].
  destruct (cloned w); cbn [negb].
  - by destruct (pullOK e).
  - by destruct (cloneOK e).
Qed.

(** A run of [SyncSkills] either returns before the copy loop, touching
    no file and leaving a state on which a second run returns at once, or
    runs the two loops from a state that has the files it started
    with. *)
Lemma SyncSkills_cases interactive w :
  ((SyncSkills interactive e w).1 = no_report ∧
   same_files w (SyncSkills interactive e w).2 ∧
   SyncSkills interactive e (SyncSkills interactive e w).2
   = (no_report, (SyncSkills interactive e w).2))
  ∨ (∃ url wf,
      gitVersionOK e = true ∧ url ≠ "" ∧ found_at url ≠ [] ∧
      configRegistry wf = url ∧ cloned wf = true ∧ same_files w wf ∧
      SyncSkills interactive e w
      = sync_found e (Git.Path (Git.NormalizeURL url)) (found_at url) wf).
Proof.
  assert (∀ url w0, url ≠ "" → configRegistry w0 = url →
            gitVersionOK e = true →
            ((sync_fetched url w0).1 = no_report ∧
             same_files w0 (sync_fetched url w0).2 ∧
             SyncSkills interactive e (sync_fetched url w0).2
             = (no_report, (sync_fetched url w0).2))
            ∨ (∃ wf, found_at url ≠ [] ∧
                 configRegistry wf = url ∧ cloned wf = true ∧
                 same_files w0 wf ∧
                 sync_fetched url w0
                 = sync_found e (Git.Path (Git.NormalizeURL url))
                     (found_at url) wf)) as Hfetch.
  { intros url w0 Hurl Hc Hg.
    assert (∀ w1, configRegistry w1 = url → cloned w1 = true →
              found_at url = [] ∨ pullOK e = false →
              SyncSkills interactive e w1 = (no_report, w1)) as Hagain.
    { intros w1 Hc1 Hcl1 Hor. rewrite SyncSkills_configured, Hc1
        by (by rewrite ?Hc1).
      unfold sync_fetched, sync_scanned. rewrite Hcl1. cbn [negb].
      destruct (pullOK e); [|done].
      destruct Hor as [->|?]; done. }
    unfold sync_fetched at 1 2 3 4 5.
    destruct (cloned w0) eqn:Hcl; cbn [negb].
    - destruct (pullOK e) eqn:Hp.
      2: { left. repeat split; try done. apply Hagain; auto. }
      unfold sync_scanned.
      destruct (found_at url) as [|f fs] eqn:Hf; cbn [length Nat.eqb].
      + left. repeat split; try done. apply Hagain; auto.
      + right. by exists w0.
    - destruct (cloneOK e) eqn:Hk.
      + unfold sync_scanned.
        destruct (found_at url) as [|f fs] eqn:Hf; cbn [length Nat.eqb].
        * left. repeat split; try done. apply Hagain; auto.
        * right.
          by exists {| configRegistry := configRegistry w0;
                       cloned := true; registry := registry w0;
                       repo := repo w0; skillDirs := skillDirs w0 |}.
      + left. repeat split; try done. cbn [snd].
        rewrite SyncSkills_configured, Hc by (by rewrite ?Hc).
        unfold sync_fetched. by rewrite Hcl, Hk. }
  destruct (gitVersionOK e) eqn:Hg.
  2: { left. unfold SyncSkills. by rewrite Hg. }
  destruct (String.eqb_spec (configRegistry w) "") as [Hc|Hc].
  2: { rewrite SyncSkills_configured by done.
       destruct (Hfetch (configRegistry w) w Hc eq_refl eq_refl)
         as [H|(wf & H)]; [by left|].
       right. exists (configRegistry w), wf.
       destruct H as (? & ? & ? & (? & ? & ?) & ?). by repeat split. }
  assert (SyncSkills interactive e w
                = (if negb interactive then (no_report, w)
                   else match promptURL e with
                        | None => (no_report, w)
                        | Some inputURL =>
                            if String.eqb inputURL "" then (no_report, w)
                            else if negb (setRegistryOK e)
                                 then (no_report, w)
                                 else sync_fetched inputURL
                                        {| configRegistry := inputURL;
                                           cloned := cloned w;
                                           registry := registry w;
                                           repo := repo w;
                                           skillDirs := skillDirs w |}
                        end)) as Hrun.
  { unfold SyncSkills, sync_fetched. rewrite Hg, Hc. cbn.
    destruct interactive; cbn; [|done].
    destruct (promptURL e) as [inputURL|]; [|done].
    destruct (String.eqb inputURL ""); [done|].
    destruct (setRegistryOK e); cbn; [|done].
    destruct (cloned w); cbn.
    - by destruct (pullOK e).
    - by destruct (cloneOK e). }
  destruct interactive; cbn [negb] in Hrun.
  2: { left. by rewrite !Hrun. }
  destruct (promptURL e) as [inputURL|] eqn:Hp.
  2: { left. by rewrite !Hrun. }
  destruct (String.eqb_spec inputURL "") as [Hi|Hi].
  { left. by rewrite !Hrun. }
  destruct (setRegistryOK e) eqn:Hs; cbn [negb] in Hrun.
  2: { left. by rewrite !Hrun. }
  rewrite Hrun.
  match goal with |- context [sync_fetched inputURL ?w1] =>
    destruct (Hfetch inputURL w1 Hi eq_refl eq_refl) as [H|(wf & H)]
  end; [by left|].
  right. exists inputURL, wf.
  destruct H as (? & ? & ? & (? & ? & ?) & ?). by repeat split.
Qed.

End SyncSkillsFacts.

(** ** The claims about the sync orchestrator *)
Section SyncClaims.
Import GoStrings Config Skills Commands.
Local Arguments String.append : simpl nomatch.

Lemma is_Some_GetSkill id r :
  is_Some (GetSkill id r) ↔ is_Some (load r !! id).
Proof. unfold GetSkill. destruct (load r !! id); by rewrite ?is_Some_alt. Qed.

Lemma scan_entries_cons rs n0 x0 entries :
  scan_entries rs ((n0, x0) :: entries)
  = if is_skill_dir rs n0 x0 then (n0, x0) :: scan_entries rs entries
    else scan_entries rs entries.
Proof.
  destruct x0; cbn [scan_entries is_skill_dir]; try done.
  destruct (HasPrefix n0 "."); cbn [negb andb]; [done|].
  by destruct (stat_ok _ _).
Qed.

Lemma elem_of_scan_entries rs entries n x :
  (n, x) ∈ scan_entries rs entries ↔
  (n, x) ∈ entries ∧ is_skill_dir rs n x = true.
Proof.
  induction entries as [|[n0 x0] entries IH].
  - split; [by intros ?%elem_of_nil|by intros [?%elem_of_nil _]].
  - rewrite scan_entries_cons.
    destruct (is_skill_dir rs n0 x0) eqn:E.
    + rewrite !elem_of_cons, IH. split.
      * intros [[= -> ->]|[? ?]]; auto.
      * intros [[?|?] ?]; auto.
    + rewrite IH, elem_of_cons. split.
      * intros [? ?]; auto.
      * intros [[[= -> ->]|?] ?]; [congruence|auto].
Qed.

Lemma scan_entries_NoDup rs entries :
  NoDup entries.*1 → NoDup (scan_entries rs entries).*1.
Proof.
  induction entries as [|[n0 x0] entries IH]; [done|].
  rewrite fmap_cons, NoDup_cons. intros [Hn Hnd].
  rewrite scan_entries_cons.
  destruct (is_skill_dir rs n0 x0); [|by apply IH].
  rewrite fmap_cons, NoDup_cons. split; [|by apply IH].
  intros ([n x] & Hn0 & Hin%elem_of_scan_entries)%list_elem_of_fmap.
  cbn in Hn0. subst n0.
  destruct Hn. apply list_elem_of_fmap. exists (n, x). by destruct Hin.
Qed.

Lemma found_at_valid e url :
  valid_upstream e →
  valid_names (found_at e url) ∧ NoDup (found_at e url).*1.
Proof.
  intros Hv. unfold found_at, scanForSkills.
  destruct (readDir e _) as [entries|] eqn:E.
  - destruct (Hv _ _ E) as [Hnd Hnames]. split.
    + intros n x [Hin _]%elem_of_scan_entries. by eapply Hnames.
    + by apply scan_entries_NoDup.
  - split; [by intros n x ?%elem_of_nil|constructor].
Qed.

(** In a well-formed registry no identifier has the safe name of another
    registry skill. *)
Lemma well_formed_no_clash w n :
  well_formed_registry w → valid_name n →
  no_clash n (load (registry w)).
Proof.
  intros Hw Hn id Hid%is_Some_GetSkill Hs.
  rewrite GetSafeName_regid in Hs by done.
  destruct (Hw id Hid) as [[loc ->]|[[loc ->]|(n' & -> & Hn')]].
  - change ("github:" +:+ loc) with ("github" +:+ ":" +:+ loc) in Hs.
    rewrite GetSafeName_split in Hs by done. discriminate Hs.
  - change ("local:" +:+ loc) with ("local" +:+ ":" +:+ loc) in Hs.
    rewrite GetSafeName_split in Hs by done. discriminate Hs.
  - fold (regid n') in *. rewrite GetSafeName_regid in Hs by done.
    by apply (inj (String.append _)) in Hs as ->.
Qed.

(** What a second run of [SyncSkills] does on the state the first run
    left. *)
Lemma SyncSkills_second_run interactive e w :
  valid_upstream e →
  let w1 := (SyncSkills interactive e w).2 in
  let r2 := (SyncSkills interactive e w1).1 in
  let w2 := (SyncSkills interactive e w1).2 in
  added r2 = 0%nat ∧ updated r2 = 0%nat ∧ removed r2 = 0%nat ∧
  replaced r2 = 0%nat ∧
  content (registry w2) = content (registry w1) ∧
  skillDirs w2 = skillDirs w1 ∧
  ((∀ n x url, (n, x) ∈ found_at e url →
      no_clash n (load (registry w))) →
   repo w2 = repo w1).
Proof.
  intros Hv. cbn zeta.
  destruct (SyncSkills_cases e interactive w)
    as [(_ & _ & ->)|(url & wf & Hg & Hurl & Hf & Hc & Hcl & Hsame & Hrun)].
  { by repeat split. }
  destruct (found_at_valid e url Hv) as [Hnames Hnd].
  rewrite Hrun.
  set (sub := Git.Path (Git.NormalizeURL url)).
  set (w1 := (sync_found e sub (found_at e url) wf).2).
  destruct (sync_found_fields e sub (found_at e url) wf) as [Hc1 Hcl1].
  fold w1 in Hc1, Hcl1. rewrite Hc in Hc1. rewrite Hcl in Hcl1.
  rewrite SyncSkills_configured, Hc1 by (by rewrite ?Hc1).
  unfold sync_fetched. rewrite Hcl1. cbn [negb].
  destruct (pullOK e); [|by repeat split].
  unfold sync_scanned.
  assert ((length (found_at e url) =? 0)%nat = false) as ->
    by (by destruct (found_at e url)).
  fold sub.
  destruct (sync_found_again e sub (found_at e url) w1)
    as (? & ? & ? & ? & ? & ? & ? & ? & ? & ? & Hrepo).
  { by apply sync_found_stable. }
  repeat split; try done.
  intros Hclash. apply Hrepo, sync_found_copies; try done.
  intros n x Hin. destruct Hsame as (-> & _). by eapply Hclash.
Qed.


Lemma example_env_valid : valid_upstream example_env.
Proof.
  intros p entries H. cbn in H.
  destruct (String.eqb p ""); [|discriminate H]. injection H as <-.
  split.
  - apply (bool_decide_unpack _). vm_compute. exact I.
  - intros n x Hin. unfold example_root in Hin.
    repeat (apply elem_of_cons in Hin as [[= -> ->]|Hin];
            [reflexivity|]).
    by apply elem_of_nil in Hin.
Defined.

Lemma example_world_well_formed : well_formed_registry example_world.
Proof.
  intros id [v Hid]%is_Some_GetSkill. cbn [registry example_world] in Hid.
  rewrite !AddSkill_save, !load_save in Hid.
  apply lookup_insert_Some in Hid as [[<- _]|[_ Hid]].
  { right. right. by exists "create-migration". }
  apply lookup_insert_Some in Hid as [[<- _]|[_ Hid]].
  { right. left. by exists "create-migration". }
  apply lookup_insert_Some in Hid as [[<- _]|[_ Hid]].
  { left. by exists "org/repo/skills/create-migration". }
  unfold load in Hid. cbn [content] in Hid. by rewrite lookup_empty in Hid.
Defined.


(** In the example both runs go through the two loops: the second finds the
    two skills unchanged. *)
Example second_run_counts_unchanged :
  let w1 := (SyncSkills false example_env example_world).2 in
  (SyncSkills false example_env example_world).1
  = mkReport 1 1 0 2 1 0 0
  ∧ (SyncSkills false example_env w1).1 = mkReport 0 0 2 0 0 0 0.
Proof. by vm_compute. Qed.

(** Why the theorem on two runs asks for identifiers of the data model:
    in the setting [clash_world] the first run prunes [registry:a/b] and
    with it the directory [registry__a__b] it has just filled for
    [registry:a__b]; the second run, which still reports nothing added,
    updated or removed, fills the directory again. *)
Example safe_name_clash_outside_data_model :
  let w1 := (SyncSkills false clash_env clash_world).2 in
  let r2 := (SyncSkills false clash_env w1).1 in
  let w2 := (SyncSkills false clash_env w1).2 in
  ¬ well_formed_registry clash_world
  ∧ repo w1 !! "registry__a__b" = None
  ∧ repo w2 !! "registry__a__b" = Some (Dir [("SKILL.md", File "ab")])
  ∧ added r2 = 0%nat ∧ updated r2 = 0%nat ∧ removed r2 = 0%nat.
Proof.
  split; [|by vm_compute].
  intros Hw. destruct (Hw "registry:a/b") as [[l E]|[[l E]|(n & E & Hn)]].
  - vm_compute. eauto.
  - discriminate E.
  - discriminate E.
  - injection E as <-. discriminate Hn.
Qed.

Lemma removeSkillsWithLinkName_spec linkName keepID ps w :
  let dups := dup_ids linkName keepID (GetAllSkills (registry w)) in
  let w' := (removeSkillsWithLinkName linkName keepID ps w).2 in
  repo w' = delete_list (GetRepoPath <$> dups) (repo w) ∧
  (dups ≠ [] → ∀ p, p ∈ ps → link_gone (SkillDir p) linkName (skillDirs w')).
Proof.
  cbn zeta. unfold removeSkillsWithLinkName.
  pose proof (removeSkillsWithLinkName_loop_spec
                (GetAllSkills (registry w)) linkName keepID ps 0 0 w) as H.
  destruct (removeSkillsWithLinkName_loop _ _ _ _ _ _ _) as [[rs rl] w'].
  by destruct H as (_ & _ & _ & _ & ? & _ & ? & _).
Qed.

Lemma sync_found_keeps e subPath found w n x :
  valid_names found → (n, x) ∈ found →
  is_Some (load (registry w) !! regid n) →
  is_Some (load (registry (sync_found e subPath found w).2) !! regid n).
Proof.
  intros Hv Hin Hw. rewrite sync_found_unfold, prune_lookup.
  assert (valid_name n) as Hn by (by eapply Hv).
  assert (is_Some (load (registry
            (sync_loop e subPath found no_report w).2) !! regid n))
    as [v ->].
  { clear Hin. generalize no_report as rp. revert w Hw.
    induction found as [|[n0 x0] found IH]; intros w Hw rp; [done|].
    rewrite sync_loop_cons. apply IH.
    { intros ???. eapply Hv. by right. }
    destruct (decide (regid n = regid n0)) as [E|Hne].
    - apply regid_inj in E as <-. rewrite step_lookup_regid.
      by destruct (copy_ok e x0).
    - rewrite step_lookup_other, decide_False; [done| |done].
      rewrite GetLinkName_regid by done. by intros <-. }
  assert (default false (foundSet_of found ∅ !! regid n) = true) as ->
    by (apply foundSet_is_found; by exists n, x).
  by rewrite andb_false_r.
Qed.

(** A configured run whose clone or pull succeeds gets to the scan. *)
Lemma SyncSkills_reaches_scan interactive e w :
  gitVersionOK e = true → configRegistry w ≠ "" →
  (if cloned w then pullOK e else cloneOK e) = true →
  ∃ wf, registry wf = registry w ∧
        SyncSkills interactive e w = sync_scanned e (configRegistry w) wf.
Proof.
  intros Hg Hc Hok. rewrite SyncSkills_configured by done.
  unfold sync_fetched. destruct (cloned w); cbn [negb]; rewrite Hok.
  - by exists w.
  - by eexists {| registry := registry w |}.
Qed.



Lemma lookup_entry_None name entries :
  lookup_entry name entries = None ↔ ∀ x, (name, x) ∉ entries.
Proof.
  induction entries as [|[n0 x0] entries IH]; cbn [lookup_entry].
  - split; [by intros _ x ?%elem_of_nil|done].
  - destruct (String.eqb_spec n0 name) as [->|Hne].
    + split; [done|]. intros H. destruct (H x0). left.
    + rewrite IH. split.
      * intros H x [[= ? ?]|?]%elem_of_cons; [done|by eapply H].
      * intros H x Hin. eapply H. by right.
Qed.

Lemma lookup_entry_Some name entries x :
  lookup_entry name entries = Some x → (name, x) ∈ entries.
Proof.
  induction entries as [|[n0 x0] entries IH]; cbn [lookup_entry]; [done|].
  destruct (String.eqb_spec n0 name) as [->|Hne].
  - intros [= ->]. left.
  - intros H. right. by apply IH.
Qed.



End SyncClaims.

(** ** Identifiers and names: further properties of [config] *)
Section NameFacts.
Import GoStrings Config.
Local Arguments String.append : simpl nomatch.

Lemma last_index_Some i j s :
  last_index_from i s "/" = Some j →
  (i ≤ j)%nat ∧ count_char "/" (slice_from s (S (j - i))) = 0%nat.
Proof.
  revert i. induction s as [|c s IH]; intros i; simpl; [done|].
  rewrite andb_true_r.
  destruct (last_index_from (S i) s "/") as [k|] eqn:E.
  - intros [= ->]. apply IH in E as [Hle E]. split; [lia|].
    by replace (j - i)%nat with (S (j - S i)) by lia.
  - destruct (Ascii.eqb_spec c "/") as [->|Hc]; [|done].
    intros [= ->]. split; [lia|]. rewrite Nat.sub_diag. simpl.
    clear IH. revert E. generalize (S j). induction s as [|d s IH];
      intros n; simpl; [done|]. rewrite andb_true_r.
    destruct (last_index_from (S n) s "/") eqn:E'; [done|].
    destruct (Ascii.eqb d "/"); [done|]. intros _. by apply (IH (S n)).
Qed.

Lemma last_index_None i s :
  last_index_from i s "/" = None → count_char "/" s = 0%nat.
Proof.
  revert i. induction s as [|d s IH]; intros n; simpl; [done|].
  rewrite andb_true_r.
  destruct (last_index_from (S n) s "/") eqn:E'; [done|].
  destruct (Ascii.eqb d "/"); [done|]. intros _. by apply (IH (S n)).
Qed.

Lemma slice_from_suffix s n : ∃ p, s = p +:+ slice_from s n.
Proof. exists (slice_to s n). by rewrite slice_to_from. Qed.

Lemma count_char_slice_from c s n :
  count_char c s = 0%nat → count_char c (slice_from s n) = 0%nat.
Proof.
  revert s. induction n as [|n IH]; intros [|d s]; simpl; try done.
  destruct (Ascii.eqb d c); [done|]. apply IH.
Qed.

Lemma count_slash_ReplaceAll s :
  count_char "/" (ReplaceAll s "/" "__") = 0%nat.
Proof.
  induction s as [|c s IH]; [done|]. rewrite ReplaceAll_slash_cons.
  destruct (Ascii.eqb c "/") eqn:E; simpl; [done|]. by rewrite E.
Qed.

Lemma SplitN2_free s c :
  count_char c s = 0%nat → SplitN2 s (String c "") = [s].
Proof. intros H. unfold SplitN2. by rewrite Index_char_free. Qed.

Lemma index_from_split i j s sub :
  index_from i s sub = Some j →
  (i ≤ j)%nat ∧
  s = slice_to s (j - i) +:+ sub +:+ slice_from s (j - i + len sub).
Proof.
  revert i. induction s as [|c s IH]; intros i; simpl.
  - destruct (HasPrefix "" sub) eqn:E; [|done]. intros [= ->].
    rewrite Nat.sub_diag. split; [done|].
    apply HasPrefix_inv in E as [t E]. destruct sub; [done|done].
  - destruct (HasPrefix (String c s) sub) eqn:E.
    + intros [= ->]. rewrite Nat.sub_diag. split; [done|]. simpl.
      apply HasPrefix_inv in E as [t E]. rewrite E at 2.
      by rewrite slice_from_app.
    + intros H. apply IH in H as [Hle H]. split; [lia|].
      replace (j - i)%nat with (S (j - S i)) by lia. simpl.
      by rewrite <- H.
Qed.

(** Replacing every [__] by [/] and every [/] back gives the text again,
    when it held no [/] to begin with. *)
Lemma ReplaceAll_back_bounded n s :
  (len s ≤ n)%nat → count_char "/" s = 0%nat →
  ReplaceAll (ReplaceAll s "__" "/") "/" "__" = s.
Proof.
  revert s. induction n as [|n IH]; intros [|c s] Hn Hs; try done;
    unfold len in *; simpl in Hn; [lia|].
  simpl in Hs. destruct (Ascii.eqb_spec c "/") as [->|Hc]; [done|].
  unfold ReplaceAll at 2. cbn [replace_loop].
  destruct (HasPrefix (String c s) "__") eqn:E.
  - apply HasPrefix_inv in E as [t E]. injection E as -> ->.
    cbn [len String.length Nat.sub replace_loop].
    change ("/" +:+ replace_loop 0 t "__" "/")
      with (String "/" (ReplaceAll t "__" "/")).
    rewrite ReplaceAll_slash_cons. simpl in Hn, Hs |- *.
    rewrite IH by (simpl; lia || done). done.
  - fold (ReplaceAll s "__" "/"). rewrite ReplaceAll_slash_cons.
    destruct (Ascii.eqb_spec c "/"); [done|].
    rewrite IH by (simpl; lia || done). done.
Qed.

Lemma ReplaceAll_back s :
  count_char "/" s = 0%nat →
  ReplaceAll (ReplaceAll s "__" "/") "/" "__" = s.
Proof. by apply (ReplaceAll_back_bounded (len s)). Qed.

(** X1: for every identifier, [GetLinkName] returns a suffix of the
    identifier that holds no slash: joined to a skill directory, the link
    name never leads below an entry of that directory. *)
Theorem GetLinkName_suffix_no_slash (id : string) :
  Contains (GetLinkName id) "/" = false
  ∧ ∃ prefix, id = prefix +:+ GetLinkName id.
Proof.
  unfold GetLinkName.
  set (parts := SplitN2 id ":").
  set (name := if (length parts =? 2)%nat then nth 1 parts "" else id).
  assert (∃ p, id = p +:+ name) as [p Hp].
  { subst name parts. unfold SplitN2.
    destruct (Index id ":" <? 0); simpl; [by exists ""|].
    destruct (slice_from_suffix id (Z.to_nat (Index id ":") + len ":"))
      as [p Hp]. by exists p. }
  unfold LastIndex.
  destruct (last_index_from 0 name "/") as [j|] eqn:E.
  - destruct (Z.leb_spec 0 (Z.of_nat j)); [|lia].
    replace (Z.to_nat (Z.of_nat j + 1)) with (S (j - 0)) by lia.
    apply last_index_Some in E as [_ E]. split.
    + by apply Contains_char_false.
    + destruct (slice_from_suffix name (S (j - 0))) as [q Hq].
      exists (p +:+ q). by rewrite app_assoc, <- Hq.
  - simpl. apply last_index_None in E. split.
    + by apply Contains_char_false.
    + by exists p.
Qed.

(** X2: the safe name of an identifier holds no slash, so the
    repository path of a skill is one entry of the repository directory:
    for an identifier [name] without a colon, and for [name:locator]
    whenever [name] holds no slash either. *)
Theorem GetSafeName_no_slash (name locator : string) :
  Contains name ":" = false →
  Contains (GetSafeName name) "/" = false
  ∧ (Contains name "/" = false →
     Contains (GetSafeName (name +:+ ":" +:+ locator)) "/" = false).
Proof.
  intros Hs. split.
  - apply Contains_char_false. apply Contains_char_false in Hs.
    unfold GetSafeName. rewrite SplitN2_free by done. simpl.
    apply count_slash_ReplaceAll.
  - intros Hs'%Contains_char_false. apply Contains_char_false.
    rewrite GetSafeName_split by done.
    by rewrite !count_char_app, Hs', count_slash_ReplaceAll.
Qed.

Lemma GetSafeName_no_slash_witness :
  Contains (GetSafeName "github") "/" = false
  ∧ Contains (GetSafeName ("github" +:+ ":" +:+ "user/repo/skill")) "/"
    = false.
Proof.
  destruct (GetSafeName_no_slash "github" "user/repo/skill") as [H1 H2];
    [done|].
  split; [exact H1|by apply H2].
Defined.

(** X3: [ParseSafeName] is a right inverse of [GetSafeName] on directory
    names: for a name that holds neither a colon nor a slash,
    [GetSafeName (ParseSafeName safe) = safe], so every such entry of the
    repository directory is the safe name of the identifier parsed from
    it. *)
Theorem GetSafeName_ParseSafeName (safe : string) :
  Contains safe ":" = false → Contains safe "/" = false →
  GetSafeName (ParseSafeName safe) = safe.
Proof.
  intros Hc%Contains_char_false Hs%Contains_char_false.
  unfold ParseSafeName, SplitN2, Index.
  destruct (index_from 0 safe "__") as [m|] eqn:E.
  - destruct (Z.ltb_spec (Z.of_nat m) 0); [lia|]. rewrite Nat2Z.id.
    cbn [length Nat.ltb Nat.leb nth].
    apply index_from_split in E as [_ E]. rewrite Nat.sub_0_r in E.
    rewrite GetSafeName_split
      by (by apply Contains_char_false, count_char_slice_to).
    rewrite ReplaceAll_back by (by apply count_char_slice_from).
    by rewrite <- E.
  - simpl. unfold GetSafeName. rewrite SplitN2_free by done. simpl.
    by apply ReplaceAll_free.
Qed.

Lemma GetSafeName_ParseSafeName_witness :
  GetSafeName (ParseSafeName "github__user__repo___skill")
  = "github__user__repo___skill".
Proof. by apply GetSafeName_ParseSafeName. Defined.

End NameFacts.

(** ** The registry as a sorted slice: further properties of [skills] *)
Section RegistryFacts.
Import Skills.

Lemma Sorted_by_ID_filter (P : Skill → Prop) `{!∀ x, Decision (P x)} l :
  Sorted by_ID l → Sorted by_ID (filter P l).
Proof.
  intros Hs%(Sorted_StronglySorted by_ID). apply StronglySorted_Sorted.
  induction Hs as [|x l Hl IH Hx]; [constructor|].
  rewrite filter_cons. destruct (decide (P x)); [|done].
  constructor; [done|]. apply Forall_forall. intros y [_ Hy]%list_elem_of_filter.
  by eapply Forall_forall in Hx.
Qed.

Lemma NoDup_ID_filter (P : Skill → Prop) `{!∀ x, Decision (P x)} l :
  NoDup (ID <$> l) → NoDup (ID <$> filter P l).
Proof.
  intros Hnd. eapply sublist_NoDup; [done|].
  apply fmap_sublist, sublist_filter.
Qed.

(** Two sorted slices with distinct identifiers and the same elements are
    equal. *)
Lemma sorted_slices_eq (l1 l2 : list Skill) :
  NoDup (ID <$> l1) → NoDup (ID <$> l2) → (∀ sk, sk ∈ l1 ↔ sk ∈ l2) →
  Sorted by_ID l1 → Sorted by_ID l2 → l1 = l2.
Proof.
  intros H1 H2 Hin S1 S2. apply sorted_by_ID_unique; try done.
  apply NoDup_Permutation; [by eapply NoDup_fmap_1..|done].
Qed.

Lemma load_RemoveSkill id r : load (RemoveSkill id r) = delete id (load r).
Proof. done. Qed.

Lemma GetSkill_AddSkill_ne id id' t c p r :
  id' ≠ id → GetSkill id' (AddSkill id t c p r) = GetSkill id' r.
Proof.
  intros Hne. rewrite AddSkill_save. unfold GetSkill.
  by rewrite load_save, lookup_insert_ne.
Qed.

Lemma GetSkill_AddSkill id t c p r :
  GetSkill id (AddSkill id t c p r) = Some (mkSkill id c t p).
Proof.
  rewrite AddSkill_save. unfold GetSkill.
  by rewrite load_save, lookup_insert_eq.
Qed.

(** X4: for every registry file, [GetAllSkills] lists each registered
    skill exactly once, in ascending order of identifiers: the slice is
    sorted, no identifier occurs twice, it has as many elements as the
    file has records, and a skill is in it exactly when [GetSkill] returns
    that skill for its identifier. *)
Theorem GetAllSkills_lists_registry (r : RegistryFile) :
  Sorted by_ID (GetAllSkills r)
  ∧ NoDup (ID <$> GetAllSkills r)
  ∧ length (GetAllSkills r) = size (load r)
  ∧ ∀ sk, sk ∈ GetAllSkills r ↔ GetSkill (ID sk) r = Some sk.
Proof.
  split; [apply GetAllSkills_Sorted|].
  split; [apply GetAllSkills_NoDup|].
  split; [|apply elem_of_GetAllSkills].
  rewrite GetAllSkills_Permutation. unfold collect.
  by rewrite length_fmap, length_map_to_list.
Qed.


(** X6: [RemoveSkill(id)] takes the skill [id] out of the slice of
    [GetAllSkills] and leaves every other skill in its place; for an
    identifier that is not registered the slice is unchanged, though the
    file is written again. *)
Theorem RemoveSkill_GetAllSkills (id : string) (r : RegistryFile) :
  GetAllSkills (RemoveSkill id r)
  = filter (λ sk, ID sk ≠ id) (GetAllSkills r)
  ∧ (GetSkill id r = None →
     GetAllSkills (RemoveSkill id r) = GetAllSkills r)
  ∧ writes (RemoveSkill id r) = S (writes r).
Proof.
  assert (GetAllSkills (RemoveSkill id r)
          = filter (λ sk, ID sk ≠ id) (GetAllSkills r)) as E.
  { apply sorted_slices_eq.
    - apply GetAllSkills_NoDup.
    - apply NoDup_ID_filter, GetAllSkills_NoDup.
    - intros sk. rewrite list_elem_of_filter, !elem_of_GetAllSkills.
      rewrite !GetSkill_Some. rewrite load_RemoveSkill.
      split.
      + intros (stored & [Hne H]%lookup_delete_Some & Hsk). eauto.
      + intros [Hne (stored & H & Hsk)]. exists stored.
        split; [|done]. apply lookup_delete_Some. eauto.
    - apply GetAllSkills_Sorted.
    - apply Sorted_by_ID_filter, GetAllSkills_Sorted. }
  split; [done|]. split; [|done].
  intros Hnone%GetSkill_None. unfold GetAllSkills.
  by rewrite load_RemoveSkill, delete_id.
Qed.

Lemma RemoveSkill_GetAllSkills_witness :
  GetAllSkills
    (RemoveSkill "local:absent"
       (AddSkill "local:local-skill" "local" "" "" (mkFile None 0)))
  = GetAllSkills (AddSkill "local:local-skill" "local" "" "" (mkFile None 0)).
Proof.
  by apply (RemoveSkill_GetAllSkills "local:absent"
              (AddSkill "local:local-skill" "local" "" "" (mkFile None 0))).
Defined.



End RegistryFacts.

(** ** [copyDir] *)
Section TreeFacts.
Import Commands.

Lemma copyDir_cons rs name x es :
  copyDir rs (Dir ((name, x) :: es))
  = match x with
    | Dir _ =>
        let '(sub, ok) := copyDir rs x in
        if ok then
          let '(rest, ok') := copyDir rs (Dir es) in
          ((name, Dir sub) :: rest, ok')
        else ([(name, Dir sub)], false)
    | File data =>
        let '(rest, ok') := copyDir rs (Dir es) in
        ((name, File data) :: rest, ok')
    | Symlink t =>
        match rs t with
        | ToFile data =>
            let '(rest, ok') := copyDir rs (Dir es) in
            ((name, File data) :: rest, ok')
        | ToDir => ([(name, File "")], false)
        | Dangling => ([], false)
        end
    end.
Proof. by destruct x. Qed.

Lemma no_symlink_cons name x es :
  no_symlink (Dir ((name, x) :: es)) = no_symlink x && no_symlink (Dir es).
Proof. done. Qed.

Lemma links_to_files_cons rs name x es :
  links_to_files rs (Dir ((name, x) :: es))
  = links_to_files rs x && links_to_files rs (Dir es).
Proof. done. Qed.

Lemma node_size_cons name x es :
  node_size (Dir ((name, x) :: es))
  = (node_size x + node_size (Dir es))%nat.
Proof. simpl. lia. Qed.

Lemma node_size_pos x : (1 ≤ node_size x)%nat.
Proof. destruct x; simpl; lia. Qed.

Lemma copyDir_faithful_bounded rs n es :
  (node_size (Dir es) ≤ n)%nat → no_symlink (Dir es) = true →
  copyDir rs (Dir es) = (es, true).
Proof.
  revert es. induction n as [|n IH]; intros es Hn Hs.
  { pose proof (node_size_pos (Dir es)). lia. }
  destruct es as [|[name x] es]; [done|].
  rewrite copyDir_cons. rewrite no_symlink_cons in Hs.
  apply andb_true_iff in Hs as [Hx Hes]. rewrite node_size_cons in Hn.
  pose proof (node_size_pos x). pose proof (node_size_pos (Dir es)).
  destruct x as [data|sub|t].
  - by rewrite (IH es) by (done || lia).
  - rewrite (IH sub) by (done || lia). by rewrite (IH es) by (done || lia).
  - done.
Qed.

Lemma copyDir_result_bounded rs n es :
  (node_size (Dir es) ≤ n)%nat →
  no_symlink (Dir (copyDir rs (Dir es)).1) = true
  ∧ (copyDir rs (Dir es)).2 = links_to_files rs (Dir es)
  ∧ ((copyDir rs (Dir es)).2 = true →
     (copyDir rs (Dir es)).1.*1 = es.*1).
Proof.
  revert es. induction n as [|n IH]; intros es Hn.
  { pose proof (node_size_pos (Dir es)). lia. }
  destruct es as [|[name x] es]; [done|].
  rewrite copyDir_cons, links_to_files_cons. rewrite node_size_cons in Hn.
  pose proof (node_size_pos x). pose proof (node_size_pos (Dir es)).
  destruct (IH es) as (He1 & He2 & He3); [lia|].
  destruct x as [data|sub|t].
  - destruct (copyDir rs (Dir es)) as [rest ok'] eqn:E.
    cbn [fst snd links_to_files] in *. rewrite no_symlink_cons, He1.
    repeat split; [done|]. intros Hok. rewrite !fmap_cons. f_equal. auto.
  - destruct (IH sub) as (Hs1 & Hs2 & Hs3); [lia|].
    destruct (copyDir rs (Dir sub)) as [sub' ok] eqn:Esub.
    cbn [fst snd] in *. rewrite <- Hs2.
    destruct ok.
    + destruct (copyDir rs (Dir es)) as [rest ok'] eqn:E.
      cbn [fst snd] in *. rewrite no_symlink_cons, Hs1, He1.
      repeat split; [done|]. intros Hok. rewrite !fmap_cons. f_equal. auto.
    + cbn [fst snd]. rewrite no_symlink_cons, Hs1. done.
  - cbn [links_to_files]. destruct (rs t) as [|data|]; [done| |done].
    destruct (copyDir rs (Dir es)) as [rest ok'] eqn:E.
    cbn [fst snd] in *. rewrite no_symlink_cons, He1.
    repeat split; [done|]. intros Hok. rewrite !fmap_cons. f_equal. auto.
Qed.





End TreeFacts.

(** ** What a sync leaves behind *)
Section SyncEffects.
Import GoStrings Config Skills Commands.
Local Arguments String.append : simpl nomatch.

Variable e : Env.
Variable subPath : string.

Lemma only_unlinks_refl dirs sd : only_unlinks dirs sd sd.
Proof.
  split; [done|]. split; [|split; [done|]].
  - intros dir d d' H1 H2. by assert (d = d') as -> by congruence.
  - intros dir d name x Hd Hx _. by exists d.
Qed.

Lemma only_unlinks_trans dirs sd1 sd2 sd3 :
  only_unlinks dirs sd1 sd2 → only_unlinks dirs sd2 sd3 →
  only_unlinks dirs sd1 sd3.
Proof.
  intros (A1 & B1 & C1 & D1) (A2 & B2 & C2 & D2). split; [|split; [|split]].
  - intros dir. by rewrite A1.
  - intros dir d3 d1 H3 H1.
    destruct (proj2 (A2 dir) (mk_is_Some _ _ H3)) as [d2 H2].
    transitivity d2; eauto.
  - intros dir Hd. by rewrite C1, C2.
  - intros dir d3 name x H3 Hx Hr.
    destruct (D2 dir d3 name x H3 Hx Hr) as (d2 & H2 & Hx2). eauto.
Qed.

Lemma removeSkillLinkIfPresent_only_unlinks dirs skillID p w :
  SkillDir p ∈ dirs →
  only_unlinks dirs (skillDirs (removeSkillLinkIfPresent skillID p w).2)
    (skillDirs w).
Proof.
  intros Hp. unfold removeSkillLinkIfPresent.
  destruct (skillDirs w !! SkillDir p) as [d|] eqn:Hd;
    [|apply only_unlinks_refl].
  destruct (d !! GetLinkName skillID) as [x|] eqn:Hx;
    [|apply only_unlinks_refl].
  destruct (removable x) eqn:Hrem; [|apply only_unlinks_refl].
  cbn [snd skillDirs set_skillDirs]. split; [|split; [|split]].
  - intros dir. destruct (decide (dir = SkillDir p)) as [->|Hne].
    + rewrite lookup_insert_eq, Hd. by split.
    + by rewrite lookup_insert_ne.
  - intros dir d0 d'. destruct (decide (dir = SkillDir p)) as [->|Hne].
    + rewrite lookup_insert_eq, Hd. intros [= <-] [= <-].
      apply delete_subseteq.
    + rewrite lookup_insert_ne by done. intros H1 H2.
      by assert (d0 = d') as -> by congruence.
  - intros dir Hdir. rewrite lookup_insert_ne; [done|]. by intros <-.
  - intros dir d0 name x0 Hd0 Hx0 Hr0.
    destruct (decide (dir = SkillDir p)) as [->|Hne].
    + rewrite lookup_insert_eq. eexists. split; [done|].
      assert (d0 = d) as -> by congruence.
      rewrite lookup_delete_ne; [done|]. intros <-. congruence.
    + rewrite lookup_insert_ne by done. by exists d0.
Qed.

Lemma removeLinks_only_unlinks dirs skillID ps count w :
  (∀ p, p ∈ ps → SkillDir p ∈ dirs) →
  only_unlinks dirs (skillDirs (removeLinks skillID ps count w).2)
    (skillDirs w).
Proof.
  revert count w. induction ps as [|p ps IH]; intros count w Hps;
    cbn [removeLinks]; [apply only_unlinks_refl|].
  pose proof (removeSkillLinkIfPresent_only_unlinks dirs skillID p w) as H1.
  destruct (removeSkillLinkIfPresent skillID p w) as [gone w1].
  eapply only_unlinks_trans; [apply IH|apply H1].
  - intros q Hq. apply Hps. by right.
  - apply Hps. by left.
Qed.

Lemma removeSkillsWithLinkName_loop_only_unlinks dirs l linkName keepID ps
    rs rl w :
  (∀ p, p ∈ ps → SkillDir p ∈ dirs) →
  only_unlinks dirs
    (skillDirs (removeSkillsWithLinkName_loop l linkName keepID ps
                  rs rl w).2)
    (skillDirs w).
Proof.
  intros Hps. revert rs rl w.
  induction l as [|sk l IH]; intros rs rl w;
    cbn [removeSkillsWithLinkName_loop]; [apply only_unlinks_refl|].
  destruct (String.eqb (ID sk) keepID); [apply IH|].
  destruct (negb _); [apply IH|].
  pose proof (removeLinks_only_unlinks dirs (ID sk) ps rl
                (RemoveAll (GetRepoPath (ID sk)) w) Hps) as H1.
  destruct (removeLinks (ID sk) ps rl _) as [rl1 w1].
  eapply only_unlinks_trans; [apply IH|apply H1].
Qed.

Lemma sync_step_skillDirs n x rp w :
  skillDirs (sync_step e subPath n x rp w).2
  = skillDirs (removeSkillsWithLinkName n (regid n)
                 (detectedProjects e) w).2.
Proof.
  unfold sync_step. cbn [sync_loop]. fold (regid n).
  destruct (removeSkillsWithLinkName _ _ _ _) as [[rs rl] wd].
  destruct (copyDir (resolve e) x) as [copied ok]. by destruct ok.
Qed.

Lemma sync_loop_only_unlinks found rp w :
  only_unlinks (SkillDir <$> detectedProjects e)
    (skillDirs (sync_loop e subPath found rp w).2) (skillDirs w).
Proof.
  revert rp w. induction found as [|[n x] found IH]; intros rp w;
    [apply only_unlinks_refl|].
  rewrite sync_loop_cons. eapply only_unlinks_trans; [apply IH|].
  rewrite sync_step_skillDirs.
  apply removeSkillsWithLinkName_loop_only_unlinks.
  intros p Hp. apply list_elem_of_fmap. by exists p.
Qed.

Lemma prune_loop_only_unlinks foundSet l rp w :
  only_unlinks (SkillDir <$> detectedProjects e)
    (skillDirs (prune_loop e foundSet l rp w).2) (skillDirs w).
Proof.
  revert rp w. induction l as [|sk l IH]; intros rp w; cbn [prune_loop];
    [apply only_unlinks_refl|].
  destruct (_ && _); [|apply IH].
  pose proof (removeLinks_only_unlinks (SkillDir <$> detectedProjects e)
                (ID sk) (detectedProjects e) (linkCleanup rp)
                (RemoveAll (GetRepoPath (ID sk)) w)) as H1.
  destruct (removeLinks (ID sk) _ _ _) as [cleanup w1].
  eapply only_unlinks_trans; [apply IH|apply H1].
  intros p Hp. apply list_elem_of_fmap. by exists p.
Qed.

Lemma sync_found_only_unlinks found w :
  only_unlinks (SkillDir <$> detectedProjects e)
    (skillDirs (sync_found e subPath found w).2) (skillDirs w).
Proof.
  rewrite sync_found_unfold.
  eapply only_unlinks_trans;
    [apply prune_loop_only_unlinks|apply sync_loop_only_unlinks].
Qed.

(** A record whose link name is not the name of a found skill goes
    through the copy loop unchanged. *)
Lemma loop_lookup_frame found rp w id :
  valid_names found → GetLinkName id ∉ found.*1 →
  load (registry (sync_loop e subPath found rp w).2) !! id
  = load (registry w) !! id.
Proof.
  revert rp w. induction found as [|[n x] found IH]; intros rp w Hv Hl;
    [done|].
  rewrite sync_loop_cons, IH.
  - rewrite step_lookup_other.
    + rewrite decide_False; [done|]. intros E. apply Hl. rewrite E.
      rewrite fmap_cons. by left.
    + intros ->. apply Hl. rewrite GetLinkName_regid.
      * rewrite fmap_cons. by left.
      * eapply Hv. by left.
  - intros n' x' Hin. eapply Hv. by right.
  - intros Hin. apply Hl. rewrite fmap_cons. by right.
Qed.

(** The directory of a record that is gone stays gone, as long as the
    copies go to other directories. *)
Lemma loop_dir_gone found rp w id :
  (∀ n x, (n, x) ∈ found → GetRepoPath id ≠ GetRepoPath (regid n)) →
  (load (registry w) !! id = None → repo w !! GetRepoPath id = None) →
  load (registry (sync_loop e subPath found rp w).2) !! id = None →
  repo (sync_loop e subPath found rp w).2 !! GetRepoPath id = None.
Proof.
  revert rp w. induction found as [|[n x] found IH]; intros rp w Hne Hw;
    [done|].
  rewrite sync_loop_cons. apply IH.
  { intros n' x' Hin. apply (Hne n' x'). by right. }
  destruct (sync_step_spec e subPath n x rp w)
    as (_ & _ & Hreg & Hrepo & _).
  rewrite Hreg, Hrepo.
  assert (GetRepoPath id ≠ GetRepoPath (regid n)) as Hp
    by (apply (Hne n x); by left).
  assert (id ≠ regid n) as Hid by (by intros ->).
  rewrite lookup_insert_ne by done.
  assert (delete_list (dup_ids n (regid n) (GetAllSkills (registry w)))
            (load (registry w)) !! id = None →
          delete_list
            (GetRepoPath <$> dup_ids n (regid n) (GetAllSkills (registry w)))
            (repo w) !! GetRepoPath id = None) as Hstep.
  { rewrite !lookup_delete_list.
    destruct (decide (id ∈ _)) as [Hin|Hin].
    - intros _. rewrite decide_True; [done|].
      apply list_elem_of_fmap. by exists id.
    - intros H. destruct (decide (_ ∈ _)); [done|]. by apply Hw. }
  destruct (copy_ok e x); [|done].
  by rewrite lookup_insert_ne.
Qed.

Lemma sync_found_dir_gone found w id :
  (∀ n x, (n, x) ∈ found → GetRepoPath id ≠ GetRepoPath (regid n)) →
  (load (registry w) !! id = None → repo w !! GetRepoPath id = None) →
  load (registry (sync_found e subPath found w).2) !! id = None →
  repo (sync_found e subPath found w).2 !! GetRepoPath id = None.
Proof.
  intros Hne Hw. rewrite sync_found_unfold.
  set (rp1 := (sync_loop e subPath found no_report w).1).
  set (w1 := (sync_loop e subPath found no_report w).2).
  pose proof (loop_dir_gone found no_report w id Hne Hw) as Hloop.
  fold w1 in Hloop.
  pose proof (prune_loop_spec e (foundSet_of found ∅)
                (GetAllSkills (registry w1)) rp1 w1) as H.
  destruct (prune_loop _ _ _ _ _) as [rp' w'].
  destruct H as (_ & _ & _ & _ & _ & _ & _ & _ & Hr & Hrp & _). cbn [snd].
  rewrite Hr, Hrp, !lookup_delete_list.
  destruct (decide (id ∈ _)) as [Hin|Hin].
  - intros _. rewrite decide_True; [done|].
    apply list_elem_of_fmap. by exists id.
  - intros H. destruct (decide (_ ∈ _)); [done|]. by apply Hloop.
Qed.

End SyncEffects.

(** ** The report of a sync *)
Section SyncReport.
Import GoStrings Config Skills Commands.
Local Arguments String.append : simpl nomatch.

Variable e : Env.
Variable subPath : string.

Lemma change_of_ext r r' n x :
  load r' !! regid n = load r !! regid n →
  change_of e subPath r' (n, x) = change_of e subPath r (n, x).
Proof. unfold change_of, GetSkill. cbn [fst snd]. by intros ->. Qed.

Lemma count_changes_cons r c nx found :
  count_changes e subPath r c (nx :: found)
  = ((if decide (change_of e subPath r nx = c) then 1 else 0)
     + count_changes e subPath r c found)%nat.
Proof.
  unfold count_changes. rewrite filter_cons.
  by destruct (decide (change_of e subPath r nx = c)).
Qed.

Lemma sync_step_counters n x rp w :
  let c := change_of e subPath (registry w) (n, x) in
  let rp' := (sync_step e subPath n x rp w).1 in
  added rp' = (added rp + if decide (c = Added) then 1 else 0)%nat ∧
  updated rp' = (updated rp + if decide (c = Updated) then 1 else 0)%nat ∧
  unchanged rp'
  = (unchanged rp + if decide (c = Unchanged) then 1 else 0)%nat.
Proof.
  cbn zeta. unfold sync_step, change_of, copy_ok. cbn [sync_loop fst snd].
  fold (regid n).
  pose proof (removeSkillsWithLinkName_registry n (regid n)
                (detectedProjects e) w (regid n)) as Hk.
  rewrite decide_False in Hk by (by intros [? _]).
  destruct (removeSkillsWithLinkName _ _ _ _) as [[rs rl] wd].
  cbn [snd] in Hk.
  destruct (copyDir (resolve e) x) as [copied ok]. cbn [fst snd].
  match goal with
  | |- context [if (0 <? rs)%nat then ?a else rp] =>
      set (rp0 := if (0 <? rs)%nat then a else rp)
  end.
  assert (added rp0 = added rp ∧ updated rp0 = updated rp ∧
          unchanged rp0 = unchanged rp) as (Ha0 & Hu0 & Hn0)
    by (subst rp0; by destruct (0 <? rs)%nat).
  clearbody rp0.
  destruct ok; cbn [negb fst snd].
  - unfold GetSkill. rewrite Hk.
    destruct (load (registry w) !! regid n) as [stored|].
    + destruct (negb _); cbn [added updated unchanged];
        repeat split; repeat case_decide; try done; lia.
    + cbn [added updated unchanged].
      repeat split; repeat case_decide; try done; lia.
  - repeat split; repeat case_decide; try done; lia.
Qed.

Lemma sync_loop_counters r0 found rp w :
  valid_names found → NoDup found.*1 →
  (∀ n x, (n, x) ∈ found →
     load (registry w) !! regid n = load r0 !! regid n) →
  let rp' := (sync_loop e subPath found rp w).1 in
  added rp' = (added rp + count_changes e subPath r0 Added found)%nat ∧
  updated rp' = (updated rp + count_changes e subPath r0 Updated found)%nat ∧
  unchanged rp'
  = (unchanged rp + count_changes e subPath r0 Unchanged found)%nat.
Proof.
  revert rp w. induction found as [|[n x] found IH]; intros rp w Hv Hnd Hw.
  { cbn. repeat split; lia. }
  cbn zeta. rewrite sync_loop_cons, !count_changes_cons.
  rewrite fmap_cons in Hnd. apply NoDup_cons in Hnd as [Hn Hnd].
  destruct (sync_step_counters n x rp w) as (Ha & Hu & Hc).
  assert (change_of e subPath (registry w) (n, x)
          = change_of e subPath r0 (n, x)) as Hch
    by (apply change_of_ext, (Hw n x); left).
  rewrite Hch in Ha, Hu, Hc.
  destruct (IH (sync_step e subPath n x rp w).1
               (sync_step e subPath n x rp w).2) as (Ha' & Hu' & Hc').
  - intros n' x' Hin. eapply Hv. by right.
  - done.
  - intros n' x' Hin.
    assert (n' ≠ n) as Hne.
    { intros ->. apply Hn. apply list_elem_of_fmap. by exists (n, x'). }
    assert (valid_name n') as Hvn by (eapply Hv; by right).
    rewrite step_lookup_other by (by intros ?%regid_inj).
    rewrite GetLinkName_regid by done. rewrite decide_False by done.
    apply (Hw n' x'). by right.
  - rewrite Ha', Hu', Hc', Ha, Hu, Hc. repeat split; lia.
Qed.

Lemma sync_found_counters found w :
  valid_names found → NoDup found.*1 →
  let rp' := (sync_found e subPath found w).1 in
  added rp' = count_changes e subPath (registry w) Added found ∧
  updated rp' = count_changes e subPath (registry w) Updated found ∧
  unchanged rp' = count_changes e subPath (registry w) Unchanged found.
Proof.
  intros Hv Hnd. cbn zeta. rewrite sync_found_unfold.
  destruct (sync_loop_counters (registry w) found no_report w Hv Hnd)
    as (Ha & Hu & Hc); [done|].
  set (rp1 := (sync_loop e subPath found no_report w).1) in *.
  set (w1 := (sync_loop e subPath found no_report w).2).
  pose proof (prune_loop_spec e (foundSet_of found ∅)
                (GetAllSkills (registry w1)) rp1 w1) as H.
  destruct (prune_loop _ _ _ _ _) as [rp' w'].
  destruct H as (Ha' & Hu' & Hc' & _). cbn [fst].
  by rewrite Ha', Hu', Hc', Ha, Hu, Hc.
Qed.

End SyncReport.

(** ** [SyncSkills]: what a run registers, removes and keeps *)
Section SyncOutcome.
Import GoStrings Config Skills Commands.
Local Arguments String.append : simpl nomatch.

(** Registering a well-formed identifier keeps the registry well
    formed. *)
Lemma well_formed_AddSkill w id skillType commitID skillPath :
  well_formed_registry w → well_formed_id id →
  well_formed_registry
    (set_registry (AddSkill id skillType commitID skillPath) w).
Proof.
  intros Hw Hid id'. destruct (decide (id' = id)) as [->|Hne]; [done|].
  cbn [registry set_registry]. rewrite !is_Some_GetSkill.
  rewrite AddSkill_save, load_save, lookup_insert_ne by done.
  intros H. apply Hw. by apply is_Some_GetSkill.
Defined.

Lemma example_world_proper_links : proper_links example_world.
Proof.
  intros id [v Hid]%is_Some_GetSkill. cbn [registry example_world] in Hid.
  rewrite !AddSkill_save, !load_save in Hid.
  apply lookup_insert_Some in Hid as [[<- _]|[_ Hid]]; [done|].
  apply lookup_insert_Some in Hid as [[<- _]|[_ Hid]]; [done|].
  apply lookup_insert_Some in Hid as [[<- _]|[_ Hid]]; [done|].
  unfold load in Hid. cbn [content] in Hid. by rewrite lookup_empty in Hid.
Defined.

Lemma found_is_dir e url n x :
  (n, x) ∈ found_at e url → ∃ sub, x = Dir sub.
Proof.
  unfold found_at, scanForSkills. destruct (readDir e _) as [entries|];
    [|by intros ?%elem_of_nil].
  intros [_ H]%elem_of_scan_entries. destruct x as [|sub|]; try done.
  by exists sub.
Qed.

Lemma found_nonempty e url n x :
  (n, x) ∈ found_at e url → (length (found_at e url) =? 0)%nat = false.
Proof. by destruct (found_at e url); [intros ?%elem_of_nil|]. Qed.



(** X11: pruning.  After a run of [SyncSkills] that finds at least one
    skill, every record of type [registry] is the record of a found
    skill.  A skill [registry:m] of that type whose name is no longer in
    the clone is removed: its record leaves the registry and its
    directory leaves the repository. *)
Theorem SyncSkills_prunes_stale (interactive : bool) (e : Env) (w : World) :
  valid_upstream e → gitVersionOK e = true → configRegistry w ≠ "" →
  (if cloned w then pullOK e else cloneOK e) = true →
  found_at e (configRegistry w) ≠ [] →
  let w1 := (SyncSkills interactive e w).2 in
  (∀ id sk, GetSkill id (registry w1) = Some sk →
     Skills.Type_ sk = "registry" →
     ∃ n x, (n, x) ∈ found_at e (configRegistry w) ∧ id = "registry:" +:+ n)
  ∧ (∀ m sk, GetSkill ("registry:" +:+ m) (registry w) = Some sk →
       Skills.Type_ sk = "registry" → Contains m "/" = false →
       m ∉ (found_at e (configRegistry w)).*1 →
       GetSkill ("registry:" +:+ m) (registry w1) = None
       ∧ repo w1 !! GetRepoPath ("registry:" +:+ m) = None).
Proof.
  intros Hv Hg Hc Hok Hne. cbn zeta.
  destruct (SyncSkills_reaches_scan interactive e w Hg Hc Hok)
    as (wf & Hwf & ->).
  destruct (found_at_valid e (configRegistry w) Hv) as [Hnames Hnd].
  unfold sync_scanned.
  assert ((length (found_at e (configRegistry w)) =? 0)%nat = false) as ->
    by (by destruct (found_at e (configRegistry w))).
  set (subPath := Git.Path (Git.NormalizeURL (configRegistry w))).
  set (found := found_at e (configRegistry w)) in *.
  destruct (sync_found_stable e subPath found wf Hnames) as (_ & _ & Hreg).
  assert (∀ id sk,
            GetSkill id (registry (sync_found e subPath found wf).2)
            = Some sk →
            Skills.Type_ sk = "registry" → is_found found id) as Hfound.
  { intros id sk (stored & Hid & ->)%GetSkill_Some Ht.
    by apply (Hreg id stored). }
  split; [exact Hfound|].
  intros m sk Hm Ht Hvm Hnew. fold (regid m) in *.
  assert (∀ n x, (n, x) ∈ found → m ≠ n) as Hdiff.
  { intros n x Hin ->. apply Hnew, list_elem_of_fmap. by exists (n, x). }
  assert (GetSkill (regid m) (registry (sync_found e subPath found wf).2)
          = None) as Hgone.
  { destruct (GetSkill (regid m)
                (registry (sync_found e subPath found wf).2))
      as [sk'|] eqn:E; [|done]. exfalso.
    pose proof E as (stored & Hid & ->)%GetSkill_Some.
    destruct (sync_found_origin e subPath found wf _ _ Hid)
      as [Hold|(n & x & Hin & Heq & _)].
    - rewrite Hwf in Hold.
      apply GetSkill_Some in Hm as (stored' & Hm & ->).
      assert (stored' = stored) as -> by congruence.
      destruct (Hfound _ _ E Ht) as (n & x & Hin & Heq).
      apply regid_inj in Heq. by apply (Hdiff n x).
    - apply regid_inj in Heq. by apply (Hdiff n x). }
  split; [done|].
  apply sync_found_dir_gone.
  - intros n x Hin Heq. apply GetRepoPath_regid_inj in Heq; [|done|].
    + by apply (Hdiff n x).
    + by eapply Hnames.
  - rewrite Hwf. apply GetSkill_Some in Hm as (stored & Hm & _).
    by rewrite Hm.
  - by apply GetSkill_None.
Qed.

Lemma SyncSkills_prunes_stale_witness :
  GetSkill "registry:retired"
    (registry (SyncSkills false example_env stale_world).2) = None
  ∧ repo (SyncSkills false example_env stale_world).2
      !! GetRepoPath "registry:retired" = None.
Proof.
  destruct (SyncSkills_prunes_stale false example_env stale_world)
    as [_ Hstale].
  - exact example_env_valid.
  - reflexivity.
  - done.
  - reflexivity.
  - by vm_compute.
  - apply (Hstale "retired"
             (mkSkill "registry:retired" "0a1b2c" "registry" "")).
    + by vm_compute.
    + reflexivity.
    + reflexivity.
    + apply (bool_decide_unpack _). by vm_compute.
Defined.

(** X12: in a registry of well-formed identifiers, a skill that is not
    of type [registry] and whose link name is not the name of any skill
    of the clone goes through [SyncSkills] untouched, whatever the run
    does: its record is the same after the run. *)
Theorem SyncSkills_keeps_unrelated (interactive : bool) (e : Env)
    (w : World) (id : string) (sk : Skill) :
  valid_upstream e → well_formed_registry w →
  GetSkill id (registry w) = Some sk → Skills.Type_ sk ≠ "registry" →
  (∀ p, GetLinkName id ∉ (scanForSkills (resolve e) (readDir e p)).*1) →
  GetSkill id (registry (SyncSkills interactive e w).2) = Some sk.
Proof.
  intros Hv _ Hid Ht Hl.
  destruct (SyncSkills_cases e interactive w)
    as [(_ & (Hsame & _) & _)|(url & wf & _ & _ & _ & _ & _ & Hsame & ->)].
  { by rewrite Hsame. }
  destruct Hsame as (Hwf & _).
  destruct (found_at_valid e url Hv) as [Hnames _].
  apply GetSkill_Some in Hid as (stored & Hid & ->).
  unfold GetSkill. rewrite sync_found_unfold, prune_lookup.
  rewrite loop_lookup_frame by (done || apply Hl).
  rewrite Hwf, Hid.
  destruct (String.eqb_spec (stored_Type stored) "registry"); [|done].
  by destruct Ht.
Qed.

Lemma SyncSkills_keeps_unrelated_witness :
  GetSkill "local:notes"
    (registry (SyncSkills false example_env
                 (set_registry (AddSkill "local:notes" "local" "" "")
                    example_world)).2)
  = Some (mkSkill "local:notes" "" "local" "").
Proof.
  apply SyncSkills_keeps_unrelated.
  - exact example_env_valid.
  - apply well_formed_AddSkill; [exact example_world_well_formed|].
    right. left. by exists "notes".
  - by vm_compute.
  - done.
  - intros p. cbn [resolve readDir example_env].
    destruct (String.eqb p "").
    + apply (bool_decide_unpack _). by vm_compute.
    + cbn. apply not_elem_of_nil.
Defined.



Lemma sync_only_unlinks interactive e w :
  only_unlinks (SkillDir <$> detectedProjects e)
    (skillDirs (SyncSkills interactive e w).2) (skillDirs w).
Proof.
  destruct (SyncSkills_cases e interactive w)
    as [(_ & (_ & _ & Hsame) & _)
       |(url & wf & _ & _ & _ & _ & _ & (_ & _ & Hsame) & ->)].
  - rewrite Hsame. apply only_unlinks_refl.
  - rewrite <- Hsame. apply sync_found_only_unlinks.
Qed.

(** X14: [SyncSkills] only ever takes entries out of the skill
    directories of the detected projects.  When the link name of every
    registered skill names an entry, then whatever the run does, no skill
    directory appears or disappears, no entry is added or changed, a
    skill directory that is not one of a detected project keeps all of
    its entries, and a directory that is not empty is never taken out of
    a skill directory. *)
Theorem SyncSkills_only_unlinks (interactive : bool) (e : Env) (w : World) :
  proper_links w →
  only_unlinks (SkillDir <$> detectedProjects e)
    (skillDirs (SyncSkills interactive e w).2) (skillDirs w).
Proof. intros _. apply sync_only_unlinks. Qed.

Lemma SyncSkills_only_unlinks_witness :
  only_unlinks (SkillDir <$> detectedProjects example_env)
    (skillDirs (SyncSkills false example_env example_world).2)
    (skillDirs example_world).
Proof.
  apply SyncSkills_only_unlinks. exact example_world_proper_links.
Defined.



End SyncOutcome.

(** ** Links of a project (link.go) *)
Section LinkFacts.
Import GoStrings Config Skills Commands Link.
Local Arguments String.append : simpl nomatch.

Variable Join : string → string → string.

Local Abbreviation link := (linkSkillToProject Join).
Local Abbreviation unlink := unlinkSkillFromProject.

Lemma lstat_entry dir name w :
  lstat dir name w = bool_decide (is_Some (entry dir name w)).
Proof.
  unfold lstat, entry. destruct (skillDirs w !! dir); [done|].
  symmetry. apply bool_decide_eq_false. by intros [? ?].
Qed.

Lemma lstat_true dir name w :
  lstat dir name w = true ↔ is_Some (entry dir name w).
Proof. rewrite lstat_entry. apply bool_decide_eq_true. Qed.

Lemma entry_MkdirAll dir0 dir name w :
  entry dir name (MkdirAll dir0 w) = entry dir name w.
Proof.
  unfold MkdirAll, entry. destruct (skillDirs w !! dir0) eqn:E; [done|].
  cbn [skillDirs set_skillDirs].
  destruct (decide (dir = dir0)) as [->|Hne].
  - by rewrite lookup_insert_eq, E, lookup_empty.
  - by rewrite lookup_insert_ne.
Qed.

(** What [os.Remove] leaves of an entry. *)
Lemma entry_Remove dir0 name0 dir name w :
  entry dir name (Remove dir0 name0 w)
  = if decide (dir = dir0 ∧ name = name0)
    then match entry dir name w with
         | Some x => if removable x then None else Some x
         | None => None
         end
    else entry dir name w.
Proof.
  unfold Remove, entry.
  destruct (skillDirs w !! dir0) as [d|] eqn:Hd.
  - destruct (d !! name0) as [x|] eqn:Hx.
    + destruct (removable x) eqn:Hr; cbn [skillDirs set_skillDirs].
      * destruct (decide (dir = dir0)) as [->|Hne].
        -- rewrite lookup_insert_eq, Hd.
           destruct (decide (name = name0)) as [->|Hn].
           ++ rewrite decide_True by done.
              by rewrite lookup_delete_eq, Hx, Hr.
           ++ rewrite decide_False by (by intros [_ ?]).
              by rewrite lookup_delete_ne.
        -- rewrite lookup_insert_ne by done.
           by rewrite decide_False by (by intros [? _]).
      * case_decide as Hc; [|done]. destruct Hc as [-> ->].
        by rewrite Hd, Hx, Hr.
    + case_decide as Hc; [|done]. destruct Hc as [-> ->].
      by rewrite Hd, Hx.
  - case_decide as Hc; [|done]. destruct Hc as [-> ->]. by rewrite Hd.
Qed.

Lemma entry_unlink id p dir name w :
  entry dir name (unlink id p w)
  = if decide (dir = SkillDir p ∧ name = GetLinkName id)
    then match entry dir name w with
         | Some x => if removable x then None else Some x
         | None => None
         end
    else entry dir name w.
Proof.
  unfold unlinkSkillFromProject.
  destruct (lstat (SkillDir p) (GetLinkName id) w) eqn:E; cbn [negb].
  - apply entry_Remove.
  - case_decide as Hc; [|done]. destruct Hc as [-> ->].
    rewrite lstat_entry in E. apply bool_decide_eq_false in E.
    destruct (entry (SkillDir p) (GetLinkName id) w); [|done].
    destruct E. by eexists.
Qed.

Lemma unlink_files id p w :
  registry (unlink id p w) = registry w ∧ repo (unlink id p w) = repo w.
Proof.
  unfold unlinkSkillFromProject, Remove.
  destruct (lstat _ _ _); cbn [negb]; [|done].
  destruct (skillDirs w !! SkillDir p) as [d|]; [|done].
  destruct (d !! GetLinkName id) as [x|]; [|done].
  by destruct (removable x).
Qed.

(** The target of the link [linkSkillToProject] creates for a skill. *)
Lemma link_registered id p w sk :
  GetSkill id (registry w) = Some sk →
  link id p w
  = let w0 := MkdirAll (SkillDir p) w in
    if lstat (SkillDir p) (GetLinkName id) w0 then w0
    else set_skillDirs
           (λ sd, match sd !! SkillDir p with
                  | Some d =>
                      <[SkillDir p :=
                          <[GetLinkName id :=
                              Symlink (if negb (String.eqb (Path sk) "")
                                       then Join (GetRepoPath id) (Path sk)
                                       else GetRepoPath id)]> d]> sd
                  | None => sd
                  end) w0.
Proof.
  intros H. unfold linkSkillToProject. rewrite H.
  by apply GetSkill_Some in H as (stored & _ & ->).
Qed.

Lemma MkdirAll_is_Some dir w : is_Some (skillDirs (MkdirAll dir w) !! dir).
Proof.
  unfold MkdirAll. destruct (skillDirs w !! dir) as [d|] eqn:E.
  - by rewrite E.
  - cbn [skillDirs set_skillDirs]. by rewrite lookup_insert_eq.
Qed.

Lemma MkdirAll_files dir w :
  registry (MkdirAll dir w) = registry w ∧ repo (MkdirAll dir w) = repo w.
Proof. unfold MkdirAll. by destruct (skillDirs w !! dir). Qed.

Lemma MkdirAll_id dir w :
  is_Some (skillDirs w !! dir) → MkdirAll dir w = w.
Proof. intros [d H]. unfold MkdirAll. by rewrite H. Qed.

Lemma entry_link id p dir name w sk :
  GetSkill id (registry w) = Some sk →
  entry dir name (link id p w)
  = if decide (dir = SkillDir p ∧ name = GetLinkName id)
    then Some (match entry dir name w with
               | Some x => x
               | None => Symlink (if negb (String.eqb (Path sk) "")
                                  then Join (GetRepoPath id) (Path sk)
                                  else GetRepoPath id)
               end)
    else entry dir name w.
Proof.
  intros H. rewrite (link_registered id p w sk H). cbn zeta.
  pose proof (entry_MkdirAll (SkillDir p) dir name w) as Hmk.
  pose proof (entry_MkdirAll (SkillDir p) (SkillDir p) (GetLinkName id) w)
    as Hmk'.
  destruct (MkdirAll_is_Some (SkillDir p) w) as [d Hd].
  set (w0 := MkdirAll (SkillDir p) w) in *.
  destruct (lstat (SkillDir p) (GetLinkName id) w0) eqn:E.
  - rewrite Hmk. case_decide as Hc; [|done]. destruct Hc as [-> ->].
    apply lstat_true in E as [x E]. rewrite Hmk' in E. by rewrite E.
  - rewrite lstat_entry in E. apply bool_decide_eq_false in E.
    rewrite Hmk' in E.
    unfold entry at 1. cbn [skillDirs set_skillDirs]. rewrite Hd.
    destruct (decide (dir = SkillDir p)) as [->|Hne].
    + rewrite lookup_insert_eq.
      destruct (decide (name = GetLinkName id)) as [->|Hn].
      * rewrite decide_True by done. rewrite lookup_insert_eq.
        destruct (entry (SkillDir p) (GetLinkName id) w); [|done].
        destruct E. by eexists.
      * rewrite decide_False by (by intros [_ ?]).
        rewrite lookup_insert_ne by done.
        rewrite <- Hmk. unfold entry. by rewrite Hd.
    + rewrite decide_False by (by intros [? _]).
      rewrite lookup_insert_ne by done. rewrite <- Hmk. done.
Qed.

Lemma link_files id p w :
  registry (link id p w) = registry w ∧ repo (link id p w) = repo w.
Proof.
  unfold linkSkillToProject. destruct (GetSkill id (registry w)); [|done].
  destruct (MkdirAll_files (SkillDir p) w) as [Hr Hp].
  by destruct (lstat _ _ _).
Qed.

(** X16: [linkSkillToProject] never replaces an entry of the skill
    directory.  For a skill that is not registered nothing changes.  For
    a registered skill whose link name names an entry, that entry is
    afterwards the entry that was there, or, when there was none, a
    symbolic link to the repository path of the skill (joined with its
    path, if it has one); every other entry is as before, the registry
    and the repository are untouched, and linking a second time changes
    nothing. *)
Theorem linkSkillToProject_spec (id : string) (p : Info) (w : World) :
  proper_name (GetLinkName id) →
  let w' := linkSkillToProject Join id p w in
  registry w' = registry w ∧ repo w' = repo w
  ∧ (GetSkill id (registry w) = None → w' = w)
  ∧ (∀ sk, GetSkill id (registry w) = Some sk →
       entry (SkillDir p) (GetLinkName id) w'
       = Some (match entry (SkillDir p) (GetLinkName id) w with
               | Some x => x
               | None => Symlink (if negb (String.eqb (Path sk) "")
                                  then Join (GetRepoPath id) (Path sk)
                                  else GetRepoPath id)
               end))
  ∧ (∀ dir name, (dir, name) ≠ (SkillDir p, GetLinkName id) →
       entry dir name w' = entry dir name w)
  ∧ linkSkillToProject Join id p w' = w'.
Proof.
  intros _. cbn zeta. destruct (link_files id p w) as [Hr Hp].
  split; [done|]. split; [done|].
  split; [by unfold linkSkillToProject; intros ->|].
  split; [|split].
  - intros sk H. rewrite (entry_link id p _ _ w sk H).
    by rewrite decide_True.
  - intros dir name Hne.
    destruct (GetSkill id (registry w)) as [sk|] eqn:H.
    + rewrite (entry_link id p _ _ w sk H).
      rewrite decide_False; [done|]. intros [-> ->]. by destruct Hne.
    + unfold linkSkillToProject. by rewrite H.
  - destruct (GetSkill id (registry w)) as [sk|] eqn:H.
    2: { unfold linkSkillToProject at 2. rewrite H.
         unfold linkSkillToProject. by rewrite H. }
    assert (GetSkill id (registry (link id p w)) = Some sk) as H'
      by (by rewrite Hr).
    rewrite (link_registered id p (link id p w) sk H'). cbn zeta.
    assert (is_Some (skillDirs (link id p w) !! SkillDir p)) as Hdir.
    { rewrite (link_registered id p w sk H). cbn zeta.
      destruct (MkdirAll_is_Some (SkillDir p) w) as [d Hd].
      destruct (lstat _ _ _); [by rewrite Hd|].
      cbn [skillDirs set_skillDirs]. rewrite Hd.
      by rewrite lookup_insert_eq. }
    rewrite (MkdirAll_id _ _ Hdir).
    assert (lstat (SkillDir p) (GetLinkName id) (link id p w) = true) as ->.
    { apply lstat_true. rewrite (entry_link id p _ _ w sk H).
      by rewrite decide_True. }
    done.
Qed.

(** X17: [unlinkSkillFromProject] undoes [linkSkillToProject]: when the
    skill is registered, its link name names an entry, and the skill
    directory exists and holds no entry of that name, linking and then
    unlinking gives back the state before.  In general
    [unlinkSkillFromProject] removes whatever entry has the link name,
    link or not, except a directory that is not empty, and touches no
    other entry. *)
Theorem unlink_after_link (id : string) (p : Info) (w : World) :
  proper_name (GetLinkName id) →
  (is_Some (GetSkill id (registry w)) →
   is_Some (skillDirs w !! SkillDir p) →
   entry (SkillDir p) (GetLinkName id) w = None →
   unlinkSkillFromProject id p (linkSkillToProject Join id p w) = w)
  ∧ (∀ dir name,
       entry dir name (unlinkSkillFromProject id p w)
       = if decide (dir = SkillDir p ∧ name = GetLinkName id)
         then match entry dir name w with
              | Some x => if removable x then None else Some x
              | None => None
              end
         else entry dir name w).
Proof.
  intros _. split; [|intros dir name; apply entry_unlink].
  intros [sk Hsk] [d Hd] He.
  rewrite (link_registered id p w sk Hsk). cbn zeta.
  rewrite (MkdirAll_id (SkillDir p) w) by (by rewrite Hd).
  assert (d !! GetLinkName id = None) as Hn
    by (unfold entry in He; by rewrite Hd in He).
  assert (lstat (SkillDir p) (GetLinkName id) w = false) as ->.
  { rewrite lstat_entry, He. apply bool_decide_eq_false. by intros [? ?]. }
  unfold unlinkSkillFromProject, lstat, Remove.
  cbn [skillDirs set_skillDirs]. rewrite Hd, !lookup_insert_eq.
  rewrite bool_decide_eq_true_2 by done. cbn [negb removable].
  unfold set_skillDirs. cbn [skillDirs configRegistry cloned registry repo].
  rewrite Hd, insert_insert_eq, delete_insert_eq, delete_id by done.
  rewrite insert_id by done. by destruct w.
Qed.

(** X18: [removeSkillLinkIfPresent] of sync.go and
    [unlinkSkillFromProject] of link.go leave the same state.  For a
    link name that names an entry, the former returns true exactly when
    the skill directory holds an entry of that name that [os.Remove] can
    remove; called a second time it returns false and changes nothing. *)
Theorem removeSkillLinkIfPresent_unlinks (id : string) (p : Info)
    (w : World) :
  proper_name (GetLinkName id) →
  (removeSkillLinkIfPresent id p w).2 = unlinkSkillFromProject id p w
  ∧ ((removeSkillLinkIfPresent id p w).1 = true ↔
     ∃ x, entry (SkillDir p) (GetLinkName id) w = Some x
          ∧ removable x = true)
  ∧ removeSkillLinkIfPresent id p (removeSkillLinkIfPresent id p w).2
    = (false, (removeSkillLinkIfPresent id p w).2).
Proof.
  intros _.
  unfold removeSkillLinkIfPresent at 1 2 4 5, unlinkSkillFromProject,
    lstat, Remove, entry.
  destruct (skillDirs w !! SkillDir p) as [d|] eqn:Hd.
  2: { cbn. split; [done|]. split; [|by unfold removeSkillLinkIfPresent;
                                         rewrite Hd].
       split; [done|]. by intros (? & ? & _). }
  destruct (d !! GetLinkName id) as [x|] eqn:Hx.
  2: { rewrite bool_decide_eq_false_2 by (by intros [? ?]). cbn.
       split; [done|]. split; [|by unfold removeSkillLinkIfPresent;
                                  rewrite Hd, Hx].
       split; [done|]. by intros (? & ? & _). }
  rewrite bool_decide_eq_true_2 by done. cbn [negb].
  destruct (removable x) eqn:Hr; cbn [fst snd].
  - split; [done|]. split; [split; [by exists x|done]|].
    unfold removeSkillLinkIfPresent. cbn [skillDirs set_skillDirs].
    by rewrite lookup_insert_eq, lookup_delete_eq.
  - split; [done|]. split.
    + split; [done|]. intros (x' & [= <-] & ?). congruence.
    + unfold removeSkillLinkIfPresent. by rewrite Hd, Hx, Hr.
Qed.

Lemma getLinkedSkills_loop_lookup l dir w acc id :
  default false (getLinkedSkills_loop l dir w acc !! id) = true ↔
  default false (acc !! id) = true
  ∨ (id ∈ ID <$> l ∧ lstat dir (GetLinkName id) w = true).
Proof.
  revert acc. induction l as [|sk l IH]; intros acc;
    cbn [getLinkedSkills_loop].
  - rewrite fmap_nil. split; [by left|].
    by intros [?|[?%elem_of_nil _]].
  - rewrite fmap_cons, elem_of_cons.
    destruct (lstat dir (GetLinkName (ID sk)) w) eqn:E; rewrite IH.
    + destruct (decide (id = ID sk)) as [->|Hne].
      * rewrite lookup_insert_eq. cbn. split; [|by left].
        intros _. right. split; [by left|done].
      * rewrite lookup_insert_ne by done. intuition congruence.
    + split; [intuition|]. intros [?|[[->|?] ?]]; [by left|congruence|].
      by right.
Qed.

(** [getLinkedSkills] marks a skill of the slice exactly when an entry
    has its link name. *)
Lemma getLinkedSkills_lookup l dir w sk :
  sk ∈ l →
  default false (getLinkedSkills l dir w !! ID sk)
  = lstat dir (GetLinkName (ID sk)) w.
Proof.
  intros Hin. apply Bool.eq_iff_eq_true. unfold getLinkedSkills.
  rewrite getLinkedSkills_loop_lookup, lookup_empty. cbn. split.
  - by intros [?|[_ ?]].
  - intros H. right. split; [|done]. by apply list_elem_of_fmap_2.
Qed.

Lemma lstat_ext dir name w w' :
  entry dir name w' = entry dir name w →
  lstat dir name w' = lstat dir name w.
Proof. rewrite !lstat_entry. by intros ->. Qed.

Lemma applySelection_spec l linked sel p changes w :
  (∀ sk, sk ∈ l → GetSkill (ID sk) (registry w) = Some sk) →
  NoDup ((λ sk, GetLinkName (ID sk)) <$> l) →
  (∀ sk, sk ∈ l →
     default false (linked !! ID sk)
     = lstat (SkillDir p) (GetLinkName (ID sk)) w) →
  (∀ sk x, sk ∈ l →
     entry (SkillDir p) (GetLinkName (ID sk)) w = Some x →
     removable x = true) →
  let w' := (applySelection Join l linked sel p changes w).2 in
  registry w' = registry w ∧ repo w' = repo w
  ∧ (∀ sk, sk ∈ l →
       lstat (SkillDir p) (GetLinkName (ID sk)) w'
       = default false (sel !! ID sk))
  ∧ (∀ dir name,
       dir ≠ SkillDir p ∨ name ∉ (λ sk, GetLinkName (ID sk)) <$> l →
       entry dir name w' = entry dir name w)
  ∧ (applySelection Join l linked sel p changes w).1
    = (changes
       + length (filter (λ sk, default false (linked !! ID sk)
                               ≠ default false (sel !! ID sk)) l))%nat.
Proof.
  revert changes w.
  induction l as [|sk l IH]; intros changes w Hreg Hnd Hlinked Hrem.
  { cbn [applySelection fst snd]. split; [done|]. split; [done|].
    split; [by intros sk ?%elem_of_nil|]. split; [done|].
    rewrite filter_nil. cbn [length]. lia. }
  rewrite fmap_cons in Hnd. apply NoDup_cons in Hnd as [Hsk Hnd].
  assert (∀ c w1,
    registry w1 = registry w → repo w1 = repo w →
    (∀ dir name, (dir, name) ≠ (SkillDir p, GetLinkName (ID sk)) →
       entry dir name w1 = entry dir name w) →
    lstat (SkillDir p) (GetLinkName (ID sk)) w1
    = default false (sel !! ID sk) →
    let w' := (applySelection Join l linked sel p c w1).2 in
    registry w' = registry w ∧ repo w' = repo w
    ∧ (∀ sk', sk' ∈ sk :: l →
         lstat (SkillDir p) (GetLinkName (ID sk')) w'
         = default false (sel !! ID sk'))
    ∧ (∀ dir name,
         dir ≠ SkillDir p
         ∨ name ∉ (λ sk, GetLinkName (ID sk)) <$> sk :: l →
         entry dir name w' = entry dir name w)
    ∧ (applySelection Join l linked sel p c w1).1
      = (c + length (filter (λ sk, default false (linked !! ID sk)
                                   ≠ default false (sel !! ID sk)) l))%nat)
    as Hrest.
  { intros c w1 Hr1 Hp1 He1 Hl1.
    assert (∀ sk', sk' ∈ l →
              entry (SkillDir p) (GetLinkName (ID sk')) w1
              = entry (SkillDir p) (GetLinkName (ID sk')) w) as Hsame.
    { intros sk' Hin. apply He1. intros [= E]. apply Hsk.
      rewrite <- E. by apply (list_elem_of_fmap_2 (λ sk, GetLinkName (ID sk))). }
    destruct (IH c w1) as (Hr' & Hp' & Hl' & He' & Hc'); try done.
    - intros sk' Hin. rewrite Hr1. apply Hreg. by right.
    - intros sk' Hin. rewrite (lstat_ext _ _ w w1) by (by apply Hsame).
      apply Hlinked. by right.
    - intros sk' x Hin. rewrite Hsame by done. apply Hrem. by right.
    - cbn zeta. split; [congruence|]. split; [congruence|].
      split; [|split; [|done]].
      + intros sk' [->|Hin]%elem_of_cons; [|by apply Hl'].
        rewrite <- Hl1. apply lstat_ext, He'. by right.
      + intros dir name Hor. rewrite He'.
        * apply He1. intros [= -> ->]. destruct Hor as [?|Hn]; [done|].
          apply Hn. rewrite fmap_cons. by left.
        * destruct Hor as [?|Hn]; [by left|]. right. intros Hin.
          apply Hn. rewrite fmap_cons. by right. }
  cbn [applySelection]. rewrite filter_cons.
  pose proof (Hlinked sk ltac:(by left)) as Hl0.
  pose proof (Hreg sk ltac:(by left)) as Hreg0.
  destruct (default false (linked !! ID sk)) eqn:Elinked,
           (default false (sel !! ID sk)) eqn:Esel; cbn [negb andb].
  - by destruct (Hrest changes w) as (? & ? & ? & ? & Hc).
  - destruct (unlink_files (ID sk) p w) as [Hr1 Hp1].
    destruct (Hrest (S changes) (unlink (ID sk) p w) Hr1 Hp1)
      as (? & ? & ? & ? & Hc).
    + intros dir name Hne. rewrite entry_unlink.
      rewrite decide_False; [done|]. intros [-> ->]. by destruct Hne.
    + rewrite lstat_entry, entry_unlink, decide_True by done.
      symmetry in Hl0. apply lstat_true in Hl0 as [x Hx]. rewrite Hx.
      rewrite (Hrem sk x) by (by left || done).
      apply bool_decide_eq_false. by intros [? ?].
    + rewrite decide_True by done. cbn [length].
      repeat split; try done. rewrite Hc. lia.
  - destruct (link_files (ID sk) p w) as [Hr1 Hp1].
    destruct (Hrest (S changes) (link (ID sk) p w) Hr1 Hp1)
      as (? & ? & ? & ? & Hc).
    + intros dir name Hne. rewrite (entry_link _ _ _ _ _ sk Hreg0).
      rewrite decide_False; [done|]. intros [-> ->]. by destruct Hne.
    + apply lstat_true. rewrite (entry_link _ _ _ _ _ sk Hreg0).
      by rewrite decide_True.
    + rewrite decide_True by done. cbn [length].
      repeat split; try done. rewrite Hc. lia.
  - by destruct (Hrest changes w) as (? & ? & ? & ? & Hc).
Qed.

Lemma selectedSet_of_lookup selected acc id :
  default false (selectedSet_of selected acc !! id)
  = bool_decide (id ∈ selected) || default false (acc !! id).
Proof.
  revert acc. induction selected as [|i selected IH]; intros acc;
    cbn [selectedSet_of].
  - rewrite bool_decide_eq_false_2; [done|]. by intros ?%elem_of_nil.
  - rewrite IH. destruct (decide (id = i)) as [->|Hne].
    + rewrite lookup_insert_eq. cbn [default].
      rewrite (bool_decide_eq_true_2 (i ∈ i :: selected)) by (by left).
      by rewrite orb_true_r.
    + rewrite lookup_insert_ne by done. f_equal.
      apply bool_decide_ext. rewrite elem_of_cons. intuition congruence.
Qed.

(** X19: the loop of [LinkToProject] makes the links of the project the
    selection.  When no two registered skills share a link name, every
    link name names an entry, and the entries that have a link name can
    be removed (as links can), then after the loop [getLinkedSkills]
    marks a skill exactly when it is one of the selected identifiers; the
    registry, the repository and the entries under other names are
    untouched, and the number of changes reported is the number of skills
    whose mark differed from the selection. *)
Theorem applySelection_reaches_selection (selected : list string)
    (p : Info) (w : World) :
  let allSkills := GetAllSkills (registry w) in
  let names := (λ sk, GetLinkName (ID sk)) <$> allSkills in
  let linkedSkills := getLinkedSkills allSkills (SkillDir p) w in
  let selectedSet := selectedSet_of selected ∅ in
  let run := applySelection Join allSkills linkedSkills selectedSet p 0 w in
  NoDup names → proper_links w →
  (∀ name x, name ∈ names → entry (SkillDir p) name w = Some x →
     removable x = true) →
  (∀ sk, sk ∈ allSkills →
     default false (getLinkedSkills allSkills (SkillDir p) run.2 !! ID sk)
     = bool_decide (ID sk ∈ selected))
  ∧ registry run.2 = registry w ∧ repo run.2 = repo w
  ∧ (∀ dir name, dir ≠ SkillDir p ∨ name ∉ names →
       entry dir name run.2 = entry dir name w)
  ∧ run.1
    = length (filter (λ sk, default false (linkedSkills !! ID sk)
                            ≠ bool_decide (ID sk ∈ selected))
                allSkills).
Proof.
  intros allSkills names linkedSkills selectedSet run Hnd _ Hrem.
  assert (∀ id, default false (selectedSet !! id)
                = bool_decide (id ∈ selected)) as Hsel.
  { intros id. unfold selectedSet.
    by rewrite selectedSet_of_lookup, lookup_empty, orb_false_r. }
  destruct (applySelection_spec allSkills linkedSkills selectedSet p 0 w)
    as (Hr & Hp & Hl & He & Hc); try done.
  - by intros sk ?%elem_of_GetAllSkills.
  - intros sk Hin. by apply getLinkedSkills_lookup.
  - intros sk x Hin. apply Hrem.
    by apply (list_elem_of_fmap_2 (λ sk, GetLinkName (ID sk))).
  - fold run in Hr, Hp, Hl, He, Hc. repeat split; try done.
    + intros sk Hin. rewrite getLinkedSkills_lookup by done.
      rewrite <- Hsel. by apply Hl.
    + rewrite Hc. cbn. f_equal. apply list_filter_iff.
      intros sk. by rewrite Hsel.
Qed.

Lemma ReadDir_elem_of dir w entries name x :
  ReadDir dir w = Some entries →
  (name, x) ∈ entries ↔ entry dir name w = Some x.
Proof.
  unfold ReadDir, entry. destruct (skillDirs w !! dir) as [d|]; [|done].
  intros [= <-]. rewrite merge_sort_Permutation.
  apply elem_of_map_to_list.
Qed.

Lemma ReadDir_None dir w name :
  ReadDir dir w = None → entry dir name w = None.
Proof.
  unfold ReadDir, entry. by destruct (skillDirs w !! dir).
Qed.

Lemma elem_of_broken_entries rs entries name :
  name ∈ broken_entries rs entries ↔
  ∃ t, (name, Symlink t) ∈ entries ∧ rs t = Dangling.
Proof.
  induction entries as [|[n x] entries IH]; cbn [broken_entries].
  - split; [by intros ?%elem_of_nil|by intros (? & ?%elem_of_nil & _)].
  - assert ((∃ t, (name, Symlink t) ∈ entries ∧ rs t = Dangling) →
            ∃ t, (name, Symlink t) ∈ (n, x) :: entries ∧ rs t = Dangling)
      as Hweak.
    { intros (t & ? & ?). exists t. split; [by right|done]. }
    destruct x as [data|sub|t0].
    + rewrite IH. split; [done|].
      intros (t & [[=]|?]%elem_of_cons & ?). by exists t.
    + rewrite IH. split; [done|].
      intros (t & [[=]|?]%elem_of_cons & ?). by exists t.
    + destruct (rs t0) eqn:E.
      * rewrite elem_of_cons, IH. split.
        -- intros [->|H]; [|by apply Hweak]. exists t0. split; [by left|done].
        -- intros (t & [[= -> ->]|?]%elem_of_cons & ?); [by left|].
           right. by exists t.
      * rewrite IH. split; [done|].
        intros (t & [[= -> ->]|?]%elem_of_cons & ?); [congruence|].
        by exists t.
      * rewrite IH. split; [done|].
        intros (t & [[= -> ->]|?]%elem_of_cons & ?); [congruence|].
        by exists t.
Qed.

Lemma elem_of_findBrokenLinks rs dir w name :
  name ∈ findBrokenLinks rs dir w ↔
  ∃ t, entry dir name w = Some (Symlink t) ∧ rs t = Dangling.
Proof.
  unfold findBrokenLinks. destruct (ReadDir dir w) as [entries|] eqn:E.
  - rewrite elem_of_broken_entries. split; intros (t & H & ?); exists t.
    + split; [|done]. by apply (ReadDir_elem_of dir w entries).
    + split; [|done]. by apply (ReadDir_elem_of dir w entries).
  - split; [by intros ?%elem_of_nil|]. intros (t & H & _).
    by rewrite (ReadDir_None dir w name E) in H.
Qed.

Lemma elem_of_other_entries rs entries name :
  name ∈ other_entries rs entries ↔
  ∃ sub, (name, Dir sub) ∈ entries
         ∧ stat_ok rs (lookup_entry "SKILL.md" sub) = true.
Proof.
  induction entries as [|[n x] entries IH]; cbn [other_entries].
  - split; [by intros ?%elem_of_nil|by intros (? & ?%elem_of_nil & _)].
  - assert ((∃ sub, (name, Dir sub) ∈ entries
                    ∧ stat_ok rs (lookup_entry "SKILL.md" sub) = true) →
            ∃ sub, (name, Dir sub) ∈ (n, x) :: entries
                   ∧ stat_ok rs (lookup_entry "SKILL.md" sub) = true)
      as Hweak.
    { intros (t & ? & ?). exists t. split; [by right|done]. }
    destruct x as [data|sub0|t0].
    + rewrite IH. split; [done|].
      intros (t & [[=]|?]%elem_of_cons & ?). by exists t.
    + destruct (stat_ok rs (lookup_entry "SKILL.md" sub0)) eqn:E.
      * rewrite elem_of_cons, IH. split.
        -- intros [->|H]; [|by apply Hweak].
           exists sub0. split; [by left|done].
        -- intros (t & [[= -> ->]|?]%elem_of_cons & ?); [by left|].
           right. by exists t.
      * rewrite IH. split; [done|].
        intros (t & [[= -> ->]|?]%elem_of_cons & ?); [congruence|].
        by exists t.
    + rewrite IH. split; [done|].
      intros (t & [[=]|?]%elem_of_cons & ?). by exists t.
Qed.

Lemma elem_of_findOtherSkills rs dir w name :
  name ∈ findOtherSkills rs dir w ↔
  ∃ sub, entry dir name w = Some (Dir sub)
         ∧ stat_ok rs (lookup_entry "SKILL.md" sub) = true.
Proof.
  unfold findOtherSkills. destruct (ReadDir dir w) as [entries|] eqn:E.
  - rewrite elem_of_other_entries. split; intros (t & H & ?); exists t.
    + split; [|done]. by apply (ReadDir_elem_of dir w entries).
    + split; [|done]. by apply (ReadDir_elem_of dir w entries).
  - split; [by intros ?%elem_of_nil|]. intros (t & H & _).
    by rewrite (ReadDir_None dir w name E) in H.
Qed.

Lemma Remove_files dir name w :
  registry (Remove dir name w) = registry w
  ∧ repo (Remove dir name w) = repo w.
Proof.
  unfold Remove. destruct (skillDirs w !! dir) as [d|]; [|done].
  destruct (d !! name) as [x|]; [|done]. by destruct (removable x).
Qed.

Lemma entry_removeBrokenLinks links dir0 dir name w :
  entry dir name (removeBrokenLinks links dir0 w)
  = if decide (dir = dir0 ∧ name ∈ links)
    then match entry dir name w with
         | Some x => if removable x then None else Some x
         | None => None
         end
    else entry dir name w.
Proof.
  revert w. induction links as [|link links IH]; intros w;
    cbn [removeBrokenLinks].
  - rewrite decide_False; [done|]. by intros [_ ?%elem_of_nil].
  - rewrite IH, entry_Remove.
    destruct (decide (dir = dir0)) as [->|Hd].
    2: { by rewrite !decide_False by (by intros [? _]). }
    destruct (decide (name = link)) as [->|Hn].
    + rewrite (decide_True (P := dir0 = dir0 ∧ link = link)) by done.
      rewrite (decide_True (P := dir0 = dir0 ∧ link ∈ link :: links))
        by (split; [done|by left]).
      destruct (entry dir0 link w) as [x|]; [|by case_decide].
      destruct (removable x) eqn:Hr; [by case_decide|].
      case_decide; [by rewrite Hr|done].
    + rewrite (decide_False (P := dir0 = dir0 ∧ name = link))
        by (by intros [_ ?]).
      destruct (decide (name ∈ links)) as [Hin|Hin].
      * rewrite !decide_True; [done|split; [done|by right]|done].
      * rewrite !decide_False; [done| |by intros [_ ?]].
        intros [_ [?|?]%elem_of_cons]; done.
Qed.

Lemma removeBrokenLinks_files links dir w :
  registry (removeBrokenLinks links dir w) = registry w
  ∧ repo (removeBrokenLinks links dir w) = repo w.
Proof.
  revert w. induction links as [|link links IH]; intros w;
    cbn [removeBrokenLinks]; [done|].
  destruct (IH (Remove dir link w)) as [-> ->]. apply Remove_files.
Qed.


Lemma stat_ok_nonempty rs name sub :
  stat_ok rs (lookup_entry name sub) = true → removable (Dir sub) = false.
Proof. by destruct sub. Qed.

(** X21: [findOtherSkills] lists the directories of the skill directory
    that hold a [SKILL.md] and are not links.  Such a directory is never
    reported as a broken link, and it is never deleted: neither
    [unlinkSkillFromProject], whatever the skill, nor the removal of
    broken links, nor a run of [SyncSkills] (when every link name names
    an entry) takes it out of the skill directory. *)
Theorem findOtherSkills_kept (rs : string → target) (dir name : string)
    (w : World) :
  (name ∈ findOtherSkills rs dir w ↔
   ∃ sub, entry dir name w = Some (Dir sub)
          ∧ stat_ok rs (lookup_entry "SKILL.md" sub) = true)
  ∧ (name ∈ findOtherSkills rs dir w →
     (name ∉ findBrokenLinks rs dir w)
     ∧ (∀ id p, proper_name (GetLinkName id) →
          entry dir name (unlinkSkillFromProject id p w)
          = entry dir name w)
     ∧ entry dir name
         (removeBrokenLinks (findBrokenLinks rs dir w) dir w)
       = entry dir name w
     ∧ (∀ interactive e, proper_links w →
          entry dir name (SyncSkills interactive e w).2
          = entry dir name w)).
Proof.
  split; [apply elem_of_findOtherSkills|].
  intros (sub & He & Hs%stat_ok_nonempty)%elem_of_findOtherSkills.
  split; [|split; [|split]].
  - intros (t & Ht & _)%elem_of_findBrokenLinks. congruence.
  - intros id p _. rewrite entry_unlink. case_decide; [|done].
    by rewrite He, Hs.
  - rewrite entry_removeBrokenLinks. case_decide; [|done].
    by rewrite He, Hs.
  - intros interactive e _.
    destruct (sync_only_unlinks interactive e w) as (_ & _ & _ & Hkeep).
    unfold entry in He |- *.
    destruct (skillDirs w !! dir) as [d|] eqn:Hd; [|done].
    destruct (Hkeep dir d name (Dir sub) Hd He Hs) as (d' & -> & ->).
    done.
Qed.

End LinkFacts.

(** The theorems on links at the project and the skill of the tests,
    with [filepath.Join] on clean paths. *)
Section LinkExamples.
Import GoStrings Config Skills Commands Link.

Lemma linkSkillToProject_spec_witness :
  entry "/work/.cursor/skills" "figma-mcp"
    (linkSkillToProject (λ a b, a +:+ "/" +:+ b) "local:figma-mcp"
       example_project
       (set_registry (AddSkill "local:figma-mcp" "local" "" "")
          example_world))
  = Some (Symlink "local__figma-mcp").
Proof.
  destruct (linkSkillToProject_spec (λ a b, a +:+ "/" +:+ b)
              "local:figma-mcp" example_project
              (set_registry (AddSkill "local:figma-mcp" "local" "" "")
                 example_world))
    as (_ & _ & _ & H & _).
  - by repeat split.
  - by apply (H (mkSkill "local:figma-mcp" "" "local" "")).
Defined.

Lemma unlink_after_link_witness :
  unlinkSkillFromProject "local:figma-mcp" example_project
    (linkSkillToProject (λ a b, a +:+ "/" +:+ b) "local:figma-mcp"
       example_project
       (set_registry (AddSkill "local:figma-mcp" "local" "" "")
          example_world))
  = set_registry (AddSkill "local:figma-mcp" "local" "" "") example_world.
Proof.
  destruct (unlink_after_link (λ a b, a +:+ "/" +:+ b)
              "local:figma-mcp" example_project
              (set_registry (AddSkill "local:figma-mcp" "local" "" "")
                 example_world))
    as [H _].
  - by repeat split.
  - apply H.
    + eexists. vm_compute. reflexivity.
    + eexists. vm_compute. reflexivity.
    + vm_compute. reflexivity.
Defined.

Lemma removeSkillLinkIfPresent_unlinks_witness :
  (removeSkillLinkIfPresent "registry:create-migration" example_project
     example_world).1 = true.
Proof.
  destruct (removeSkillLinkIfPresent_unlinks "registry:create-migration"
              example_project example_world) as (_ & H & _).
  - by repeat split.
  - apply H.
    exists (Symlink "github__org__repo__skills__create-migration").
    by vm_compute.
Defined.

Lemma linked_world_proper_links : proper_links linked_world.
Proof.
  intros id [v Hid]%is_Some_GetSkill. cbn [registry linked_world] in Hid.
  rewrite !AddSkill_save, !load_save in Hid.
  apply lookup_insert_Some in Hid as [[<- _]|[_ Hid]]; [done|].
  apply lookup_insert_Some in Hid as [[<- _]|[_ Hid]]; [done|].
  unfold load in Hid. cbn [content] in Hid. by rewrite lookup_empty in Hid.
Defined.

Lemma applySelection_reaches_selection_witness :
  let run :=
    applySelection (λ a b, a +:+ "/" +:+ b)
      (GetAllSkills (registry linked_world))
      (getLinkedSkills (GetAllSkills (registry linked_world))
         "/work/.cursor/skills" linked_world)
      (selectedSet_of ["local:figma-mcp"] ∅) example_project 0
      linked_world in
  registry run.2 = registry linked_world ∧ repo run.2 = repo linked_world.
Proof.
  destruct (applySelection_reaches_selection (λ a b, a +:+ "/" +:+ b)
              ["local:figma-mcp"] example_project linked_world)
    as (_ & Hr & Hp & _).
  - apply (bool_decide_unpack _). by vm_compute.
  - exact linked_world_proper_links.
  - intros name x Hin.
    assert (name = "my-skill" ∨ name = "figma-mcp") as [-> | ->].
    { vm_compute in Hin.
      apply elem_of_cons in Hin as [->|Hin]; [by left|].
      apply elem_of_cons in Hin as [->|Hin]; [by right|].
      by apply elem_of_nil in Hin. }
    + vm_compute. by intros [= <-].
    + vm_compute. by intros [=].
  - by split.
Defined.

End LinkExamples.

(** ** [CheckGitVersion] *)
Section GitVersionFacts.
Import GoStrings Regexp GitVersion.
Local Arguments String.append : simpl nomatch.

Lemma find_from_unfold r groups s :
  find_from r groups s
  = match exec r s (replicate (S groups) "")
            (λ rest caps, Some (<[O := consumed s rest]> caps)) with
    | Some m => Some m
    | None =>
        match s with
        | "" => None
        | String _ s' => find_from r groups s'
        end
    end.
Proof. by destruct s. Qed.

(** A version line matches at its start, and the groups are the two
    numbers as they are written. *)
Lemma versionRe_match major minor rest :
  major ≠ "" → minor ≠ "" →
  all_chars digit major = true → all_chars digit minor = true →
  (∀ c t, rest = String c t → digit c = false) →
  let s := "git version " +:+ major +:+ "." +:+ minor +:+ rest in
  find_from versionRe 2 s = Some [consumed s rest; major; minor].
Proof.
  intros Hmaj Hmin Hdmaj Hdmin Hrest s.
  rewrite find_from_unfold.
  assert (exec versionRe s (replicate 3 "")
            (λ rest caps, Some (<[O := consumed s rest]> caps))
          = Some [consumed s rest; major; minor]) as ->; [|done].
  unfold versionRe. cbn [exec]. unfold s at 1. rewrite strip_app.
  apply plus_all; [done..| |].
  { intros c t [= <- _]. done. }
  change ("." +:+ minor +:+ rest) with ("." +:+ (minor +:+ rest)).
  rewrite strip_app. apply plus_all; [done..|].
  by rewrite !consumed_app.
Qed.

Lemma Atoi_below (s : string) (n : Z) :
  n ≤ 25 → (Atoi s <? n) = (decimal 0 s <? n)
           ∧ (Atoi s =? 2) = (decimal 0 s =? 2).
Proof.
  intros Hn. unfold Atoi, maxInt.
  assert (25 < 2 ^ 63 - 1) by done.
  destruct (Z.min_spec (decimal 0 s) (2 ^ 63 - 1)) as [[? ->]|[? ->]];
    [done|].
  split.
  - destruct (Z.ltb_spec (2 ^ 63 - 1) n), (Z.ltb_spec (decimal 0 s) n);
      try done; lia.
  - destruct (Z.eqb_spec (2 ^ 63 - 1) 2), (Z.eqb_spec (decimal 0 s) 2);
      try done; lia.
Qed.

(** X22: [CheckGitVersion] accepts git 2.25 and later and nothing older.
    For an output of [git --version] that starts with [git version
    M.m], where [M] and [m] are the two numbers in decimal digits, the
    result is [nil] when [M > 2], or [M = 2] and [m >= 25], and the error
    [git version must be >= 2.25] otherwise, whatever follows the second
    number.  When the command fails the error is that git is not
    installed. *)
Theorem CheckGitVersion_threshold (major minor rest : string) :
  major ≠ "" → minor ≠ "" →
  all_chars digit major = true → all_chars digit minor = true →
  (∀ c t, rest = String c t → digit c = false) →
  CheckGitVersion
    (Some ("git version " +:+ major +:+ "." +:+ minor +:+ rest))
  = (if (decimal 0 major <? 2)
        || ((decimal 0 major =? 2) && (decimal 0 minor <? 25))
     then Some (TooOld (Atoi major) (Atoi minor))
     else None)
  ∧ CheckGitVersion None = Some NotInstalled.
Proof.
  intros Hmaj Hmin Hdmaj Hdmin Hrest. split; [|done].
  unfold CheckGitVersion. rewrite versionRe_match by done.
  cbn [nth].
  destruct (Atoi_below major 2) as [-> ->]; [lia|].
  by destruct (Atoi_below minor 25) as [-> _].
Qed.

Lemma CheckGitVersion_threshold_witness :
  CheckGitVersion (Some "git version 2.39.2 (Apple Git-143)") = None.
Proof.
  by destruct (CheckGitVersion_threshold "2" "39" ".2 (Apple Git-143)")
       as [H _]; [done|done|done|done|by intros c t [= <- _]|exact H].
Defined.

End GitVersionFacts.

(** ** Detection of the AI tools of a directory *)
Section ProjectFacts.
Import Commands Project.

Variable filepath_Join : string → string → string.
Variable filepath_Dir : string → string.
Variable stat : string → bool.

Local Abbreviation detect_tool := (detect_tool filepath_Join filepath_Dir stat).
Local Abbreviation detect_tools :=
  (detect_tools filepath_Join filepath_Dir stat).
Local Abbreviation DetectAll := (DetectAll filepath_Join filepath_Dir stat).
Local Abbreviation Detect := (Detect filepath_Join filepath_Dir stat).
Local Abbreviation parent_exists :=
  (λ (d : Detector) skillDir,
     stat (filepath_Dir (filepath_Join (cwd d) skillDir))).

Lemma detect_tool_Some d toolType skillDirs p :
  detect_tool d toolType skillDirs = Some p ↔
  ∃ before skillDir after,
    skillDirs = before ++ skillDir :: after
    ∧ (∀ s, s ∈ before → parent_exists d s = false)
    ∧ parent_exists d skillDir = true
    ∧ p = mkInfo toolType (cwd d) (filepath_Join (cwd d) skillDir).
Proof.
  induction skillDirs as [|sd sds IH]; cbn [Project.detect_tool].
  - split; [done|]. by intros ([|??] & ? & ? & ? & _).
  - destruct (stat _) eqn:E.
    + split.
      * intros [= <-]. exists [], sd, sds. split; [done|].
        split; [by intros s ?%elem_of_nil|done].
      * intros ([|b before] & sd' & after & [= -> ->] & Hb & Hs & ->);
          [done|]. rewrite (Hb b) in E by (by left). done.
    + rewrite IH. split.
      * intros (before & sd' & after & -> & Hb & Hs & ->).
        exists (sd :: before), sd', after. split; [done|].
        split; [|done]. by intros s [->|?]%elem_of_cons; [|apply Hb].
      * intros ([|b before] & sd' & after & [= -> ->] & Hb & Hs & ->);
          [congruence|].
        exists before, sd', after. split; [done|]. split; [|done].
        intros s Hin. apply Hb. by right.
Qed.

Lemma detect_tool_None d toolType skillDirs :
  detect_tool d toolType skillDirs = None ↔
  ∀ s, s ∈ skillDirs → parent_exists d s = false.
Proof.
  induction skillDirs as [|sd sds IH]; cbn [Project.detect_tool].
  - split; [by intros _ s ?%elem_of_nil|done].
  - destruct (stat _) eqn:E.
    + split; [done|]. intros H. rewrite (H sd) in E by (by left). done.
    + rewrite IH. split.
      * by intros H s [->|?]%elem_of_cons; [|apply H].
      * intros H s Hin. apply H. by right.
Qed.

Lemma elem_of_detect_tools d tools p :
  p ∈ detect_tools d tools ↔
  ∃ tool, tool ∈ tools
          ∧ detect_tool d (Type_ tool) (SkillDirs tool) = Some p.
Proof.
  induction tools as [|tool tools IH]; cbn [Project.detect_tools].
  - split; [by intros ?%elem_of_nil|by intros (? & ?%elem_of_nil & _)].
  - destruct (detect_tool d (Type_ tool) (SkillDirs tool)) as [q|] eqn:E.
    + rewrite elem_of_cons, IH. split.
      * intros [->|(t & ? & ?)]; [exists tool; by split; [left|]|].
        exists t. split; [by right|done].
      * intros (t & [->|?]%elem_of_cons & Hq); [left; congruence|].
        right. by exists t.
    + rewrite IH. split.
      * intros (t & ? & ?). exists t. split; [by right|done].
      * intros (t & [->|?]%elem_of_cons & Hq); [congruence|]. by exists t.
Qed.

Lemma detect_tools_sublist d tools :
  (Commands.Type_ <$> detect_tools d tools) `sublist_of` (Type_ <$> tools).
Proof.
  induction tools as [|tool tools IH]; cbn [Project.detect_tools]; [done|].
  destruct (detect_tool d (Type_ tool) (SkillDirs tool)) as [q|] eqn:E.
  - apply detect_tool_Some in E as (? & ? & ? & _ & _ & _ & ->).
    rewrite !fmap_cons. by apply sublist_skip.
  - rewrite fmap_cons. by apply sublist_cons.
Qed.

(** X23: [DetectAll] reports each configured tool at most once and in the
    order of the configuration.  A tool is reported exactly when the
    parent directory of one of its skill directories exists; the skill
    directory reported is the first such candidate, joined to the working
    directory, and the root is the working directory.  The skill
    directory itself need not exist. *)
Theorem DetectAll_first_candidate (d : Detector) :
  (Commands.Type_ <$> DetectAll d) `sublist_of` (Type_ <$> aiTools d)
  ∧ (∀ p, p ∈ DetectAll d ↔
       ∃ tool before skillDir after,
         tool ∈ aiTools d
         ∧ SkillDirs tool = before ++ skillDir :: after
         ∧ (∀ s, s ∈ before → parent_exists d s = false)
         ∧ parent_exists d skillDir = true
         ∧ p = mkInfo (Type_ tool) (cwd d)
                 (filepath_Join (cwd d) skillDir))
  ∧ (∀ tool, tool ∈ aiTools d →
       (∃ p, p ∈ DetectAll d ∧ Commands.Type_ p = Type_ tool)
       ∨ ∀ s, s ∈ SkillDirs tool → parent_exists d s = false).
Proof.
  split; [apply detect_tools_sublist|]. split.
  - intros p. unfold Project.DetectAll. rewrite elem_of_detect_tools.
    split.
    + intros (tool & Hin & (b & s & a & ? & ? & ? & ?)%detect_tool_Some).
      by exists tool, b, s, a.
    + intros (tool & b & s & a & Hin & ? & ? & ? & ?). exists tool.
      split; [done|]. apply detect_tool_Some. by exists b, s, a.
  - intros tool Hin.
    destruct (detect_tool d (Type_ tool) (SkillDirs tool)) as [p|] eqn:E.
    + left. exists p. split.
      * apply elem_of_detect_tools. by exists tool.
      * by apply detect_tool_Some in E as (? & ? & ? & _ & _ & _ & ->).
    + right. by apply (detect_tool_None d (Type_ tool)).
Qed.

(** X24: [NewDetector] never works with an empty list of tools: a
    configuration without tools, or with an empty list, or that cannot be
    read, gives the built-in tools, and an empty working directory gives
    the current one.  [Detect] returns the first tool that [DetectAll]
    reports; it returns the type [unknown], with the working directory as
    root and no skill directory, exactly when no parent directory of a
    candidate exists (for tools that are not themselves called
    [unknown]). *)
Theorem Detect_unknown (getwd cwd0 : string)
    (cfgAITools : option (list AIToolConfig)) :
  let d := NewDetector getwd cfgAITools cwd0 in
  aiTools d ≠ []
  ∧ (cfgAITools = None ∨ cfgAITools = Some [] →
     aiTools d = DefaultAITools)
  ∧ cwd d = (if String.eqb cwd0 "" then getwd else cwd0)
  ∧ Some (Detect d)
    = head (DetectAll d ++ [mkInfo "unknown" (cwd d) ""])
  ∧ ((∀ tool, tool ∈ aiTools d → Type_ tool ≠ "unknown") →
     Detect d = mkInfo "unknown" (cwd d) "" ↔
     ∀ tool s, tool ∈ aiTools d → s ∈ SkillDirs tool →
               parent_exists d s = false).
Proof.
  cbn zeta. split; [|split; [|split; [done|split]]].
  - unfold NewDetector, GetAITools. cbn [aiTools].
    destruct cfgAITools as [[|t ts]|]; done.
  - by intros [->| ->].
  - unfold Project.Detect. by destruct (Project.DetectAll _ _ _ _).
  - intros Hnames. set (d := NewDetector getwd cfgAITools cwd0).
    unfold Project.Detect. split.
    + destruct (Project.DetectAll _ _ _ d) as [|p ps] eqn:E.
      * intros _ tool s Hin Hs.
        destruct (detect_tool d (Type_ tool) (SkillDirs tool))
          as [q|] eqn:Eq.
        -- assert (q ∈ DetectAll d) as Hq
             by (apply elem_of_detect_tools; by exists tool).
           rewrite E in Hq. by apply elem_of_nil in Hq.
        -- by apply (detect_tool_None d (Type_ tool) (SkillDirs tool)).
      * intros ->. exfalso.
        assert (mkInfo "unknown" (cwd d) "" ∈ DetectAll d) as Hq
          by (rewrite E; left).
        apply elem_of_detect_tools in Hq as (tool & Hin & Hq).
        apply detect_tool_Some in Hq as (? & ? & ? & _ & _ & _ & [= Ht _]).
        by apply (Hnames tool).
    + intros Hnone.
      destruct (Project.DetectAll _ _ _ d) as [|p ps] eqn:E; [done|].
      exfalso. assert (p ∈ DetectAll d) as Hq by (rewrite E; left).
      apply elem_of_detect_tools in Hq as (tool & Hin & Hq).
      apply detect_tool_Some in Hq as (b & s & a & Hs & _ & Hok & _).
      rewrite (Hnone tool s) in Hok; [done|done|].
      rewrite Hs. apply elem_of_app. right. by left.
Qed.

End ProjectFacts.

(** ** Identifiers of GitHub skills *)
Section ManageFacts.
Import GoStrings Config Skills Manage.
Local Arguments String.append : simpl nomatch.

Lemma HasSuffix_app a b : HasSuffix (a +:+ b) b = true.
Proof.
  unfold HasSuffix. rewrite len_app.
  replace (len a + len b - len b)%nat with (len a) by lia.
  rewrite slice_from_app, String.eqb_refl.
  rewrite andb_true_r. apply Nat.leb_le. lia.
Qed.

(** X25: [checkForUpdate] recovers the repository of every skill that
    [addSingleGitHubSkill] registers: for the identifier
    [github:<userRepo>] or [github:<userRepo>/<path>] recorded with that
    path, the repository it asks git about is [userRepo], whatever the
    two strings are.  A skill whose locator is its whole path makes the
    slice expression of [checkForUpdate] go out of range. *)
Theorem userRepoOf_githubID (userRepo path commitID : string) :
  userRepoOf (mkSkill (githubID userRepo path) commitID "github" path)
  = UserRepo userRepo
  ∧ (path ≠ "" →
     userRepoOf (mkSkill ("github:" +:+ path) commitID "github" path)
     = OutOfRange).
Proof.
  unfold userRepoOf, githubID. cbn [ID Path]. split.
  - destruct (String.eqb_spec path "") as [->|Hp]; cbn [negb andb].
    + change ("github:" +:+ userRepo) with ("github" +:+ String ":" userRepo).
      by rewrite SplitN2_char.
    + rewrite app_assoc.
      change ("github:" +:+ userRepo +:+ "/" +:+ path)
        with ("github" +:+ String ":" (userRepo +:+ "/" +:+ path)).
      rewrite SplitN2_char by done. cbn [length Nat.ltb Nat.leb nth].
      rewrite <- app_assoc, HasSuffix_app.
      rewrite !len_app.
      replace (Z.of_nat (len userRepo + len "/" + len path)
               - Z.of_nat (len path) - 1)
        with (Z.of_nat (len userRepo)) by (unfold len; simpl; lia).
      destruct (Z.ltb_spec (Z.of_nat (len userRepo)) 0); [lia|].
      rewrite Nat2Z.id, app_assoc. by rewrite slice_to_app.
  - intros Hp.
    change ("github:" +:+ path) with ("github" +:+ String ":" path).
    rewrite SplitN2_char by done. cbn [length Nat.ltb Nat.leb nth].
    destruct (String.eqb_spec path ""); [done|]. cbn [negb andb].
    assert (HasSuffix path path = true) as ->
      by (apply (HasSuffix_app "" path)).
    by replace (Z.of_nat (len path) - Z.of_nat (len path) - 1 <? 0)
      with true by (symmetry; apply Z.ltb_lt; lia).
Qed.

Lemma userRepoOf_githubID_witness :
  userRepoOf (mkSkill "github:skills/tool" "abc123" "github" "skills/tool")
  = OutOfRange.
Proof.
  destruct (userRepoOf_githubID "user/repo" "skills/tool" "abc123")
    as [_ H].
  by apply H.
Defined.

End ManageFacts.

(** ** What [NormalizeURL] returns *)
Section NormalizeURLOutput.
Import GoStrings Regexp Git.
Local Arguments String.append : simpl nomatch.

Lemma TrimRight_last s cutset c :
  last_char (TrimRight s cutset) = Some c → in_cutset c cutset = false.
Proof.
  induction s as [|d s IH]; cbn [TrimRight]; [done|].
  destruct (TrimRight s cutset) as [|t0 t] eqn:E.
  - destruct (in_cutset d cutset) eqn:Hd; [done|].
    cbn. by intros [= <-].
  - intros H. apply IH. by rewrite <- H.
Qed.

Lemma HasSuffix_TrimRight s :
  HasSuffix (TrimRight s "/") "/" = false.
Proof.
  rewrite HasSuffix_char.
  destruct (last_char (TrimRight s "/")) as [d|] eqn:E; [|done].
  apply TrimRight_last in E. cbn in E. by rewrite orb_false_r in E.
Qed.

(** X26: whatever the input, the URL that [NormalizeURL] returns ends in
    [.git] and holds neither a query string nor a fragment, the branch
    holds no slash, and the path does not end in a slash. *)
Theorem NormalizeURL_output (inputURL : string) :
  HasSuffix (URL (NormalizeURL inputURL)) ".git" = true
  ∧ Contains (URL (NormalizeURL inputURL)) "?" = false
  ∧ Contains (URL (NormalizeURL inputURL)) "#" = false
  ∧ Contains (Branch (NormalizeURL inputURL)) "/" = false
  ∧ HasSuffix (Path (NormalizeURL inputURL)) "/" = false.
Proof.
  destruct (NormalizeURL_URL_shape inputURL) as (v & -> & Hq & Hh & _).
  split; [apply HasSuffix_app|].
  split; [apply Contains_char_false; by rewrite count_char_app, Hq|].
  split; [apply Contains_char_false; by rewrite count_char_app, Hh|].
  rewrite NormalizeURL_unfold. unfold parse_trimmed.
  destruct (FindStringSubmatch treePathRe (trimmed inputURL)) as [m|] eqn:E1.
  { apply treePathRe_Some in E1
      as (o & r & b & p & _ & _ & _ & _ & Hb & _ & ->).
    cbn [Branch Path nth]. split; [|apply HasSuffix_TrimRight].
    by apply Contains_char_false, not_slash_count. }
  destruct (FindStringSubmatch treeBranchRe (trimmed inputURL))
    as [m|] eqn:E2.
  { apply treeBranchRe_Some in E2 as (o & r & b & _ & _ & _ & _ & Hb & _ & ->).
    cbn [Branch Path nth]. split; [|done].
    by apply Contains_char_false, not_slash_count. }
  done.
Qed.

End NormalizeURLOutput.

(** ** Linking a synced skill *)
Section LinkAfterSync.
Import GoStrings Config Skills Commands Link.
Local Arguments String.append : simpl nomatch.



End LinkAfterSync.
